(** * Feedback severity, risk and retry logic of the trip-feedback front end

  A shallow embedding of the decision logic found in
  [frontend/src/utils/feedbackUtils.js], [frontend/src/services/feedbackApi.js],
  [frontend/src/utils/errorHandling.js], the [useFeedback] and [useWebSocket]
  hooks and the [VotingInterface], [ActivityFeedback] and
  [RealTimeMonitoring] components, together with the properties the
  specification states about them.

  JavaScript numbers are modelled as rationals extended with NaN and the
  two infinities; comparisons follow IEEE-754 (every comparison with NaN is
  false).  Where the code computes with fractions (the response rate, the
  optimal duration, the retry delays) every operation is rounded to the
  nearest double; the trend regression alone is taken in exact arithmetic.
  Objects used as dictionaries are finite maps keyed by strings. *)

From Stdlib Require Import ZArith QArith Qround Qabs Qminmax Qpower Lqa Lia List Ascii String.
From stdpp Require Import base option gmap strings list pretty.

Local Open Scope Q_scope.

(** ** JavaScript values *)

Module Js.

(** A JavaScript number: a finite value, NaN, or an infinity. *)
Inductive Num : Type :=
| Fin (q : Q)
| NaN
| PosInf
| NegInf.

Definition Qlt_bool (a b : Q) : bool := negb (Qle_bool b a).

(** [a < b] on numbers. *)
Definition num_lt (a b : Num) : bool :=
  match a, b with
  | NaN, _ | _, NaN => false
  | Fin p, Fin q => Qlt_bool p q
  | NegInf, NegInf => false
  | NegInf, _ => true
  | _, NegInf => false
  | PosInf, _ => false
  | Fin _, PosInf => true
  end.

(** [a <= b] on numbers. *)
Definition num_le (a b : Num) : bool :=
  match a, b with
  | NaN, _ | _, NaN => false
  | Fin p, Fin q => Qle_bool p q
  | NegInf, _ => true
  | _, NegInf => false
  | _, PosInf => true
  | PosInf, Fin _ => false
  end.

Definition num_gt (a b : Num) : bool := num_lt b a.
Definition num_ge (a b : Num) : bool := num_le b a.

(** The values that reach the modelled code: primitives, and objects seen
    only through [typeof] and truthiness. *)
Inductive Val : Type :=
| VUndefined
| VNull
| VBool (b : bool)
| VNum (n : Num)
| VStr (s : string)
| VObj.

(** ToBoolean. *)
Definition truthy (v : Val) : bool :=
  match v with
  | VUndefined | VNull => false
  | VBool b => b
  | VNum (Fin q) => negb (Qeq_bool q 0)
  | VNum NaN => false
  | VNum _ => true
  | VStr s => negb (String.eqb s "")
  | VObj => true
  end.

(** [a || b]. *)
Definition js_or (a b : Val) : Val := if truthy a then a else b.

(** [a === b] on primitives; two objects obtained separately are never
    identical, and NaN differs from itself. *)
Definition strict_eq (a b : Val) : bool :=
  match a, b with
  | VUndefined, VUndefined | VNull, VNull => true
  | VBool x, VBool y => Bool.eqb x y
  | VNum (Fin p), VNum (Fin q) => Qeq_bool p q
  | VNum PosInf, VNum PosInf | VNum NegInf, VNum NegInf => true
  | VStr s, VStr t => String.eqb s t
  | _, _ => false
  end.

(** A property read [o.k] on an object with primitive fields: a missing
    property reads as [undefined]. *)
Definition prop (o : gmap string Val) (k : string) : Val :=
  default VUndefined (o !! k).

(** What [JSON.stringify] writes for a property value: [undefined] drops the
    property, NaN and the infinities become [null]. *)
Definition json_value (v : Val) : option Val :=
  match v with
  | VUndefined => None
  | VNum (Fin q) => Some (VNum (Fin q))
  | VNum _ => Some VNull
  | _ => Some v
  end.

Definition json_field (k : string) (v : Val) (body : gmap string Val)
  : gmap string Val :=
  match json_value v with
  | Some w => <[k := w]> body
  | None => body
  end.

(** [typeof v === 'number']. *)
Definition is_number (v : Val) : bool :=
  match v with VNum _ => true | _ => false end.

(** [Math.round]: the nearest integer, halves going up. *)
Definition math_round (q : Q) : Z := Qfloor (q + (1 # 2)).

(** The property names every object literal inherits from
    [Object.prototype]; reading one of them yields a function or object,
    never [undefined]. *)
Definition object_prototype_keys : list string :=
  [ "constructor"; "__proto__"; "hasOwnProperty"; "isPrototypeOf";
    "propertyIsEnumerable"; "toLocaleString"; "toString"; "valueOf";
    "__defineGetter__"; "__defineSetter__"; "__lookupGetter__";
    "__lookupSetter__" ]%string.

Definition inherited (key : string) : bool :=
  bool_decide (key ∈ object_prototype_keys).

(** The result of reading [obj[key]] on an object literal whose own
    properties hold values of type [A]. *)
Inductive Prop_ (A : Type) : Type :=
| Own (a : A)
| Inherited
| Undefined.
Arguments Own {A} a.
Arguments Inherited {A}.
Arguments Undefined {A}.

Definition get {A} (obj : gmap string A) (key : string) : Prop_ A :=
  match obj !! key with
  | Some a => Own a
  | None => if inherited key then Inherited else Undefined
  end.

End Js.

Import Js.

(** ** Arithmetic on JavaScript numbers *)

Module JsArith.

(** IEEE-754 arithmetic on the number model: NaN propagates, the infinities
    absorb, and the undefined forms (infinity minus infinity, zero times
    infinity, zero over zero, infinity over infinity) are NaN.  Finite
    results are the exact ones, before any rounding (the module [Double]
    rounds them), and the sign of zero is not tracked. *)
Definition num_neg (a : Num) : Num :=
  match a with
  | Fin p => Fin (- p)
  | NaN => NaN
  | PosInf => NegInf
  | NegInf => PosInf
  end.

Definition num_add (a b : Num) : Num :=
  match a, b with
  | NaN, _ | _, NaN => NaN
  | Fin p, Fin q => Fin (p + q)
  | PosInf, NegInf | NegInf, PosInf => NaN
  | PosInf, _ | _, PosInf => PosInf
  | NegInf, _ | _, NegInf => NegInf
  end.

Definition num_sub (a b : Num) : Num := num_add a (num_neg b).

(** The infinity with the sign of [q] times the sign of [a]; NaN when [q]
    is zero. *)
Definition scale_inf (positive : bool) (q : Q) : Num :=
  if Qeq_bool q 0 then NaN
  else if Bool.eqb positive (Qlt_bool 0 q) then PosInf else NegInf.

Definition num_mul (a b : Num) : Num :=
  match a, b with
  | NaN, _ | _, NaN => NaN
  | Fin p, Fin q => Fin (p * q)
  | PosInf, Fin q | Fin q, PosInf => scale_inf true q
  | NegInf, Fin q | Fin q, NegInf => scale_inf false q
  | PosInf, PosInf | NegInf, NegInf => PosInf
  | PosInf, NegInf | NegInf, PosInf => NegInf
  end.

Definition num_div (a b : Num) : Num :=
  match a, b with
  | NaN, _ | _, NaN => NaN
  | Fin p, Fin q =>
      if Qeq_bool q 0 then
        (if Qeq_bool p 0 then NaN else if Qlt_bool 0 p then PosInf else NegInf)
      else Fin (p / q)
  | Fin _, _ => Fin 0
  | PosInf, Fin q => if Qlt_bool q 0 then NegInf else PosInf
  | NegInf, Fin q => if Qlt_bool q 0 then PosInf else NegInf
  | _, _ => NaN
  end.

End JsArith.

(** ** Double-precision rounding *)

Module Double.

Import JsArith.

(** JavaScript numbers are IEEE-754 binary64 values.  A finite one is kept
    as the rational it denotes; every arithmetic result is the exact result
    rounded to the nearest representable value, ties going to the even
    significand.  The sign of zero is not tracked. *)

Definition pow2 (e : Z) : Q := 2 ^ e.

(** The nearest integer, ties to the even one. *)
Definition round_half_even (x : Q) : Z :=
  let f := Qfloor x in
  match Qcompare (x - inject_Z f) (1 # 2) with
  | Lt => f
  | Gt => (f + 1)%Z
  | Eq => if Z.even f then f else (f + 1)%Z
  end.

(** For [0 < q], the exponent [k] with [2^k <= q < 2^(k+1)]. *)
Definition floor_log2 (q : Q) : Z :=
  let k := (Z.log2 (Qnum q) - Z.log2 (Zpos (Qden q)))%Z in
  if Qle_bool (pow2 k) q then k else (k - 1)%Z.

(** The exponent of the spacing of the representable values around [q]:
    53 significant bits, and the fixed spacing [2^-1074] of the subnormal
    range. *)
Definition ulp_exp (q : Q) : Z := Z.max (floor_log2 q - 52) (-1074).

Definition rnd_pos (q : Q) : Q :=
  let g := pow2 (ulp_exp q) in inject_Z (round_half_even (q / g)) * g.

(** Rounding to nearest, before the overflow test. *)
Definition rnd (q : Q) : Q :=
  match Qcompare q 0 with
  | Eq => 0
  | Gt => rnd_pos q
  | Lt => - rnd_pos (- q)
  end.

(** The double nearest to [q]; a rounded magnitude of [2^1024] or more
    overflows to an infinity. *)
Definition of_Q (q : Q) : Num :=
  let r := rnd q in
  if Qle_bool (pow2 1024) r then PosInf
  else if Qle_bool r (- pow2 1024) then NegInf
  else Fin r.

(** [q] is a finite double. *)
Definition representable (q : Q) : Prop :=
  rnd q == q /\ Qabs q < pow2 1024.

(** The number is a double: a representable finite value, NaN or an
    infinity. *)
Definition is_double (a : Num) : Prop :=
  match a with
  | Fin q => representable q
  | _ => True
  end.

Definition is_representable (q : Q) : bool :=
  Qeq_bool (rnd q) q && Qlt_bool (Qabs q) (pow2 1024).

Definition round_num (a : Num) : Num :=
  match a with
  | Fin q => of_Q q
  | _ => a
  end.

(** The four operators: the exact result of [JsArith], rounded. *)
Definition add (a b : Num) : Num := round_num (num_add a b).
Definition sub (a b : Num) : Num := round_num (num_sub a b).
Definition mul (a b : Num) : Num := round_num (num_mul a b).
Definition div (a b : Num) : Num := round_num (num_div a b).

(** [Math.round]: exact on a double, and the identity on NaN and the
    infinities. *)
Definition round (a : Num) : Num :=
  match a with
  | Fin q => Fin (inject_Z (math_round q))
  | _ => a
  end.

(** [Math.max(a, b)] and [Math.min(a, b)]: NaN when either argument is. *)
Definition max (a b : Num) : Num :=
  match a, b with
  | NaN, _ | _, NaN => NaN
  | _, _ => if num_lt a b then b else a
  end.

Definition min (a b : Num) : Num :=
  match a, b with
  | NaN, _ | _, NaN => NaN
  | _, _ => if num_lt b a then b else a
  end.

End Double.


(** ** feedbackUtils.js *)

Module FeedbackUtils.

Record Category : Type := mkCategory {
  key : string;
  label : string;
  inverseScale : bool;
  defaultThreshold : Q
}.

Definition FEEDBACK_CATEGORIES : gmap string Category :=
  <["tired" := mkCategory "tired" "Tired" false 7]>
  (<["energetic" := mkCategory "energetic" "Energetic" true 3]>
  (<["sick" := mkCategory "sick" "Sick" false 6]>
  (<["hungry" := mkCategory "hungry" "Hungry" false 7]>
  (<["adventurous" := mkCategory "adventurous" "Adventurous" true 3]> ∅)))).

Inductive Severity : Type := CRITICAL | HIGH | MODERATE | LOW | EXCELLENT.

(** [SEVERITY_LEVELS[s].value]. *)
Definition severity_value (s : Severity) : Z :=
  match s with
  | CRITICAL => 5 | HIGH => 4 | MODERATE => 3 | LOW => 2 | EXCELLENT => 1
  end%Z.

(** The string the code uses for a tier. *)
Definition severity_name (s : Severity) : string :=
  match s with
  | CRITICAL => "CRITICAL" | HIGH => "HIGH" | MODERATE => "MODERATE"
  | LOW => "LOW" | EXCELLENT => "EXCELLENT"
  end.

Definition tier_of_rank (r : Z) : option Severity :=
  match r with
  | 5 => Some CRITICAL | 4 => Some HIGH | 3 => Some MODERATE
  | 2 => Some LOW | 1 => Some EXCELLENT | _ => None
  end%Z.

(** The branch taken for inverse scales (energetic, adventurous):
    lower values are worse. *)
Definition inverse_scale_tier (value : Num) : Severity :=
  if num_le value (Fin 2) then CRITICAL
  else if num_le value (Fin 3) then HIGH
  else if num_le value (Fin 5) then MODERATE
  else if num_le value (Fin 7) then LOW
  else EXCELLENT.

(** The branch taken for normal scales (tired, sick, hungry):
    higher values are worse. *)
Definition normal_scale_tier (value : Num) : Severity :=
  if num_ge value (Fin 9) then CRITICAL
  else if num_ge value (Fin 7) then HIGH
  else if num_ge value (Fin 5) then MODERATE
  else if num_ge value (Fin 3) then LOW
  else EXCELLENT.

(** [calculateSeverity(value, categoryKey)].  The guard
    [typeof value !== 'number' || value < 1 || value > 10] compares only
    numbers, the first disjunct having sent everything else to MODERATE. *)
Definition calculateSeverity (value : Val) (categoryKey : string) : Severity :=
  match value with
  | VNum n =>
      if num_lt n (Fin 1) || num_gt n (Fin 10) then MODERATE
      else
        match get FEEDBACK_CATEGORIES categoryKey with
        | Undefined => MODERATE
        | Own category =>
            if inverseScale category then inverse_scale_tier n
            else normal_scale_tier n
        | Inherited =>
            (* a member of Object.prototype is truthy and has no
               [inverseScale] property *)
            normal_scale_tier n
        end
  | _ => MODERATE
  end.

(** One category of an aggregated feedback snapshot, as the server sends it. *)
Record Entry : Type := mkEntry {
  average : option Num;
  count : option Num;
  severity : option string
}.

Record Duration : Type := mkDuration {
  recommended : Num;
  original : Num;
  adjustment : Num;
  adjustmentFactor : Z;
  reason : list string;
  confidence : Q
}.

(** [adjustmentFactor -= step] for a decimal literal [step]: the literal is
    the double nearest to it and the difference is rounded.  The factor
    stays between -1 and 0, far from overflow. *)
Definition lower (adjustmentFactor step : Q) : Q :=
  Double.rnd (adjustmentFactor - Double.rnd step).

(** The body of the [forEach] over ['tired'; 'energetic'; 'hungry']; the
    accumulator is [(adjustmentFactor, reason)]. *)
Definition duration_step (feedbackData : gmap string Entry)
    (acc : Q * list string) (categoryKey : string) : Q * list string :=
  let '(adjustmentFactor, reason) := acc in
  match feedbackData !! categoryKey with
  | Some data =>
      match average data with
      | Some value =>
          if truthy (VNum value) then
            if String.eqb categoryKey "tired" && num_gt value (Fin 6) then
              (lower adjustmentFactor (2 # 10),
               reason ++ ["High fatigue levels detected"%string])
            else if String.eqb categoryKey "hungry" && num_gt value (Fin 6) then
              (lower adjustmentFactor (15 # 100),
               reason ++ ["Hunger levels increasing"%string])
            else if String.eqb categoryKey "energetic" && num_lt value (Fin 4) then
              (lower adjustmentFactor (1 # 10),
               reason ++ ["Low energy detected"%string])
            else acc
          else acc
      | None => acc
      end
  | None => acc
  end.

(** The adjustment factor after the three categories. *)
Definition duration_factor (fd : gmap string Entry) : Q :=
  fst (fold_left (duration_step fd) ["tired"; "energetic"; "hungry"]%string (0, [])).

(** The accumulator after the loop, told by which of the three categories
    lowered the factor. *)
Definition duration_outcome (tired energetic hungry : bool) : Q * list string :=
  let acc1 :=
    if tired then (lower 0 (2 # 10), ["High fatigue levels detected"%string])
    else (0, []) in
  let acc2 :=
    if energetic
    then (lower (fst acc1) (1 # 10), snd acc1 ++ ["Low energy detected"%string])
    else acc1 in
  if hungry
  then (lower (fst acc2) (15 # 100), snd acc2 ++ ["Hunger levels increasing"%string])
  else acc2.

(** [calculateOptimalDuration(feedbackData, baseDuration)] for a base
    duration that is any number, in double arithmetic. *)
Definition calculateOptimalDuration (feedbackData : gmap string Entry)
    (baseDuration : Num) : Duration :=
  let categories := ["tired"; "energetic"; "hungry"]%string in
  let '(adjustmentFactor, reason) :=
    fold_left (duration_step feedbackData) categories (0, []) in
  let optimalDuration :=
    Double.max
      (Double.round
         (Double.mul baseDuration (Double.add (Fin 1) (Fin adjustmentFactor))))
      (Fin 15) in
  {| recommended := optimalDuration;
     original := baseDuration;
     adjustment := Double.round (Double.sub optimalDuration baseDuration);
     adjustmentFactor := math_round (Double.rnd (adjustmentFactor * 100));
     reason := if (0 <? length reason)%nat then reason
               else ["No adjustments needed"%string];
     confidence :=
       Qmin 100 (Double.rnd (70 + Double.rnd (Qabs adjustmentFactor * 30))) |}.

End FeedbackUtils.

Import FeedbackUtils.

(** ** The useFeedback hook: overall risk level *)

Module RiskLevel.

Definition riskWeights : gmap string Q :=
  <["CRITICAL" := 5]> (<["HIGH" := 4]> (<["MODERATE" := 3]>
  (<["LOW" := 2]> (<["EXCELLENT" := 1]> ∅)))).

(** [feedbackData[cat]?.severity], kept when truthy ([.filter(Boolean)]). *)
Definition severity_of (feedbackData : gmap string Entry) (cat : string)
  : option string :=
  match feedbackData !! cat with
  | Some data =>
      match severity data with
      | Some s => if truthy (VStr s) then Some s else None
      | None => None
      end
  | None => None
  end.

(** [riskWeights[sev] || 3].  A name inherited from [Object.prototype] reads
    as a function: adding it turns the sum into a string, and the average
    into NaN; [None] stands for that. *)
Definition weight_of (sev : string) : option Q :=
  match get riskWeights sev with
  | Own w => Some (if truthy (VNum (Fin w)) then w else 3)
  | Undefined => Some 3
  | Inherited => None
  end.

Definition add_weight (sum : option Q) (sev : string) : option Q :=
  match sum, weight_of sev with
  | Some a, Some w => Some (a + w)
  | _, _ => None
  end.

(** [getOverallRiskLevel()] on the hook's [feedbackData] state; [None] is
    the initial [null]. *)
Definition getOverallRiskLevel (feedbackData : option (gmap string Entry))
  : string :=
  match feedbackData with
  | None => "UNKNOWN"
  | Some fd =>
      let severities :=
        omap (severity_of fd)
          ["tired"; "energetic"; "sick"; "hungry"; "adventurous"]%string in
      if (length severities =? 0)%nat then "UNKNOWN"
      else
        let avgRisk :=
          match fold_left add_weight severities (Some 0) with
          | Some sum => Fin (sum / inject_Z (Z.of_nat (length severities)))
          | None => NaN
          end in
        if num_ge avgRisk (Fin (45 # 10)) then "CRITICAL"
        else if num_ge avgRisk (Fin (35 # 10)) then "HIGH"
        else if num_ge avgRisk (Fin (25 # 10)) then "MODERATE"
        else if num_ge avgRisk (Fin (15 # 10)) then "LOW"
        else "EXCELLENT"
  end%string.

(** The threshold chain of getOverallRiskLevel, on a finite average. *)
Definition risk_chain (avgRisk : Q) : string :=
  if Qle_bool (45 # 10) avgRisk then "CRITICAL"
  else if Qle_bool (35 # 10) avgRisk then "HIGH"
  else if Qle_bool (25 # 10) avgRisk then "MODERATE"
  else if Qle_bool (15 # 10) avgRisk then "LOW"
  else "EXCELLENT".

(** The specification's wording of the overall risk: the mean of the tier
    ranks under weight 1 per category, rounded to the nearest tier. *)
Definition mean_rank (tiers : list Severity) : Q :=
  fold_right (fun t acc => inject_Z (severity_value t) + acc) 0 tiers
  / inject_Z (Z.of_nat (length tiers)).

Definition rounded_mean_tier (tiers : list Severity) : option Severity :=
  tier_of_rank (math_round (mean_rank tiers)).

(** The category of the snapshot carries the tier [t]. *)
Definition carries (feedbackData : gmap string Entry) (cat : string)
    (t : Severity) : Prop :=
  exists data, feedbackData !! cat = Some data
               /\ severity data = Some (severity_name t).

End RiskLevel.

Import RiskLevel.

(** ** VotingInterface: response rate *)

Module VotingInterface.

(** A count prop as a number. *)
Definition count (n : nat) : Num := Fin (inject_Z (Z.of_nat n)).

(** [getResponseRate()] over the two count props: the quotient and the
    product are each rounded to a double before [Math.round]. *)
Definition getResponseRate (participantCount respondedParticipants : nat) : Num :=
  if (participantCount =? 0)%nat then Fin 0
  else
    Double.round
      (Double.mul
         (Double.div (count respondedParticipants) (count participantCount))
         (Fin 100)).

(** The percentage the two counts stand for, as an exact rational. *)
Definition percentage (participantCount respondedParticipants : nat) : Q :=
  inject_Z (Z.of_nat respondedParticipants)
  / inject_Z (Z.of_nat participantCount) * 100.

(** The whole numbers a JavaScript number counts without gaps. *)
Definition countable (n : nat) : Prop := (Z.of_nat n <= 2 ^ 53)%Z.

End VotingInterface.

Import VotingInterface.

(** ** feedbackApi.js *)

Module FeedbackApi.

Definition categories : list string :=
  ["tired"; "energetic"; "sick"; "hungry"; "adventurous"]%string.

(** [typeof value !== 'number' || value < 1 || value > 10]. *)
Definition rejected_value (value : Val) : bool :=
  match value with
  | VNum n => num_lt n (Fin 1) || num_gt n (Fin 10)
  | _ => true
  end.

Definition upper (c : ascii) : ascii :=
  let n := nat_of_ascii c in
  if ((97 <=? n) && (n <=? 122))%nat then ascii_of_nat (n - 32) else c.

(** [category.charAt(0).toUpperCase() + category.slice(1)]. *)
Definition capitalize (s : string) : string :=
  match s with
  | EmptyString => EmptyString
  | String c rest => String (upper c) rest
  end.

Record Validation : Type := mkValidation {
  isValid : bool;
  errors : list string
}.

(** [!feedbackData.activityId && !feedbackData.activity_id]. *)
Definition missing_activity_id (feedbackData : gmap string Val) : bool :=
  negb (truthy (prop feedbackData "activityId"))
  && negb (truthy (prop feedbackData "activity_id")).

Definition validateFeedbackData (feedbackData : gmap string Val) : Validation :=
  let errors0 :=
    if missing_activity_id feedbackData
    then ["Activity ID is required"%string] else [] in
  let errors :=
    fold_left
      (fun errors category =>
         if rejected_value (prop feedbackData category)
         then errors ++ [(capitalize category ++ " must be between 1 and 10")%string]
         else errors)
      categories errors0 in
  {| isValid := (length errors =? 0)%nat; errors := errors |}.

(** What [fetch] followed by [handleResponse] yields: the parsed response, or
    a thrown error with its message. *)
Inductive Transport : Type :=
| Responded (result : gmap string Val)
| Failed (message : string).

Record ApiResult : Type := mkApiResult {
  success : bool;
  data : gmap string Val;
  error : option string;
  message : option string
}.

(** The JSON body [submitFeedback] posts. *)
Definition submit_body (feedbackData : gmap string Val) : gmap string Val :=
  json_field "activity_id"
    (js_or (prop feedbackData "activityId") (prop feedbackData "activity_id"))
  (json_field "tired" (prop feedbackData "tired")
  (json_field "energetic" (prop feedbackData "energetic")
  (json_field "sick" (prop feedbackData "sick")
  (json_field "hungry" (prop feedbackData "hungry")
  (json_field "adventurous" (prop feedbackData "adventurous") ∅))))).

(** What [submitFeedback(feedbackData)] returns once the transport has
    answered; the body it posted is [submit_body feedbackData]. *)
Definition submitFeedback (t : Transport) : ApiResult :=
  match t with
  | Responded result =>
      mkApiResult true result None (Some "Feedback submitted successfully!"%string)
  | Failed m =>
      mkApiResult false ∅ (Some m)
        (Some "Failed to submit feedback. Please try again."%string)
  end.

End FeedbackApi.

(** ** errorHandling.js *)

Module ErrorHandling.

(** An element of the value handed to [handleValidationError]: a plain
    string, or an object with [field] and [message]. *)
Inductive ErrorItem : Type :=
| ErrorText (text : string)
| ErrorField (field message : string).

(** The array branch of [handleValidationError]. *)
Definition handleValidationError (errors : list ErrorItem) : gmap string string :=
  fold_left
    (fun formattedErrors error =>
       match error with
       | ErrorField field message =>
           if truthy (VStr field) && truthy (VStr message)
           then <[field := message]> formattedErrors
           else formattedErrors
       | ErrorText _ => formattedErrors
       end)
    errors ∅.

(** [defaultErrorHandler] applied to a plain [Error]: the message is kept
    (or replaced by the fallback when empty) and the recovery message is the
    one of the unknown error type. *)
Definition app_error_message (message : string) : string :=
  if truthy (VStr message) then message
  else "An unexpected error occurred"%string.

Definition recovery_unknown : string :=
  "Something went wrong. Please try again."%string.

Section Retry.

Context {S A E : Type}.

(** The world [retryWithBackoff] runs in: the state [fn] acts on, the number
    of times [fn] was invoked, the delays slept, and the number of
    [Math.random()] draws made. *)
Record World : Type := mkWorld {
  fn_state : S;
  calls : nat;
  sleeps : list Q;
  draws : nat
}.

Inductive Outcome (X : Type) : Type :=
| Returned (x : X)
| Threw (e : option E).

(** [fn]: a thunk that returns or throws, acting on its state. *)
Variable fn : S -> (A + E) * S.
(** The [k]-th value [Math.random()] returns. *)
Variable random : nat -> Q.

Definition invoke (w : World) : (A + E) * World :=
  let '(r, s') := fn (fn_state w) in
  (r, mkWorld s' (Datatypes.S (calls w)) (sleeps w) (draws w)).

(** [baseDelay * Math.pow(2, attempt - 1) + Math.random() * 1000]: the two
    products and the sum are each rounded to a double (delays stay far
    below the overflow threshold). *)
Definition backoff (baseDelay : Q) (attempt : nat) (w : World) : World :=
  let delay :=
    Double.rnd
      (Double.rnd (baseDelay * inject_Z (2 ^ Z.of_nat (attempt - 1)))
       + Double.rnd (random (draws w) * 1000)) in
  mkWorld (fn_state w) (calls w) (sleeps w ++ [delay]) (Datatypes.S (draws w)).

(** The [for] loop from [attempt] on; [remaining] counts the iterations the
    loop condition [attempt <= maxRetries] still admits. *)
Fixpoint retry_loop (maxRetries : nat) (baseDelay : Q) (remaining attempt : nat)
    (lastError : option E) (w : World) : Outcome A * World :=
  match remaining with
  | O => (Threw A lastError, w)
  | Datatypes.S remaining' =>
      match invoke w with
      | (inl a, w1) => (Returned A a, w1)
      | (inr error, w1) =>
          if (attempt =? maxRetries)%nat then (Threw A (Some error), w1)
          else retry_loop maxRetries baseDelay remaining' (Datatypes.S attempt)
                 (Some error) (backoff baseDelay attempt w1)
      end
  end.

Definition retryWithBackoff (maxRetries : nat) (baseDelay : Q) (w : World)
  : Outcome A * World :=
  retry_loop maxRetries baseDelay maxRetries 1 None w.

(** [retryWithBackoff] for a [maxRetries] that is a finite number but need
    not be whole.  The loop condition [attempt <= maxRetries] admits the
    attempts 1 to floor(maxRetries); [attempt === maxRetries] can hold, at
    the last of them, only when [maxRetries] is whole.  Otherwise no attempt
    equals it, which the loop is told by a count one above the last
    attempt. *)
Definition retryWithBackoff_number (maxRetries : Q) (baseDelay : Q) (w : World)
  : Outcome A * World :=
  let last_attempt := Z.to_nat (Qfloor maxRetries) in
  if Qeq_bool (inject_Z (Qfloor maxRetries)) maxRetries
  then retry_loop last_attempt baseDelay last_attempt 1 None w
  else retry_loop (Datatypes.S last_attempt) baseDelay last_attempt 1 None w.

(** What [fn] alone does when invoked again and again from state [s]: the
    results of its successive invocations, up to and including the first
    one that returns, and at most [n] of them. *)
Fixpoint attempts (n : nat) (s : S) : list (A + E) :=
  match n with
  | O => []
  | Datatypes.S n' =>
      match fn s with
      | (inl a, _) => [inl a]
      | (inr e, s') => inr e :: attempts n' s'
      end
  end.

(** An attempt that threw. *)
Definition failed (r : A + E) : Prop := exists e, r = inr e.

(** The outcome a sequence of attempts announces: the value of a final
    success, else the error of the final failure, else [undefined]. *)
Definition verdict (tr : list (A + E)) : Outcome A :=
  match last tr with
  | Some (inl a) => Returned A a
  | Some (inr e) => Threw A (Some e)
  | None => Threw A None
  end.

End Retry.

Arguments World : clear implicits.
Arguments Outcome : clear implicits.
Arguments Returned {E X} x.
Arguments Threw {E X} e.

End ErrorHandling.

(** ** ActivityFeedback: the submit handler *)

Module ActivityFeedback.

Import FeedbackApi ErrorHandling.

Record SubmitMessage : Type := mkSubmitMessage {
  type : string;
  text : string;
  recoveryMessage : option string
}.

(** The component state [handleSubmit] reads and writes. *)
Record State : Type := mkState {
  feedback : gmap string Val;
  errors : gmap string string;
  isSubmitting : bool;
  submitMessage : option SubmitMessage
}.

(** What [handleSubmit] does besides updating the state: the request bodies
    posted, the values passed to [onSuccess], and whether the delayed close
    was scheduled. *)
Record Effects : Type := mkEffects {
  sent : list (gmap string Val);
  succeeded : list (gmap string Val);
  closeScheduled : bool
}.

Definition default_feedback : gmap string Val :=
  <["tired" := VNum (Fin 5)]> (<["energetic" := VNum (Fin 5)]>
  (<["sick" := VNum (Fin 5)]> (<["hungry" := VNum (Fin 5)]>
  (<["adventurous" := VNum (Fin 5)]> ∅)))).

Definition handleSubmit (activityId : Val) (onSuccess : bool) (now : Z)
    (t : Transport) (st : State) : State * Effects :=
  let validationData :=
    feedback st
    ∪ {[ "activityId"%string :=
           js_or activityId (VStr ("activity-" ++ pretty now)) ]} in
  let validation := validateFeedbackData validationData in
  if negb (isValid validation) then
    (mkState (feedback st)
       (handleValidationError (ErrorText <$> FeedbackApi.errors validation))
       (isSubmitting st)
       (Some (mkSubmitMessage "error"
                "Please fix the errors below and try again." None)),
     mkEffects [] [] false)
  else
    let feedbackData := feedback st ∪ {[ "activityId"%string := activityId ]} in
    let result := submitFeedback t in
    if success result then
      (mkState default_feedback (errors st) false
         (Some (mkSubmitMessage "success"
                  (match message result with
                   | Some m => if truthy (VStr m) then m
                               else "Feedback submitted successfully!"
                   | None => "Feedback submitted successfully!"
                   end) None)),
       mkEffects [submit_body feedbackData]
         (if onSuccess then [data result] else []) true)
    else
      let thrown :=
        match message result with
        | Some m => if truthy (VStr m) then m else "Failed to submit feedback"
        | None => "Failed to submit feedback"
        end in
      (mkState (feedback st) (errors st) false
         (Some (mkSubmitMessage "error" (app_error_message thrown)
                  (Some recovery_unknown))),
       mkEffects [submit_body feedbackData] [] false).

End ActivityFeedback.

(** ** The useFeedback hook: submitting and refreshing *)

Module UseFeedback.

Import FeedbackApi ErrorHandling.

(** What a refresh stores in [feedbackData]: the response spread whole, so
    its per-category entries and its [user_feedback] if it has one, and the
    tags added by the hook. *)
Record FeedbackData : Type := mkFeedbackData {
  entries : gmap string Entry;
  kept_user_feedback : option (gmap string Val);
  lastUpdated : Z;
  tripId : Val;
  activityId : Val
}.

(** The parsed response of the feedback endpoint, as far as the hook reads
    it: the category entries and the optional [user_feedback]. *)
Record ServerData : Type := mkServerData {
  server_entries : gmap string Entry;
  user_feedback : option (gmap string Val)
}.

(** What [getActivityFeedback] returned: a success with the parsed data, or
    a failure (its result carries no [message]). *)
Inductive Fetched : Type :=
| FetchOk (d : ServerData)
| FetchFailed (message : string).

Record HookState : Type := mkHookState {
  feedbackData : option FeedbackData;
  userFeedback : option (gmap string Val);
  isLoading : bool;
  error : option string
}.

(** [fetchFeedbackData(true)]: the forced refresh, which skips the cache
    read.  The cache entry it writes is the object it stores in
    [feedbackData], under a key fixed by the trip and the activity, so the
    cache holds nothing [feedbackData] does not; it and the [lastUpdated]
    date are not modelled separately. *)
Definition fetchFeedbackData (tripId activityId : Val) (now : Z) (f : Fetched)
    (st : HookState) : HookState :=
  if negb (truthy tripId) then st
  else
    match f with
    | FetchOk d =>
        mkHookState
          (Some (mkFeedbackData (server_entries d) (user_feedback d) now
                   tripId activityId))
          (match user_feedback d with
           | Some uf => Some uf
           | None => userFeedback st
           end)
          false None
    | FetchFailed _ =>
        mkHookState (feedbackData st) (userFeedback st) false
          (Some (app_error_message "Failed to fetch feedback data"))
    end.

Inductive Submitted : Type :=
| SubmitReturned (data : gmap string Val)
| SubmitThrew (message : string).

(** One call of [submitFeedbackData(feedback)]: [t] is the outcome of the
    POST, [f] the outcome of the refresh that follows a success, [now] and
    [later] the two clock readings. *)
Definition submitFeedbackData (tripId activityId : Val)
    (feedback : gmap string Val) (now later : Z) (t : Transport) (f : Fetched)
    (st : HookState) : Submitted * HookState :=
  if negb (truthy tripId) || negb (truthy activityId) then
    (SubmitThrew "Trip ID and Activity ID are required to submit feedback", st)
  else
    let result := submitFeedback t in
    if success result then
      let stored :=
        <["id" := prop (data result) "id"]>
        (<["submittedAt" := VNum (Fin (inject_Z now))]>
        (feedback ∪ {[ "activityId"%string := activityId ]})) in
      let st1 := mkHookState (feedbackData st) (Some stored)
                   (isLoading st) (error st) in
      (SubmitReturned (data result),
       fetchFeedbackData tripId activityId later f st1)
    else
      (SubmitThrew
         (app_error_message
            (match message result with
             | Some m => if truthy (VStr m) then m
                         else "Failed to submit feedback"
             | None => "Failed to submit feedback"
             end)),
       st).

(** One submission together with what the environment answered. *)
Record Exchange : Type := mkExchange {
  x_feedback : gmap string Val;
  x_now : Z;
  x_later : Z;
  x_post : Transport;
  x_refresh : Fetched
}.


Definition step (tripId activityId : Val) (st : HookState) (x : Exchange)
  : HookState :=
  snd (submitFeedbackData tripId activityId (x_feedback x) (x_now x)
         (x_later x) (x_post x) (x_refresh x) st).

Definition run (tripId activityId : Val) (xs : list Exchange) (st : HookState)
  : HookState :=
  fold_left (step tripId activityId) xs st.






End UseFeedback.

(** ** The useWebSocket hook: incoming messages *)

Module UseWebSocket.

Record Participant : Type := mkParticipant {
  user_id : Val;
  username : Val;
  connected : bool
}.

Record Activity : Type := mkActivity {
  activity_id : Val;
  status : Val
}.

Record FeedbackItem : Type := mkFeedbackItem {
  fb_user_id : Val;
  fb_username : Val;
  feedback_preview : Val;
  timestamp : Val
}.

(** A parsed message, by its [type]; only the fields the handler reads. *)
Inductive Message : Type :=
| connection_established
| initial_data (current_activity : option Activity)
    (recent_feedback : option (list FeedbackItem))
    (active_participants : option (list Participant))
| participant_joined (user_id username : Val)
| participant_left (user_id : Val)
| feedback_received (user_id preview timestamp : Val)
| activity_status_updated (activity_id new_status : Val)
| admin_decision_made
| pong
| error_message
| unknown.

Record State : Type := mkState {
  lastMessage : option Message;
  connectionStatus : string;
  currentActivity : option Activity;
  recentFeedback : list FeedbackItem;
  participants : list Participant
}.

(** The updater passed to [setParticipants] on [participant_joined]. *)
Definition join (uid uname : Val) (prev : list Participant) : list Participant :=
  match List.find (fun p => strict_eq (user_id p) uid) prev with
  | Some _ => prev
  | None => prev ++ [mkParticipant uid uname true]
  end.

(** [handleMessage(message)] as [socket.onmessage] calls it.  The socket's
    handlers are set inside [connect], which is memoised on the trip, user
    and name: for a hook mounted with these fixed, the [handleMessage] they
    call is the one of the first render, and the [currentActivity] it reads
    in the status branch is that render's [null], whose [activity_id] reads
    as [undefined].  The state updaters act on the current state. *)
Definition handleMessage (message : Message) (st : State) : State :=
  let st := mkState (Some message) (connectionStatus st) (currentActivity st)
              (recentFeedback st) (participants st) in
  match message with
  | connection_established =>
      mkState (lastMessage st) "connected" (currentActivity st)
        (recentFeedback st) (participants st)
  | initial_data a r p =>
      mkState (lastMessage st) (connectionStatus st) a
        (default [] r) (default [] p)
  | participant_joined uid uname =>
      mkState (lastMessage st) (connectionStatus st) (currentActivity st)
        (recentFeedback st) (join uid uname (participants st))
  | participant_left uid =>
      mkState (lastMessage st) (connectionStatus st) (currentActivity st)
        (recentFeedback st)
        (List.filter (fun p => negb (strict_eq (user_id p) uid)) (participants st))
  | feedback_received uid preview ts =>
      if truthy preview then
        mkState (lastMessage st) (connectionStatus st) (currentActivity st)
          (mkFeedbackItem uid (VStr "Current User") preview ts
           :: take 9 (recentFeedback st))
          (participants st)
      else st
  | activity_status_updated aid new_status =>
      let seen_id := VUndefined in
      if strict_eq aid seen_id then
        mkState (lastMessage st) (connectionStatus st)
          (Some (mkActivity
                   (match currentActivity st with
                    | Some a => activity_id a
                    | None => VUndefined
                    end)
                   new_status))
          (recentFeedback st) (participants st)
      else st
  | admin_decision_made | pong | error_message | unknown => st
  end.

End UseWebSocket.

(** ** RealTimeMonitoring: alerts raised from feedback *)

Module RealTimeMonitoring.

(** An alert; [id] is the clock reading [Date.now()] at which it was
    added, which also stands for its [timestamp]. *)
Record Alert : Type := mkAlert {
  id : Z;
  type : string;
  title : string;
  message : option string;
  priority : string
}.

(** [addAlert(title, type, message)] at clock reading [now]: the updater
    keeps the new alert and nine earlier ones. *)
Definition addAlert (now : Z) (title type : string) (message : option string)
    (prev : list Alert) : list Alert :=
  mkAlert now type title message
    (if String.eqb type "critical" then "high"
     else if String.eqb type "warning" then "medium" else "low")
  :: take 9 prev.

Record FatigueAnalysis : Type := mkFatigue {
  overall_score : Q;
  level : string
}.

Record Scores : Type := mkScores {
  sick : Num;
  hungry : Num;
  tired : Num
}.

Record Feedback : Type := mkFeedback {
  fatigue_analysis : option FatigueAnalysis;
  average_scores : option Scores
}.

(** [x.toFixed(1)]: one decimal, the nearer tenth, halves going up. *)
Definition toFixed1 (x : Q) : string :=
  let n := math_round (x * 10) in
  let a := Z.abs n in
  ((if (n <? 0)%Z then "-" else "")
   ++ pretty (a / 10)%Z ++ "." ++ pretty (a mod 10)%Z)%string.

Definition fatigue_title (tier : string) (fa : FatigueAnalysis) : string :=
  (tier ++ ": Group fatigue level is " ++ level fa
   ++ " (" ++ toFixed1 (overall_score fa) ++ "%)")%string.

(** The alert on the overall score, if any. *)
Definition overall_alert (now : Z) (fa : FatigueAnalysis)
    (alerts : list Alert) : list Alert :=
  if Qlt_bool 75 (overall_score fa) then
    addAlert now (fatigue_title "CRITICAL" fa) "critical"
      (Some "Immediate intervention required - consider ending current activity or pivot"%string)
      alerts
  else if Qlt_bool 60 (overall_score fa) then
    addAlert now (fatigue_title "HIGH" fa) "warning"
      (Some "Consider AI optimization or activity pivot"%string) alerts
  else alerts.

Definition category_alerts (now : Z) (s : Scores) (alerts : list Alert)
  : list Alert :=
  let alerts :=
    if num_lt (sick s) (Fin 3) then
      addAlert now "Health Alert" "critical"
        (Some "Participants reporting feeling sick - consider medical check"%string)
        alerts
    else alerts in
  let alerts :=
    if num_gt (hungry s) (Fin 4) then
      addAlert now "Hunger Alert" "warning"
        (Some "Participants are very hungry - schedule food break"%string) alerts
    else alerts in
  if num_gt (tired s) (Fin 4) then
    addAlert now "Fatigue Alert" "warning"
      (Some "Participants are very tired - consider rest activity"%string) alerts
  else alerts.

(** [analyzeFeedbackForAlerts(feedbackData)]; [None] is a null response.
    The boolean tells whether the call threw, which it does after the
    overall alert when [average_scores] is missing. *)
Definition analyzeFeedbackForAlerts (now : Z) (feedbackData : option Feedback)
    (alerts : list Alert) : list Alert * bool :=
  match feedbackData with
  | None => (alerts, false)
  | Some fd =>
      match fatigue_analysis fd with
      | None => (alerts, false)
      | Some fa =>
          let alerts := overall_alert now fa alerts in
          match average_scores fd with
          | Some s => (category_alerts now s alerts, false)
          | None => (alerts, true)
          end
      end
  end.

(** The monitor over a sequence of fetched snapshots, each with its clock
    reading. *)
Definition monitor (fetched : list (Z * option Feedback)) (alerts : list Alert)
  : list Alert :=
  fold_left (fun alerts '(now, fd) => fst (analyzeFeedbackForAlerts now fd alerts))
    fetched alerts.

(** The alerts in the list that report the overall tier. *)
Definition risk_alerts (alerts : list Alert) : list Alert :=
  List.filter
    (fun a => String.prefix "CRITICAL: " (title a) || String.prefix "HIGH: " (title a))
    alerts.

End RealTimeMonitoring.

(** ** ActivityFeedback: the level shown beside a slider *)

Module FeedbackForm.

(** [getSeverityLevel(value).level]. *)
Definition getSeverityLevel (value : Num) : string :=
  if num_le value (Fin 2) then "Low"
  else if num_le value (Fin 4) then "Moderate"
  else if num_le value (Fin 6) then "Medium"
  else if num_le value (Fin 8) then "High"
  else "Critical".

End FeedbackForm.

(** ** VotingInterface: status line and the modal's success handler *)

Module VotingStatus.

Import FeedbackApi ErrorHandling.

(** The four objects [getStatusMessage()] can return, by their [type] and
    message. *)
Inductive StatusMessage : Type :=
| submitted
| complete
| waiting_progress (responded total : nat) (rate : Num)
| waiting_first.

Definition getStatusMessage (hasSubmitted : bool)
    (participantCount respondedParticipants : nat) : StatusMessage :=
  if hasSubmitted then submitted
  else
    let responseRate := getResponseRate participantCount respondedParticipants in
    if strict_eq (VNum responseRate) (VNum (Fin 100)) then complete
    else if num_gt responseRate (Fin 0) then
      waiting_progress respondedParticipants participantCount responseRate
    else waiting_first.

Record SubmitStatus : Type := mkSubmitStatus {
  type : string;
  message : string;
  recoveryMessage : option string
}.

Record State : Type := mkState {
  isSubmitting : bool;
  hasSubmitted : bool;
  showFeedbackModal : bool;
  submitStatus : option SubmitStatus
}.



End VotingStatus.

(** The five values of a form pass the range test of validateFeedbackData. *)
Definition form_values_ok (feedback : gmap string Val) : bool :=
  forallb (fun c => negb (FeedbackApi.rejected_value (prop feedback c)))
    FeedbackApi.categories.

(** ** FeedbackDashboard: its own overall risk level *)

Module FeedbackDashboard.

(** [riskWeights[sev] || 3] for the [severity] read off an entry, which may
    be [undefined]. *)
Definition weight_of_severity (sev : option string) : option Q :=
  match sev with
  | Some s => weight_of s
  | None => Some 3
  end.

(** The dashboard's [getOverallRiskLevel().level].  Its state holds an entry
    for each of the five categories; [None] stands for the TypeError a
    missing entry would raise.  Unlike the hook's version it keeps every
    severity, truthy or not. *)
Definition getOverallRiskLevel (feedbackData : gmap string Entry)
  : option string :=
  match mapM (fun cat => feedbackData !! cat)
          ["tired"; "energetic"; "sick"; "hungry"; "adventurous"]%string with
  | None => None
  | Some entries =>
      let severities := severity <$> entries in
      let avgRisk :=
        match fold_left
                (fun sum sev =>
                   match sum, weight_of_severity sev with
                   | Some a, Some w => Some (a + w)
                   | _, _ => None
                   end)
                severities (Some 0) with
        | Some sum => Fin (sum / inject_Z (Z.of_nat (length severities)))
        | None => NaN
        end in
      Some (if num_ge avgRisk (Fin (45 # 10)) then "CRITICAL"
            else if num_ge avgRisk (Fin (35 # 10)) then "HIGH"
            else if num_ge avgRisk (Fin (25 # 10)) then "MODERATE"
            else if num_ge avgRisk (Fin (15 # 10)) then "LOW"
            else "EXCELLENT")%string
  end.

End FeedbackDashboard.

(** The number of CRITICAL tiers in a list. *)
Definition critical_count (tiers : list Severity) : nat :=
  length (List.filter (fun t => (severity_value t =? 5)%Z) tiers).

(** The category has an entry whose severity is a non-empty string. *)
Definition has_severity (feedbackData : gmap string Entry) (cat s : string)
  : Prop :=
  exists data, feedbackData !! cat = Some data /\ severity data = Some s
               /\ s <> ""%string.

(** ** errorHandling.js: error classes *)

Module ErrorClasses.

(** [ERROR_TYPES]. *)
Inductive ErrorType : Type :=
| NETWORK | AUTHENTICATION | AUTHORIZATION | VALIDATION | SERVER | UNKNOWN.

(** [ERROR_SEVERITY]. *)
Inductive ErrorSeverity : Type := LOW | MEDIUM | HIGH | CRITICAL.

(** An [AppError]; of its [details] only the [status] is ever read. *)
Record AppError : Type := mkAppError {
  name : string;
  message : string;
  type : ErrorType;
  severity : ErrorSeverity;
  details_status : option Z
}.

(** [createErrorFromResponse(response, responseData)]. *)
Definition createErrorFromResponse (status : Z) (statusText : string)
    (responseMessage : option string) : AppError :=
  let message :=
    match responseMessage with
    | Some m => if truthy (VStr m) then m
                else if truthy (VStr statusText) then statusText
                else "An error occurred"
    | None => if truthy (VStr statusText) then statusText
              else "An error occurred"
    end%string in
  if (status =? 401)%Z then
    mkAppError "AuthenticationError" message AUTHENTICATION HIGH (Some status)
  else if (status =? 403)%Z then
    mkAppError "AuthorizationError" message AUTHORIZATION HIGH (Some status)
  else if ((400 <=? status) && (status <? 500))%Z then
    mkAppError "ValidationError" message VALIDATION MEDIUM (Some status)
  else if (500 <=? status)%Z then
    mkAppError "ServerError" message SERVER HIGH (Some status)
  else
    mkAppError "AppError" message UNKNOWN MEDIUM (Some status).

(** [s.includes(sub)]. *)
Fixpoint includes (sub s : string) : bool :=
  String.prefix sub s
  || match s with
     | EmptyString => false
     | String _ rest => includes sub rest
     end.

(** A caught value: an [AppError]; [undefined] or [null]; a primitive such
    as a thrown string or number, whose [name] and [message] read as
    [undefined]; or another error object, with its [name] and [message]
    strings. *)
Inductive Thrown : Type :=
| IsAppError (e : AppError)
| Nullish
| Primitive
| Other (name message : string).

(** [handleApiError(error)] with the default fallback message.  Reading
    [error.name] on [undefined] or [null] throws a TypeError: the result
    is then [None]. *)
Definition handleApiError (error : Thrown) : option AppError :=
  match error with
  | IsAppError e => Some e
  | Nullish => None
  | Primitive =>
      Some (mkAppError "AppError" "An unexpected error occurred" UNKNOWN MEDIUM None)
  | Other name message =>
      if String.eqb name "TypeError" && includes "fetch" message then
        Some (mkAppError "NetworkError"
                "Network connection failed. Please check your internet connection."
                NETWORK HIGH None)
      else
        Some (mkAppError "AppError"
                (if truthy (VStr message) then message
                 else "An unexpected error occurred"%string)
                UNKNOWN MEDIUM None)
  end.

Definition getErrorRecoveryMessage (error : AppError) : string :=
  match type error with
  | NETWORK => "Please check your internet connection and try again."
  | AUTHENTICATION => "Please log in again to continue."
  | AUTHORIZATION => "You don't have permission to perform this action."
  | VALIDATION => "Please check your input and try again."
  | SERVER => "Server is temporarily unavailable. Please try again later."
  | UNKNOWN => "Something went wrong. Please try again."
  end.

Definition isRetriableError (error : AppError) : bool :=
  match type error with
  | NETWORK => true
  | SERVER =>
      match details_status error with
      | Some status => (500 <=? status)%Z
      | None => false
      end
  | _ => false
  end.

Definition shouldShowNotification (error : AppError) : bool :=
  match type error with
  | AUTHENTICATION => false
  | _ => true
  end.

Record Handled : Type := mkHandled {
  error : AppError;
  recoveryMessage : string;
  isRetriable : bool
}.

(** [defaultErrorHandler(error)]; [None] when [handleApiError] throws. *)
Definition defaultErrorHandler (error : Thrown) : option Handled :=
  appError ← match error with
             | IsAppError e => Some e
             | _ => handleApiError error
             end;
  Some (mkHandled appError (getErrorRecoveryMessage appError)
          (isRetriableError appError)).

End ErrorClasses.

(** The delay [retryWithBackoff] sleeps after failed attempt number
    [attempt], drawing the jitter from the [draw]-th random value. *)
Definition backoff_delay (random : nat -> Q) (baseDelay : Q)
    (attempt draw : nat) : Q :=
  Double.rnd
    (Double.rnd (baseDelay * inject_Z (2 ^ Z.of_nat (attempt - 1)))
     + Double.rnd (random draw * 1000)).

(** ** useWebSocket: the participant list and reconnection *)

Module Room.

Import UseWebSocket.

(** No two entries of the list have strictly equal user ids. *)
Fixpoint distinct_ids (l : list Participant) : bool :=
  match l with
  | [] => true
  | p :: rest =>
      forallb (fun q => negb (strict_eq (user_id p) (user_id q))) rest
      && distinct_ids rest
  end.

Definition listed (uid : Val) (l : list Participant) : bool :=
  existsb (fun p => strict_eq (user_id p) uid) l.

Definition is_initial_data (m : Message) : bool :=
  match m with initial_data _ _ _ => true | _ => false end.

End Room.

Module Reconnect.

Definition MAX_RECONNECT_ATTEMPTS : nat := 5.
Definition RECONNECT_DELAY : Z := 2000.

(** The connection side of the hook: the two status states, the attempts
    counter kept in a ref, whether the heartbeat interval runs, and the
    delays of the reconnect timers set so far. *)
Record Conn : Type := mkConn {
  isConnected : bool;
  connectionStatus : string;
  reconnectAttempts : nat;
  heartbeat : bool;
  scheduled : list Z
}.

Definition scheduleReconnect (c : Conn) : Conn :=
  if (MAX_RECONNECT_ATTEMPTS <=? reconnectAttempts c)%nat then
    mkConn (isConnected c) "failed" (reconnectAttempts c) (heartbeat c)
      (scheduled c)
  else
    let n := Datatypes.S (reconnectAttempts c) in
    mkConn (isConnected c)
      ("reconnecting (" ++ pretty n ++ "/" ++ pretty MAX_RECONNECT_ATTEMPTS ++ ")")
      n (heartbeat c)
      (scheduled c ++ [(RECONNECT_DELAY * Z.of_nat n)%Z]).

(** What happens to the connection: [connect()] creating the socket or
    failing to, and the socket's [onopen], [onclose] and [onerror]. *)
Inductive Event : Type :=
| connect_created
| connect_threw
| opened
| closed (code : Z)
| errored.

Definition step (c : Conn) (e : Event) : Conn :=
  match e with
  | connect_created =>
      mkConn (isConnected c) "connecting" (reconnectAttempts c) (heartbeat c)
        (scheduled c)
  | connect_threw =>
      scheduleReconnect
        (mkConn (isConnected c) "error" (reconnectAttempts c) (heartbeat c)
           (scheduled c))
  | opened => mkConn true "connected" 0 true (scheduled c)
  | closed code =>
      let c' := mkConn false "disconnected" (reconnectAttempts c) false
                  (scheduled c) in
      if negb (code =? 1000)%Z
         && (reconnectAttempts c <? MAX_RECONNECT_ATTEMPTS)%nat
      then scheduleReconnect c' else c'
  | errored =>
      mkConn (isConnected c) "error" (reconnectAttempts c) (heartbeat c)
        (scheduled c)
  end.

Definition run (events : list Event) (c : Conn) : Conn := fold_left step events c.

Definition initial : Conn := mkConn false "disconnected" 0 false [].

(** The attempts counter is within its maximum, and every reconnect was
    scheduled between 2 and 10 seconds out. *)
Definition within_limits (c : Conn) : Prop :=
  (reconnectAttempts c <= MAX_RECONNECT_ATTEMPTS)%nat
  /\ Forall (fun d => (2000 <= d <= 10000)%Z) (scheduled c).

End Reconnect.

(** ** feedbackUtils.js: recommendations *)

Module Recommendations.

Record Issue : Type := mkIssue {
  issue_category : string;
  issue_severity : string;
  value : option Num;
  issue_message : string;
  issue_priority : string
}.

Record Recommendation : Type := mkRecommendation {
  type : string;
  priority : string;
  message : string;
  category : string
}.

Record Summary : Type := mkSummary {
  totalIssues : nat;
  criticalIssues : nat;
  highIssues : nat;
  requiresAttention : bool
}.

Record Result : Type := mkResult {
  recommendations : list Recommendation;
  issues : list Issue;
  summary : Summary
}.

(** The [warningMessage] fields of [FEEDBACK_CATEGORIES]. *)
Definition warning_messages : gmap string string :=
  <["tired" := "High tiredness may affect group morale"]>
  (<["energetic" := "Low energy may require rest activities"]>
  (<["sick" := "Health concerns require immediate attention"]>
  (<["hungry" := "Hunger levels affecting trip enjoyment"]>
  (<["adventurous" := "Low adventurousness may need activity changes"]> ∅))))%string.

Definition lower (c : ascii) : ascii :=
  let n := nat_of_ascii c in
  if ((65 <=? n) && (n <=? 90))%nat then ascii_of_nat (n + 32) else c.

(** [s.toLowerCase()] on ASCII text. *)
Fixpoint toLowerCase (s : string) : string :=
  match s with
  | EmptyString => EmptyString
  | String c rest => String (lower c) (toLowerCase rest)
  end.

(** The recommendation the [switch] pushes for a critical category. *)
Definition critical_recommendation (categoryKey : string)
  : list Recommendation :=
  if String.eqb categoryKey "tired" then
    [mkRecommendation "rest" "high"
       "Consider scheduling a rest break or less strenuous activity"
       "activity_modification"]
  else if String.eqb categoryKey "hungry" then
    [mkRecommendation "food" "high"
       "Find nearby dining options or plan a meal stop" "logistics"]
  else if String.eqb categoryKey "sick" then
    [mkRecommendation "medical" "critical"
       "Consider medical assistance or comfortable rest area" "health_safety"]
  else if String.eqb categoryKey "energetic"
          || String.eqb categoryKey "adventurous" then
    [mkRecommendation "activity" "medium"
       "Consider more stimulating or physically engaging activities"
       "activity_modification"]
  else [].

(** The body of the [forEach]; the accumulator is
    [(recommendations, issues)]. *)
Definition recommend_step (feedbackData : gmap string Entry)
    (acc : list Recommendation * list Issue) (categoryKey : string)
  : list Recommendation * list Issue :=
  let '(recommendations, issues) := acc in
  match feedbackData !! categoryKey with
  | Some data =>
      match severity data with
      | Some sev =>
          if truthy (VStr sev) then
            if String.eqb sev "CRITICAL" then
              (recommendations ++ critical_recommendation categoryKey,
               issues ++ [mkIssue categoryKey sev (average data)
                            (default ""%string (warning_messages !! categoryKey))
                            "critical"])
            else if String.eqb sev "HIGH" then
              (recommendations
               ++ [mkRecommendation "monitoring" "medium"
                     ("Monitor "
                      ++ toLowerCase
                           (match FEEDBACK_CATEGORIES !! categoryKey with
                            | Some c => label c
                            | None => ""
                            end)
                      ++ " levels closely")
                     "monitoring"],
               issues)
            else acc
          else acc
      | None => acc
      end
  | None => acc
  end.

Definition count_priority (p : string) (issues : list Issue) : nat :=
  length (List.filter (fun i => String.eqb (issue_priority i) p) issues).

Definition plural (n : nat) : string := if (1 <? n)%nat then "s" else "".

Definition generateRecommendations (feedbackData : gmap string Entry)
    (participantCount : nat) : Result :=
  let '(recommendations, issues) :=
    fold_left (recommend_step feedbackData)
      ["tired"; "energetic"; "sick"; "hungry"; "adventurous"]%string ([], []) in
  let recommendations :=
    if (0 <? participantCount)%nat then
      let criticalIssues := count_priority "critical" issues in
      let highIssues := count_priority "high" issues in
      if (0 <? criticalIssues)%nat then
        mkRecommendation "emergency" "critical"
          ("Address " ++ pretty criticalIssues ++ " critical issue"
           ++ plural criticalIssues ++ " immediately")
          "immediate_action"
        :: recommendations
      else if (0 <? highIssues)%nat then
        mkRecommendation "intervention" "high"
          ("Consider intervention for " ++ pretty highIssues
           ++ " high-priority issue" ++ plural highIssues)
          "preventive_action"
        :: recommendations
      else recommendations
    else recommendations in
  mkResult recommendations issues
    (mkSummary (length issues) (count_priority "critical" issues)
       (count_priority "high" issues)
       (existsb (fun i => String.eqb (issue_priority i) "critical"
                          || String.eqb (issue_priority i) "high") issues)).

(** The categories of the snapshot whose severity is CRITICAL. *)
Definition critical_categories (feedbackData : gmap string Entry)
  : list string :=
  List.filter
    (fun k => match severity_of feedbackData k with
              | Some sev => String.eqb sev "CRITICAL"
              | None => false
              end)
    ["tired"; "energetic"; "sick"; "hungry"; "adventurous"]%string.

(** The test [critical_categories] filters by. *)
Definition is_critical (feedbackData : gmap string Entry) (k : string) : bool :=
  match severity_of feedbackData k with
  | Some sev => String.eqb sev "CRITICAL"
  | None => false
  end.

(** A recommendation pushed for one category, as opposed to the two that
    are put in front for the whole trip. *)
Definition per_category (r : Recommendation) : Prop :=
  type r <> "emergency"%string /\ type r <> "intervention"%string.

End Recommendations.

(** ** feedbackUtils.js: data integrity *)

Module Integrity.

(** The messages of [validateFeedbackData], by kind; the texts also spell
    out the category, and for two kinds the type or the value. *)
Inductive Problem : Type :=
| no_data
| missing_value (category : string)
| invalid_type (category : string)
| out_of_range (category : string) (value : Num)
| all_identical
| all_extreme.

Record Score : Type := mkScore {
  completeness : Q;
  consistency : Q
}.

Record Validation : Type := mkValidation {
  isValid : bool;
  errors : list Problem;
  warnings : list Problem;
  score : option Score
}.

Definition categories : list string :=
  ["tired"; "energetic"; "sick"; "hungry"; "adventurous"]%string.

(** The body of the [forEach]; the accumulator is [(errors, warnings)]. *)
Definition check_category (data : gmap string Val)
    (acc : list Problem * list Problem) (categoryKey : string)
  : list Problem * list Problem :=
  let '(errors, warnings) := acc in
  match prop data categoryKey with
  | VUndefined | VNull => (errors ++ [missing_value categoryKey], warnings)
  | VNum n =>
      if num_lt n (Fin 1) || num_gt n (Fin 10)
      then (errors, warnings ++ [out_of_range categoryKey n])
      else acc
  | _ => (errors ++ [invalid_type categoryKey], warnings)
  end.

Definition is_extreme (v : Val) : bool :=
  strict_eq v (VNum (Fin 1)) || strict_eq v (VNum (Fin 10)).

(** [validateFeedbackData(data)]; [None] is a null argument. *)
Definition validateFeedbackData (data : option (gmap string Val)) : Validation :=
  match data with
  | None => mkValidation false [no_data] [] None
  | Some data =>
      let '(errors, warnings) := fold_left (check_category data) categories ([], []) in
      let warnings :=
        if forallb (fun cat => strict_eq (prop data cat) (prop data "tired"))
             categories
        then warnings ++ [all_identical] else warnings in
      let suspicious :=
        length (List.filter (fun cat => is_extreme (prop data cat)) categories) in
      let warnings :=
        if (suspicious =? length categories)%nat
        then warnings ++ [all_extreme] else warnings in
      mkValidation (length errors =? 0)%nat errors warnings
        (Some (mkScore
                 (inject_Z (Z.of_nat (length categories) - Z.of_nat (length errors))
                  / inject_Z (Z.of_nat (length categories)) * 100)
                 (if (length warnings =? 0)%nat then 100
                  else Qmax 0 (100 - inject_Z (Z.of_nat (length warnings)) * 25))))
  end.

End Integrity.

(** ** feedbackUtils.js: the trend of one category *)

Module Trends.

Import JsArith.

Definition num_abs (a : Num) : Num :=
  match a with
  | Fin p => Fin (Qabs p)
  | NaN => NaN
  | _ => PosInf
  end.

Definition of_nat (i : nat) : Num := Fin (inject_Z (Z.of_nat i)).

(** [y[i]]; an index past the end reads [undefined], which the product
    turns into NaN. *)
Definition at_index (y : list Num) (i : nat) : Num := default NaN (y !! i).

Record Trend : Type := mkTrend {
  trend : string;
  slope : Num;
  current : Num;
  previous : Num;
  change : Num;
  dataPoints : nat
}.

(** The regression slope of the values against their positions 0, 1, ... *)
Definition regression_slope (values : list Num) : Num :=
  let n := length values in
  let x := seq 0 n in
  let y := values in
  let sumX := fold_left (fun a b => num_add a (of_nat b)) x (Fin 0) in
  let sumY := fold_left (fun a b => num_add a b) y (Fin 0) in
  let sumXY :=
    fold_left (fun sum xi => num_add sum (num_mul (of_nat xi) (at_index y xi)))
      x (Fin 0) in
  let sumXX :=
    fold_left (fun sum xi => num_add sum (num_mul (of_nat xi) (of_nat xi)))
      x (Fin 0) in
  num_div
    (num_sub (num_mul (of_nat n) sumXY) (num_mul sumX sumY))
    (num_sub (num_mul (of_nat n) sumXX) (num_mul sumX sumX)).

(** What [analyzeFeedbackTrends] stores for a category from the numeric
    values found for it, oldest first; nothing when there are fewer than
    two. *)
Definition category_trend (values : list Num) : option Trend :=
  if (2 <=? length values)%nat then
    let n := length values in
    let slope := regression_slope values in
    let trend :=
      if num_gt (num_abs slope) (Fin (1 # 10)) then
        (if num_gt slope (Fin 0) then "improving" else "declining")
      else "stable" in
    Some (mkTrend trend slope
            (at_index values (n - 1)) (at_index values (n - 2))
            (num_sub (at_index values (n - 1)) (at_index values (n - 2)))
            n)
  else None.

(** A series that starts at [a] and changes by [b] at every step. *)
Definition steady (a b : Q) (n : nat) : list Num :=
  (fun i => Fin (a + b * inject_Z (Z.of_nat i))) <$> seq 0 n.

(** The sum of [g i] over [i < n], added up from the left. *)
Definition sum_to (g : nat -> Q) (n : nat) : Q :=
  fold_left (fun acc i => acc + g i) (seq 0 n) 0.

(** The regression as the code runs it: every sum, product and difference
    and the quotient are rounded to a double. *)
Definition regression_slope_double (values : list Num) : Num :=
  let n := length values in
  let x := seq 0 n in
  let y := values in
  let sumX := fold_left (fun a b => Double.add a (of_nat b)) x (Fin 0) in
  let sumY := fold_left (fun a b => Double.add a b) y (Fin 0) in
  let sumXY :=
    fold_left
      (fun sum xi => Double.add sum (Double.mul (of_nat xi) (at_index y xi)))
      x (Fin 0) in
  let sumXX :=
    fold_left (fun sum xi => Double.add sum (Double.mul (of_nat xi) (of_nat xi)))
      x (Fin 0) in
  Double.div
    (Double.sub (Double.mul (of_nat n) sumXY) (Double.mul sumX sumY))
    (Double.sub (Double.mul (of_nat n) sumXX) (Double.mul sumX sumX)).

Definition category_trend_double (values : list Num) : option Trend :=
  if (2 <=? length values)%nat then
    let n := length values in
    let slope := regression_slope_double values in
    let trend :=
      if num_gt (num_abs slope) (Fin (1 # 10)) then
        (if num_gt slope (Fin 0) then "improving" else "declining")
      else "stable" in
    Some (mkTrend trend slope
            (at_index values (n - 1)) (at_index values (n - 2))
            (Double.sub (at_index values (n - 1)) (at_index values (n - 2)))
            n)
  else None.

(** The sum of [g i] over [i < n] in the integers. *)
Fixpoint zsum_to (g : nat -> Z) (n : nat) : Z :=
  match n with
  | O => 0%Z
  | Datatypes.S k => (zsum_to g k + g k)%Z
  end.

(** The number is the whole number [z]. *)
Definition is_int (a : Num) (z : Z) : Prop :=
  exists q, a = Fin q /\ q == inject_Z z.

End Trends.

(** * Properties *)

Import FeedbackApi ErrorHandling.

(** ** Comparisons on rationals *)

Lemma Qle_bool_false (p q : Q) : Qle_bool p q = false <-> q < p.
Proof.
  split; intros H.
  - apply Qnot_le_lt. intros Hle. apply Qle_bool_iff in Hle. congruence.
  - destruct (Qle_bool p q) eqn:E; [|reflexivity].
    apply Qle_bool_iff in E. exfalso. apply (Qlt_not_le _ _ H E).
Qed.

Lemma Qlt_bool_iff (p q : Q) : Qlt_bool p q = true <-> p < q.
Proof.
  unfold Qlt_bool. rewrite Bool.negb_true_iff. apply Qle_bool_false.
Qed.

Lemma Qlt_bool_false (p q : Q) : Qlt_bool p q = false <-> q <= p.
Proof.
  unfold Qlt_bool. rewrite Bool.negb_false_iff. apply Qle_bool_iff.
Qed.

(** ** Double-precision rounding *)

(* Double.pow2 *)
Lemma pow2_pos (e : Z) : 0 < Double.pow2 e.
Proof. apply Qpower_0_lt. reflexivity. Qed.

Lemma pow2_plus (a b : Z) : Double.pow2 (a + b) == Double.pow2 a * Double.pow2 b.
Proof. apply Qpower_plus. discriminate. Qed.

Lemma pow2_le (a b : Z) : (a <= b)%Z -> Double.pow2 a <= Double.pow2 b.
Proof. intros H. apply Qpower_le_compat_l; [exact H | discriminate]. Qed.

Lemma pow2_lt (a b : Z) : (a < b)%Z -> Double.pow2 a < Double.pow2 b.
Proof. intros H. apply Qpower_lt_compat_l; [exact H | reflexivity]. Qed.

Lemma pow2_Z (e : Z) : (0 <= e)%Z -> Double.pow2 e == inject_Z (2 ^ e).
Proof. intros H. unfold Double.pow2. rewrite Zpower_Qpower by exact H. reflexivity. Qed.

Lemma pow2_inv (e : Z) : Double.pow2 (- e) * Double.pow2 e == 1.
Proof. rewrite <- pow2_plus. replace (- e + e)%Z with 0%Z by lia. reflexivity. Qed.

Lemma pow2_div (x : Q) (e : Z) : x / Double.pow2 e == x * Double.pow2 (- e).
Proof.
  pose proof (pow2_pos e) as H. pose proof (pow2_inv e) as Hi.
  apply (Qmult_inj_r _ _ (Double.pow2 e)); [lra|].
  rewrite Qmult_comm, Qmult_div_r by lra.
  rewrite <- Qmult_assoc, Hi. ring.
Qed.

(* Double.round_half_even *)
Lemma round_half_even_comp (x y : Q) : x == y -> Double.round_half_even x = Double.round_half_even y.
Proof.
  intros H. unfold Double.round_half_even. rewrite (Qfloor_comp x y H).
  assert (E : x - inject_Z (Qfloor y) == y - inject_Z (Qfloor y)) by (rewrite H; reflexivity).
  rewrite (Qcompare_comp _ _ E (1#2) (1#2) (Qeq_refl _)). reflexivity.
Qed.

Lemma Qfloor_bounds (x : Q) : inject_Z (Qfloor x) <= x < inject_Z (Qfloor x) + 1.
Proof.
  split; [apply Qfloor_le|].
  pose proof (Qlt_floor x) as H. rewrite inject_Z_plus in H. exact H.
Qed.

Lemma round_half_even_err (x : Q) :
  x - (1 # 2) <= inject_Z (Double.round_half_even x) <= x + (1 # 2).
Proof.
  unfold Double.round_half_even. pose proof (Qfloor_bounds x) as [H1 H2].
  destruct (Qcompare_spec (x - inject_Z (Qfloor x)) (1 # 2)) as [E|E|E].
  - destruct (Z.even (Qfloor x)); [|rewrite inject_Z_plus; change (inject_Z 1) with 1]; lra.
  - lra.
  - rewrite inject_Z_plus; change (inject_Z 1) with 1; lra.
Qed.

Lemma round_half_even_Z (z : Z) : Double.round_half_even (inject_Z z) = z.
Proof.
  unfold Double.round_half_even. rewrite Qfloor_Z.
  destruct (Qcompare_spec (inject_Z z - inject_Z z) (1 # 2)) as [E|E|E]; [lra | reflexivity | lra].
Qed.

Lemma round_half_even_range (x : Q) :
  (Qfloor x <= Double.round_half_even x <= Qfloor x + 1)%Z.
Proof.
  unfold Double.round_half_even.
  destruct (Qcompare (x - inject_Z (Qfloor x)) (1 # 2)); [destruct (Z.even _)| |]; lia.
Qed.

Lemma round_half_even_mono (x y : Q) :
  x <= y -> (Double.round_half_even x <= Double.round_half_even y)%Z.
Proof.
  intros H. pose proof (Qfloor_resp_le _ _ H) as Hf.
  destruct (Z.eq_dec (Qfloor x) (Qfloor y)) as [E|E].
  - unfold Double.round_half_even. rewrite E.
    destruct (Qcompare_spec (x - inject_Z (Qfloor y)) (1 # 2)) as [E1|E1|E1];
    destruct (Qcompare_spec (y - inject_Z (Qfloor y)) (1 # 2)) as [E2|E2|E2];
      try destruct (Z.even (Qfloor y)); try lia; lra.
  - pose proof (round_half_even_range x). pose proof (round_half_even_range y). lia.
Qed.

(* Double.floor_log2 *)
Lemma log2_bounds (n : Z) :
  (0 < n)%Z ->
  Double.pow2 (Z.log2 n) <= inject_Z n < Double.pow2 (Z.log2 n + 1).
Proof.
  intros Hn. pose proof (Z.log2_spec n Hn) as [H1 H2].
  pose proof (Z.log2_nonneg n) as H0.
  rewrite !pow2_Z by lia. unfold Z.succ in H2.
  split; [rewrite <- Zle_Qle | rewrite <- Zlt_Qlt]; assumption.
Qed.

Lemma floor_log2_spec (q : Q) :
  0 < q -> Double.pow2 (Double.floor_log2 q) <= q < Double.pow2 (Double.floor_log2 q + 1).
Proof.
  intros Hq. unfold Double.floor_log2.
  set (a := Z.log2 (Qnum q)). set (b := Z.log2 (Zpos (Qden q))).
  assert (Hn : (0 < Qnum q)%Z).
  { destruct q as [n d]. unfold Qlt in Hq. simpl in *. lia. }
  pose proof (log2_bounds (Qnum q) Hn) as [Ha1 Ha2].
  pose proof (log2_bounds (Zpos (Qden q)) eq_refl) as [Hb1 Hb2].
  fold a in Ha1, Ha2. fold b in Hb1, Hb2.
  assert (Hd : 0 < inject_Z (Zpos (Qden q))) by reflexivity.
  assert (Eq : q == inject_Z (Qnum q) / inject_Z (Zpos (Qden q))).
  { destruct q as [n d]. simpl. apply Qmake_Qdiv. }
  set (N := inject_Z (Qnum q)) in *. set (D := inject_Z (Zpos (Qden q))) in *.
  assert (EN : N == q * D).
  { rewrite Eq. field. lra. }
  destruct (Qle_bool (Double.pow2 (a - b)) q) eqn:E.
  - apply Qle_bool_iff in E. split; [exact E|].
    (* q < Double.pow2 (a - b + 1) *)
    replace (a - b + 1)%Z with ((a + 1) + - b)%Z by lia.
    rewrite pow2_plus.
    pose proof (pow2_inv b) as Hi. pose proof (pow2_pos (- b)) as Hp.
    pose proof (pow2_pos (a + 1)) as Hp1.
    assert (H1 : 1 <= Double.pow2 (- b) * D).
    { rewrite <- Hi. apply Qmult_le_l; [exact Hp | exact Hb1]. }
    apply (Qmult_lt_r _ _ D); [exact Hd|]. rewrite <- EN.
    eapply Qlt_le_trans; [exact Ha2|].
    rewrite <- Qmult_assoc.
    setoid_replace (Double.pow2 (a + 1)) with (Double.pow2 (a + 1) * 1) using relation Qeq at 1 by ring.
    apply Qmult_le_l; [exact Hp1 | exact H1].
  - apply Qle_bool_false in E.
    replace (a - b - 1 + 1)%Z with (a - b)%Z by lia. split; [|exact E].
    replace (a - b - 1)%Z with (a + - (b + 1))%Z by lia.
    rewrite pow2_plus.
    pose proof (pow2_inv (b + 1)) as Hi. pose proof (pow2_pos (- (b + 1))) as Hp.
    pose proof (pow2_pos a) as Hp1.
    assert (H1 : Double.pow2 (- (b + 1)) * D <= 1).
    { rewrite <- Hi. apply Qmult_le_l; [exact Hp | apply Qlt_le_weak; exact Hb2]. }
    apply (Qmult_le_r _ _ D); [exact Hd|]. rewrite <- EN.
    eapply Qle_trans; [|exact Ha1].
    rewrite <- Qmult_assoc.
    setoid_replace (Double.pow2 a) with (Double.pow2 a * 1) using relation Qeq at 2 by ring.
    apply Qmult_le_l; [exact Hp1 | exact H1].
Qed.

Lemma binade_unique (q : Q) (a b : Z) :
  Double.pow2 a <= q < Double.pow2 (a + 1) -> Double.pow2 b <= q < Double.pow2 (b + 1) -> a = b.
Proof.
  intros [Ha1 Ha2] [Hb1 Hb2].
  destruct (Z.lt_trichotomy a b) as [H|[H|H]]; [|exact H|].
  - pose proof (pow2_le (a + 1) b ltac:(lia)). lra.
  - pose proof (pow2_le (b + 1) a ltac:(lia)). lra.
Qed.

Lemma floor_log2_unique (q : Q) (a : Z) :
  Double.pow2 a <= q < Double.pow2 (a + 1) -> Double.floor_log2 q = a.
Proof.
  intros H. assert (Hq : 0 < q) by (pose proof (pow2_pos a); lra).
  apply (binade_unique q); [apply floor_log2_spec; exact Hq | exact H].
Qed.

Lemma floor_log2_comp (x y : Q) : 0 < x -> x == y -> Double.floor_log2 x = Double.floor_log2 y.
Proof.
  intros Hx E. apply floor_log2_unique. rewrite E.
  apply floor_log2_spec. rewrite <- E. exact Hx.
Qed.

Lemma floor_log2_mono (x y : Q) :
  0 < x -> x <= y -> (Double.floor_log2 x <= Double.floor_log2 y)%Z.
Proof.
  intros Hx Hxy.
  pose proof (floor_log2_spec x Hx) as [H1 H2].
  pose proof (floor_log2_spec y ltac:(lra)) as [H3 H4].
  destruct (Z_lt_le_dec (Double.floor_log2 y) (Double.floor_log2 x)) as [H|H]; [|exact H].
  pose proof (pow2_le (Double.floor_log2 y + 1) (Double.floor_log2 x) ltac:(lia)). lra.
Qed.

(* Double.rnd_pos *)
Lemma ulp_exp_comp (x y : Q) : 0 < x -> x == y -> Double.ulp_exp x = Double.ulp_exp y.
Proof. intros Hx E. unfold Double.ulp_exp. rewrite (floor_log2_comp x y Hx E). reflexivity. Qed.

Lemma ulp_exp_mono (x y : Q) : 0 < x -> x <= y -> (Double.ulp_exp x <= Double.ulp_exp y)%Z.
Proof. intros Hx H. unfold Double.ulp_exp. pose proof (floor_log2_mono x y Hx H). lia. Qed.

Lemma rnd_pos_comp (x y : Q) : 0 < x -> x == y -> Double.rnd_pos x == Double.rnd_pos y.
Proof.
  intros Hx E. unfold Double.rnd_pos. rewrite (ulp_exp_comp x y Hx E).
  rewrite (round_half_even_comp (x / Double.pow2 (Double.ulp_exp y)) (y / Double.pow2 (Double.ulp_exp y)))
    by (rewrite E; reflexivity).
  reflexivity.
Qed.

Lemma rnd_pos_err (q : Q) :
  q - Double.pow2 (Double.ulp_exp q) / 2 <= Double.rnd_pos q <= q + Double.pow2 (Double.ulp_exp q) / 2.
Proof.
  unfold Double.rnd_pos. set (g := Double.pow2 (Double.ulp_exp q)).
  assert (Hg : 0 < g) by apply pow2_pos.
  pose proof (round_half_even_err (q / g)) as [H1 H2].
  set (m := inject_Z (Double.round_half_even (q / g))) in *.
  assert (E : q == q / g * g) by (field; lra).
  split.
  - setoid_replace (q - g / 2) with ((q / g - (1 # 2)) * g) using relation Qeq by (field; lra).
    apply Qmult_le_compat_r; lra.
  - setoid_replace (q + g / 2) with ((q / g + (1 # 2)) * g) using relation Qeq by (field; lra).
    apply Qmult_le_compat_r; lra.
Qed.

Lemma scaled_below (q : Q) :
  0 < q -> q / Double.pow2 (Double.ulp_exp q) <= inject_Z (2 ^ 53).
Proof.
  intros Hq. pose proof (floor_log2_spec q Hq) as [_ H].
  set (e := Double.ulp_exp q). assert (He : (Double.floor_log2 q + 1 <= e + 53)%Z)
    by (unfold e, Double.ulp_exp; lia).
  pose proof (pow2_le _ _ He) as H1. rewrite (pow2_plus e 53) in H1.
  pose proof (pow2_pos e) as Hg.
  apply Qle_shift_div_r; [exact Hg|].
  rewrite <- (pow2_Z 53) by lia. rewrite (Qmult_comm (Double.pow2 53)). lra.
Qed.

Lemma scaled_above (q : Q) :
  0 < q -> Double.ulp_exp q = (Double.floor_log2 q - 52)%Z ->
  inject_Z (2 ^ 52) <= q / Double.pow2 (Double.ulp_exp q).
Proof.
  intros Hq He. pose proof (floor_log2_spec q Hq) as [H _].
  replace (Double.floor_log2 q) with (Double.ulp_exp q + 52)%Z in H by lia.
  rewrite pow2_plus in H. pose proof (pow2_pos (Double.ulp_exp q)) as Hg.
  apply Qle_shift_div_l; [exact Hg|].
  rewrite <- (pow2_Z 52) by lia. rewrite (Qmult_comm (Double.pow2 52)). exact H.
Qed.

Lemma rnd_pos_below (q : Q) : 0 < q -> Double.rnd_pos q <= Double.pow2 (Double.ulp_exp q + 53).
Proof.
  intros Hq. unfold Double.rnd_pos. rewrite pow2_plus, (Qmult_comm (Double.pow2 (Double.ulp_exp q))).
  apply Qmult_le_compat_r; [|apply Qlt_le_weak, pow2_pos].
  rewrite (pow2_Z 53) by lia. rewrite <- Zle_Qle.
  rewrite <- (round_half_even_Z (2 ^ 53)).
  apply round_half_even_mono, scaled_below, Hq.
Qed.

Lemma rnd_pos_above (q : Q) :
  0 < q -> Double.ulp_exp q = (Double.floor_log2 q - 52)%Z -> Double.pow2 (Double.ulp_exp q + 52) <= Double.rnd_pos q.
Proof.
  intros Hq He. unfold Double.rnd_pos. rewrite pow2_plus, (Qmult_comm (Double.pow2 (Double.ulp_exp q))).
  apply Qmult_le_compat_r; [|apply Qlt_le_weak, pow2_pos].
  rewrite (pow2_Z 52) by lia. rewrite <- Zle_Qle.
  rewrite <- (round_half_even_Z (2 ^ 52)).
  apply round_half_even_mono, scaled_above; assumption.
Qed.

Lemma rnd_pos_nonneg (q : Q) : 0 < q -> 0 <= Double.rnd_pos q.
Proof.
  intros Hq. unfold Double.rnd_pos. pose proof (pow2_pos (Double.ulp_exp q)) as Hg.
  apply Qmult_le_0_compat; [|lra].
  change 0 with (inject_Z 0). rewrite <- Zle_Qle.
  rewrite <- (round_half_even_Z 0). apply round_half_even_mono.
  apply Qle_shift_div_l; [exact Hg|]. change (inject_Z 0) with 0. lra.
Qed.

Lemma rnd_pos_mono (x y : Q) : 0 < x -> x <= y -> Double.rnd_pos x <= Double.rnd_pos y.
Proof.
  intros Hx Hxy. assert (Hy : 0 < y) by lra.
  pose proof (ulp_exp_mono x y Hx Hxy) as He.
  destruct (Z.eq_dec (Double.ulp_exp x) (Double.ulp_exp y)) as [E|E].
  - unfold Double.rnd_pos. rewrite E. pose proof (pow2_pos (Double.ulp_exp y)) as Hg.
    apply Qmult_le_compat_r; [|lra]. rewrite <- Zle_Qle.
    apply round_half_even_mono. apply Qmult_le_compat_r; [exact Hxy|].
    apply Qlt_le_weak, Qinv_lt_0_compat, Hg.
  - assert (Hn : Double.ulp_exp y = (Double.floor_log2 y - 52)%Z).
    { assert ((-1074 <= Double.ulp_exp x)%Z) by (unfold Double.ulp_exp; lia).
      unfold Double.ulp_exp in *. lia. }
    eapply Qle_trans; [apply rnd_pos_below, Hx|].
    eapply Qle_trans; [|apply rnd_pos_above; assumption].
    apply pow2_le. lia.
Qed.

Lemma rnd_pos_exact (q : Q) (m e : Z) :
  (0 < m < 2 ^ 53)%Z -> (-1074 <= e)%Z -> q == inject_Z m * Double.pow2 e ->
  Double.rnd_pos q == q.
Proof.
  intros Hm He Eq.
  assert (Hq : 0 < q).
  { rewrite Eq. apply Qmult_lt_0_compat; [|apply pow2_pos].
    change 0 with (inject_Z 0). rewrite <- Zlt_Qlt. lia. }
  assert (Hu : (Double.ulp_exp q <= e)%Z).
  { assert (Hlt : q < Double.pow2 (e + 53)).
    { rewrite Eq, pow2_plus, (Qmult_comm (Double.pow2 e)).
      apply Qmult_lt_compat_r; [apply pow2_pos|].
      rewrite (pow2_Z 53) by lia. rewrite <- Zlt_Qlt. lia. }
    pose proof (floor_log2_spec q Hq) as [H1 _].
    assert ((Double.floor_log2 q < e + 53)%Z).
    { destruct (Z_lt_le_dec (Double.floor_log2 q) (e + 53)) as [H|H]; [exact H|].
      pose proof (pow2_le _ _ H). lra. }
    unfold Double.ulp_exp. lia. }
  unfold Double.rnd_pos. set (u := Double.ulp_exp q) in *.
  assert (Es : q / Double.pow2 u == inject_Z (m * 2 ^ (e - u))).
  { rewrite inject_Z_mult, <- (pow2_Z (e - u)) by lia.
    rewrite pow2_div, Eq, <- Qmult_assoc, <- pow2_plus.
    replace (e + - u)%Z with (e - u)%Z by lia. reflexivity. }
  rewrite (round_half_even_comp _ _ Es), round_half_even_Z, <- Es.
  field. pose proof (pow2_pos u). lra.
Qed.

(* Double.rnd *)
Lemma rnd_comp (x y : Q) : x == y -> Double.rnd x == Double.rnd y.
Proof.
  intros E. unfold Double.rnd.
  rewrite (Qcompare_comp x y E 0 0 (Qeq_refl 0)).
  destruct (Qcompare_spec y 0) as [H|H|H]; [reflexivity | |].
  - apply Qopp_comp. apply rnd_pos_comp; [lra | rewrite E; reflexivity].
  - apply rnd_pos_comp; [lra | exact E].
Qed.

#[global] Instance rnd_proper : Proper (Qeq ==> Qeq) Double.rnd.
Proof. intros x y E. apply rnd_comp, E. Qed.

Lemma rnd_0 : Double.rnd 0 = 0.
Proof. reflexivity. Qed.

Lemma rnd_pos_eq (q : Q) : 0 < q -> Double.rnd q = Double.rnd_pos q.
Proof.
  intros H. unfold Double.rnd. destruct (Qcompare_spec q 0) as [E|E|E]; [lra | lra | reflexivity].
Qed.

Lemma rnd_neg_eq (q : Q) : q < 0 -> Double.rnd q = - Double.rnd_pos (- q).
Proof.
  intros H. unfold Double.rnd. destruct (Qcompare_spec q 0) as [E|E|E]; [lra | reflexivity | lra].
Qed.

Lemma rnd_opp (q : Q) : Double.rnd (- q) == - Double.rnd q.
Proof.
  destruct (Q_dec q 0) as [[H|H]|H].
  - rewrite (rnd_pos_eq (- q)) by lra. rewrite (rnd_neg_eq q) by lra. ring.
  - rewrite (rnd_neg_eq (- q)) by lra. rewrite (rnd_pos_eq q) by lra.
    apply Qopp_comp. apply rnd_pos_comp; [lra | ring].
  - rewrite H. reflexivity.
Qed.

Lemma rnd_nonneg (q : Q) : 0 <= q -> 0 <= Double.rnd q.
Proof.
  intros H. destruct (Qle_lt_or_eq _ _ H) as [H1|H1].
  - rewrite rnd_pos_eq by exact H1. apply rnd_pos_nonneg, H1.
  - rewrite <- H1. discriminate.
Qed.

Lemma rnd_mono (x y : Q) : x <= y -> Double.rnd x <= Double.rnd y.
Proof.
  intros H.
  destruct (Q_dec x 0) as [[Hx|Hx]|Hx].
  - (* x < 0 *)
    destruct (Q_dec y 0) as [[Hy|Hy]|Hy].
    + rewrite (rnd_neg_eq x), (rnd_neg_eq y) by assumption.
      apply Qopp_le_compat. apply rnd_pos_mono; lra.
    + rewrite (rnd_neg_eq x) by assumption.
      pose proof (rnd_pos_nonneg (- x) ltac:(lra)).
      pose proof (rnd_nonneg y ltac:(lra)). lra.
    + rewrite (rnd_neg_eq x) by assumption. rewrite Hy.
      pose proof (rnd_pos_nonneg (- x) ltac:(lra)). rewrite rnd_0. lra.
  - rewrite (rnd_pos_eq x), (rnd_pos_eq y) by lra. apply rnd_pos_mono; assumption.
  - rewrite Hx, rnd_0. apply rnd_nonneg. lra.
Qed.

Lemma rnd_exact (q : Q) (m e : Z) :
  (Z.abs m < 2 ^ 53)%Z -> (-1074 <= e)%Z -> q == inject_Z m * Double.pow2 e ->
  Double.rnd q == q.
Proof.
  intros Hm He Eq. pose proof (pow2_pos e) as Hg.
  destruct (Z.lt_trichotomy m 0) as [H|[H|H]].
  - assert (Hq : q < 0).
    { rewrite Eq. assert (inject_Z m < 0) by (change 0 with (inject_Z 0); rewrite <- Zlt_Qlt; lia).
      setoid_replace 0 with (0 * Double.pow2 e) using relation Qeq by ring.
      apply Qmult_lt_compat_r; assumption. }
    rewrite rnd_neg_eq by exact Hq.
    rewrite (rnd_pos_exact (- q) (- m) e); [ring | lia | exact He |].
    rewrite Eq, inject_Z_opp. ring.
  - subst m. rewrite Eq. setoid_replace (inject_Z 0 * Double.pow2 e) with 0 using relation Qeq by ring. reflexivity.
  - assert (Hq : 0 < q).
    { rewrite Eq. apply Qmult_lt_0_compat; [|exact Hg].
      change 0 with (inject_Z 0). rewrite <- Zlt_Qlt. lia. }
    rewrite rnd_pos_eq by exact Hq. apply (rnd_pos_exact q m e); [lia | exact He | exact Eq].
Qed.

Lemma rnd_Z (z : Z) : (Z.abs z <= 2 ^ 53)%Z -> Double.rnd (inject_Z z) == inject_Z z.
Proof.
  intros H. destruct (Z.eq_dec (Z.abs z) (2 ^ 53)%Z) as [E|E].
  - apply (rnd_exact _ (Z.sgn z) 53); [destruct z; simpl; lia | lia |].
    rewrite (pow2_Z 53), <- inject_Z_mult by lia.
    assert (Ez : (Z.sgn z * 2 ^ 53)%Z = z) by (rewrite <- E; destruct z; simpl; lia).
    rewrite Ez. reflexivity.
  - apply (rnd_exact _ z 0); [lia | lia |]. unfold Double.pow2. simpl. ring.
Qed.

Lemma rnd_rel_err (q : Q) :
  Double.pow2 (-1022) <= Qabs q -> Qabs (Double.rnd q - q) <= Qabs q * Double.pow2 (-53).
Proof.
  assert (Hpos : forall x, Double.pow2 (-1022) <= x -> Qabs (Double.rnd_pos x - x) <= x * Double.pow2 (-53)).
  { intros x Hx. pose proof (pow2_pos (-1022)) as H0.
    assert (Hx0 : 0 < x) by lra.
    pose proof (floor_log2_spec x Hx0) as [H1 H2].
    assert (Hf : (-1022 <= Double.floor_log2 x)%Z).
    { destruct (Z_lt_le_dec (Double.floor_log2 x) (-1022)) as [H|H]; [|exact H].
      pose proof (pow2_le (Double.floor_log2 x + 1) (-1022) ltac:(lia)). lra. }
    assert (Hu : Double.ulp_exp x = (Double.floor_log2 x - 52)%Z) by (unfold Double.ulp_exp; lia).
    pose proof (rnd_pos_err x) as [E1 E2]. rewrite Hu in E1, E2.
    assert (Hg : Double.pow2 (Double.floor_log2 x - 52) / 2 <= x * Double.pow2 (-53)).
    { replace (Double.floor_log2 x - 52)%Z with (Double.floor_log2 x + -53 + 1)%Z by lia.
      rewrite !pow2_plus. change (Double.pow2 1) with 2.
      setoid_replace (Double.pow2 (Double.floor_log2 x) * Double.pow2 (-53) * 2 / 2)
        with (Double.pow2 (Double.floor_log2 x) * Double.pow2 (-53)) using relation Qeq by field.
      apply Qmult_le_compat_r; [exact H1 | apply Qlt_le_weak, pow2_pos]. }
    apply Qabs_Qle_condition. split; lra. }
  intros H. destruct (Q_dec q 0) as [[Hq|Hq]|Hq].
  - rewrite (Qabs_neg q) in H by lra. rewrite (Qabs_neg q) by lra.
    rewrite rnd_neg_eq by exact Hq.
    specialize (Hpos (- q) H).
    setoid_replace (- Double.rnd_pos (- q) - q) with (- (Double.rnd_pos (- q) - - q)) using relation Qeq by ring.
    rewrite Qabs_opp. exact Hpos.
  - rewrite (Qabs_pos q) in H by lra. rewrite (Qabs_pos q) by lra.
    rewrite rnd_pos_eq by exact Hq. apply Hpos, H.
  - pose proof (pow2_pos (-1022)). rewrite Hq in H. change (Qabs 0) with 0 in H. lra.
Qed.


(** Split on every rational test in the goal, keeping each outcome as an
    order fact. *)
Ltac qtest :=
  repeat match goal with
  | |- context [Qle_bool ?a ?b] =>
      let E := fresh "E" in
      destruct (Qle_bool a b) eqn:E;
      [apply Qle_bool_iff in E | apply Qle_bool_false in E]
  end.

Ltac qsolve := unfold Qlt_bool; qtest; simpl; try reflexivity; try (exfalso; lra).

(** The rounding on familiar values: 0.1 + 0.2 is not 0.3; above 2^53 odd
    integers go to the even neighbour; 2^1024 overflows while the largest
    double stays; half the smallest subnormal goes to 0. *)
Example double_sum_of_tenths :
  match Double.add (Double.of_Q (1 # 10)) (Double.of_Q (2 # 10)) with
  | Fin q => q == 5404319552844596 # 18014398509481984 /\ ~ q == 3 # 10
  | _ => False
  end.
Proof. vm_compute. split; [reflexivity | discriminate]. Qed.

Example double_ties_to_even :
  Double.rnd (inject_Z (2 ^ 53 + 1)) == inject_Z (2 ^ 53)
  /\ Double.rnd (inject_Z (2 ^ 53 + 3)) == inject_Z (2 ^ 53 + 4).
Proof. split; vm_compute; reflexivity. Qed.

Example double_range :
  Double.of_Q (Double.pow2 1024) = PosInf
  /\ Double.of_Q (- Double.pow2 1024) = NegInf
  /\ Double.is_representable (Double.pow2 1024 - Double.pow2 971) = true
  /\ Double.rnd (Double.pow2 (-1075)) == 0
  /\ Double.rnd (3 * Double.pow2 (-1075)) == Double.pow2 (-1073).
Proof. repeat split; vm_compute; reflexivity. Qed.

(** ** calculateSeverity *)

Lemma get_own {A} (m : gmap string A) (k : string) (a : A) :
  m !! k = Some a -> get m k = Own a.
Proof. unfold get. intros ->. reflexivity. Qed.

Lemma in_scale_guard (q : Q) :
  1 <= q <= 10 -> num_lt (Fin q) (Fin 1) || num_gt (Fin q) (Fin 10) = false.
Proof. intros [H1 H2]. unfold num_gt, num_lt. qsolve. Qed.

Lemma calculateSeverity_inverse (q : Q) (k : string) (c : Category) :
  1 <= q <= 10 -> FEEDBACK_CATEGORIES !! k = Some c -> inverseScale c = true ->
  calculateSeverity (VNum (Fin q)) k = inverse_scale_tier (Fin q).
Proof.
  intros Hq Hk Hinv. unfold calculateSeverity.
  rewrite (in_scale_guard q Hq), (get_own _ _ _ Hk), Hinv. reflexivity.
Qed.

Lemma calculateSeverity_tired (q : Q) :
  1 <= q <= 10 ->
  calculateSeverity (VNum (Fin q)) "tired" = normal_scale_tier (Fin q).
Proof.
  intros Hq. unfold calculateSeverity. rewrite (in_scale_guard q Hq).
  reflexivity.
Qed.

(** C1, as the specification words it, fails at the value 4 of the
    energetic scale: the inverse branch answers MODERATE, while the
    higher-is-worse boundaries applied to the complement 11 - 4 = 7 answer
    HIGH. *)
Lemma complement_rule_fails_at_4 :
  (exists c, FEEDBACK_CATEGORIES !! "energetic" = Some c /\ inverseScale c = true)
  /\ calculateSeverity (VNum (Fin 4)) "energetic" = MODERATE
  /\ normal_scale_tier (Fin (11 - 4)) = HIGH
  /\ calculateSeverity (VNum (Fin (11 - 4))) "tired" = HIGH
  /\ calculateSeverity (VNum (Fin 4)) "energetic"
     <> normal_scale_tier (Fin (11 - 4)).
Proof.
  repeat split; try (vm_compute; reflexivity).
  - eexists. split; vm_compute; reflexivity.
  - vm_compute. discriminate.
Qed.

(** C1 (amended): on a lower-is-worse category calculateSeverity applies its
    own boundaries 2, 3, 5, 7.  For a value v of the 1-10 scale the result
    equals the tier the higher-is-worse boundaries give to 11 - v exactly
    when v <= 3, 4 < v <= 5, 6 < v <= 7 or 8 < v; on the remaining values
    (3 < v <= 4, 5 < v <= 6, 7 < v <= 8) it is one rank less severe. *)
Theorem inverse_tier_against_complement (q : Q) (k : string) (c : Category) :
  1 <= q <= 10 ->
  FEEDBACK_CATEGORIES !! k = Some c -> inverseScale c = true ->
  let tier := calculateSeverity (VNum (Fin q)) k in
  let mirrored := calculateSeverity (VNum (Fin (11 - q))) "tired" in
  tier = inverse_scale_tier (Fin q)
  /\ mirrored = normal_scale_tier (Fin (11 - q))
  /\ (q <= 3 \/ 4 < q <= 5 \/ 6 < q <= 7 \/ 8 < q -> tier = mirrored)
  /\ (3 < q <= 4 \/ 5 < q <= 6 \/ 7 < q <= 8 ->
      (severity_value tier + 1 = severity_value mirrored)%Z).
Proof.
  intros Hq Hk Hinv tier mirrored. subst tier mirrored.
  rewrite (calculateSeverity_inverse q k c Hq Hk Hinv).
  rewrite (calculateSeverity_tired (11 - q)) by (destruct Hq; split; lra).
  split; [reflexivity|]. split; [reflexivity|].
  destruct Hq as [H1 H10].
  unfold inverse_scale_tier, normal_scale_tier, num_ge, num_le.
  split; intros H; qsolve.
Qed.

Lemma inverse_tier_against_complement_witness :
  calculateSeverity (VNum (Fin 9)) "adventurous"
  = calculateSeverity (VNum (Fin (11 - 9))) "tired".
Proof.
  refine (proj1 (proj2 (proj2
    (inverse_tier_against_complement 9 "adventurous"
       (mkCategory "adventurous" "Adventurous" true 3) _ _ _))) _).
  - split; vm_compute; discriminate.
  - vm_compute; reflexivity.
  - reflexivity.
  - right. right. right. vm_compute. reflexivity.
Defined.

(** calculateSeverity is a total function, and its two guards do send these
    inputs to MODERATE: a value that is not of type number, a number below 1
    or above 10 (the infinities included), and a key that names neither a
    configured category nor a member inherited from Object.prototype. *)
Lemma calculateSeverity_guards (v : Val) (k : string) :
  is_number v = false
  \/ (exists q, v = VNum (Fin q) /\ (q < 1 \/ 10 < q))
  \/ v = VNum PosInf \/ v = VNum NegInf
  \/ get FEEDBACK_CATEGORIES k = Undefined ->
  calculateSeverity v k = MODERATE.
Proof.
  intros [H | [(q & -> & H) | [-> | [-> | H]]]]; try reflexivity.
  - destruct v; try reflexivity. discriminate.
  - unfold calculateSeverity, num_gt, num_lt.
    destruct H; qsolve.
  - unfold calculateSeverity. destruct v; try reflexivity.
    rewrite H. destruct (_ || _); reflexivity.
Qed.

Lemma unknown_key_undefined (k : string) :
  FEEDBACK_CATEGORIES !! k = None -> inherited k = false ->
  get FEEDBACK_CATEGORIES k = Undefined.
Proof. unfold get. intros -> ->. reflexivity. Qed.

(** C9: the code misses two cases of the claim.  NaN has type number and
    fails both range comparisons, so it passes the guard and falls through
    every tier test to EXCELLENT; and a key such as "constructor" is found on
    Object.prototype, so the lookup is truthy and the normal-scale branch
    runs. *)
Theorem calculateSeverity_misses_nan_and_inherited_keys :
  calculateSeverity (VNum NaN) "tired" = EXCELLENT
  /\ calculateSeverity (VNum NaN) "energetic" = EXCELLENT
  /\ FEEDBACK_CATEGORIES !! "constructor" = None
  /\ calculateSeverity (VNum (Fin 9)) "constructor" = CRITICAL.
Proof. repeat split; vm_compute; reflexivity. Qed.

(** ** validateFeedbackData and handleSubmit *)

(** validateFeedbackData accepts exactly when an activity id is present and
    no category value trips the range test. *)
Lemma validateFeedbackData_isValid (feedbackData : gmap string Val) :
  isValid (validateFeedbackData feedbackData)
  = negb (missing_activity_id feedbackData)
    && forallb (fun c => negb (rejected_value (prop feedbackData c))) categories.
Proof.
  unfold validateFeedbackData, categories. simpl.
  destruct (missing_activity_id feedbackData);
    destruct (rejected_value (prop feedbackData "tired"));
    destruct (rejected_value (prop feedbackData "energetic"));
    destruct (rejected_value (prop feedbackData "sick"));
    destruct (rejected_value (prop feedbackData "hungry"));
    destruct (rejected_value (prop feedbackData "adventurous"));
    reflexivity.
Qed.

(** The range test rejects everything that is not a number, every finite
    number outside [1,10] and both infinities; it accepts the finite numbers
    of [1,10] and NaN. *)
Lemma rejected_value_spec (v : Val) :
  rejected_value v = false
  <-> (exists q, v = VNum (Fin q) /\ 1 <= q <= 10) \/ v = VNum NaN.
Proof.
  split.
  - destruct v as [| | |n|s|]; try discriminate.
    destruct n as [q| | |]; try discriminate; [|auto].
    unfold rejected_value, num_gt, num_lt. intros H.
    apply Bool.orb_false_iff in H as [H1 H2].
    apply Qlt_bool_false in H1, H2. left. exists q. auto.
  - intros [(q & -> & H1 & H2) | ->]; [|reflexivity].
    unfold rejected_value, num_gt, num_lt. qsolve.
Qed.

(** When validation fails, handleSubmit posts nothing, calls nothing back,
    and leaves the feedback values and the submitting flag as they were;
    only the error display is written. *)
Lemma handleSubmit_invalid (activityId : Val) (onSuccess : bool) (now : Z)
    (t : Transport) (st : ActivityFeedback.State) :
  isValid (validateFeedbackData
             (ActivityFeedback.feedback st
              ∪ {[ "activityId"%string :=
                     js_or activityId (VStr ("activity-" ++ pretty now)) ]}))
  = false ->
  let '(st', eff) := ActivityFeedback.handleSubmit activityId onSuccess now t st in
  eff = ActivityFeedback.mkEffects [] [] false
  /\ ActivityFeedback.feedback st' = ActivityFeedback.feedback st
  /\ ActivityFeedback.isSubmitting st' = ActivityFeedback.isSubmitting st.
Proof.
  intros H. unfold ActivityFeedback.handleSubmit. rewrite H. simpl. auto.
Qed.

(** C4: a submission whose tired value is NaN is not rejected.  NaN has type
    number and both range comparisons are false for it, so
    validateFeedbackData reports no error; handleSubmit then posts the
    submission, and the JSON body carries null for tired. *)
Theorem validateFeedbackData_accepts_nan :
  let feedback := <["tired" := VNum NaN]> ActivityFeedback.default_feedback in
  let st := ActivityFeedback.mkState feedback ∅ false None in
  let posted :=
    ActivityFeedback.sent
      (snd (ActivityFeedback.handleSubmit (VStr "a1") true 0 (Responded ∅) st)) in
  validateFeedbackData (<["activityId" := VStr "a1"]> feedback)
  = mkValidation true []
  /\ posted = [submit_body (<["activityId" := VStr "a1"]> feedback)]
  /\ (forall body, In body posted -> body !! "tired" = Some VNull).
Proof.
  split; [vm_compute; reflexivity|]. split; [vm_compute; reflexivity|].
  intros body [<- | []]. vm_compute. reflexivity.
Qed.

(** ** Math.round *)

Lemma math_round_bounds (q : Q) :
  inject_Z (math_round q) - (1 # 2) <= q
  /\ q < inject_Z (math_round q) + (1 # 2).
Proof.
  unfold math_round.
  pose proof (Qfloor_le (q + (1 # 2))) as Hlo.
  pose proof (Qlt_floor (q + (1 # 2))) as Hhi.
  rewrite inject_Z_plus in Hhi. change (inject_Z 1) with 1 in Hhi.
  split; lra.
Qed.

Lemma math_round_unique (z : Z) (q : Q) :
  inject_Z z - (1 # 2) <= q -> q < inject_Z z + (1 # 2) -> math_round q = z.
Proof.
  intros Hlo Hhi. destruct (math_round_bounds q) as [Rlo Rhi].
  assert (inject_Z (math_round q) < inject_Z (z + 1)) as H1
    by (rewrite inject_Z_plus; change (inject_Z 1) with 1; lra).
  assert (inject_Z z < inject_Z (math_round q + 1)) as H2
    by (rewrite inject_Z_plus; change (inject_Z 1) with 1; lra).
  rewrite <- Zlt_Qlt in H1, H2. lia.
Qed.

Lemma math_round_mono (p q : Q) : p <= q -> (math_round p <= math_round q)%Z.
Proof.
  intros H. unfold math_round. apply Qfloor_resp_le. lra.
Qed.

Lemma math_round_inject_Z (z : Z) : math_round (inject_Z z) = z.
Proof. apply math_round_unique; lra. Qed.

(** ** getOverallRiskLevel *)

Lemma severity_of_carries (fd : gmap string Entry) (cat : string) (t : Severity) :
  carries fd cat t -> severity_of fd cat = Some (severity_name t).
Proof.
  intros (data & Hd & Hs). unfold severity_of. rewrite Hd, Hs.
  destruct t; reflexivity.
Qed.

Lemma weight_of_tier (t : Severity) :
  weight_of (severity_name t) = Some (inject_Z (severity_value t)).
Proof. destruct t; vm_compute; reflexivity. Qed.

Lemma severity_value_range (t : Severity) :
  1 <= inject_Z (severity_value t) <= 5.
Proof. destruct t; split; vm_compute; discriminate. Qed.

Lemma risk_chain_rounds (q m : Q) :
  q == m -> 1 <= m <= 5 ->
  exists t, tier_of_rank (math_round m) = Some t
            /\ risk_chain q = severity_name t
            /\ inject_Z (severity_value t) - (1 # 2) <= m
               < inject_Z (severity_value t) + (1 # 2).
Proof.
  intros Hq [Hlo Hhi]. unfold risk_chain. qtest.
  - exists CRITICAL. rewrite (math_round_unique 5 m) by (change (inject_Z 5) with 5; lra).
    cbn [tier_of_rank severity_value severity_name].
    change (inject_Z 5) with 5. repeat split; try reflexivity; lra.
  - exists HIGH. rewrite (math_round_unique 4 m) by (change (inject_Z 4) with 4; lra).
    cbn [tier_of_rank severity_value severity_name].
    change (inject_Z 4) with 4. repeat split; try reflexivity; lra.
  - exists MODERATE. rewrite (math_round_unique 3 m) by (change (inject_Z 3) with 3; lra).
    cbn [tier_of_rank severity_value severity_name].
    change (inject_Z 3) with 3. repeat split; try reflexivity; lra.
  - exists LOW. rewrite (math_round_unique 2 m) by (change (inject_Z 2) with 2; lra).
    cbn [tier_of_rank severity_value severity_name].
    change (inject_Z 2) with 2. repeat split; try reflexivity; lra.
  - exists EXCELLENT. rewrite (math_round_unique 1 m) by (change (inject_Z 1) with 1; lra).
    cbn [tier_of_rank severity_value severity_name].
    change (inject_Z 1) with 1. repeat split; try reflexivity; lra.
Qed.

(** C2: when each of the five categories of the snapshot carries a tier,
    getOverallRiskLevel returns the name of the tier whose rank is the mean
    of the five ranks (weight 1 each) rounded to the nearest integer: the
    mean lies within one half of the returned tier's rank. *)
Theorem overall_risk_is_rounded_mean (fd : gmap string Entry)
    (t1 t2 t3 t4 t5 : Severity) :
  carries fd "tired" t1 -> carries fd "energetic" t2 ->
  carries fd "sick" t3 -> carries fd "hungry" t4 ->
  carries fd "adventurous" t5 ->
  let tiers := [t1; t2; t3; t4; t5] in
  exists t, rounded_mean_tier tiers = Some t
            /\ getOverallRiskLevel (Some fd) = severity_name t
            /\ inject_Z (severity_value t) - (1 # 2) <= mean_rank tiers
               < inject_Z (severity_value t) + (1 # 2).
Proof.
  intros H1 H2 H3 H4 H5 tiers.
  unfold getOverallRiskLevel. cbn [omap list_omap].
  rewrite (severity_of_carries _ _ _ H1), (severity_of_carries _ _ _ H2),
    (severity_of_carries _ _ _ H3), (severity_of_carries _ _ _ H4),
    (severity_of_carries _ _ _ H5).
  cbn [length Nat.eqb fold_left]. unfold add_weight.
  rewrite !weight_of_tier.
  change (Z.of_nat 5) with 5%Z.
  unfold num_ge, num_le. fold (risk_chain
    ((0 + inject_Z (severity_value t1) + inject_Z (severity_value t2)
      + inject_Z (severity_value t3) + inject_Z (severity_value t4)
      + inject_Z (severity_value t5)) / inject_Z 5)).
  unfold rounded_mean_tier.
  pose proof (severity_value_range t1). pose proof (severity_value_range t2).
  pose proof (severity_value_range t3). pose proof (severity_value_range t4).
  pose proof (severity_value_range t5).
  apply risk_chain_rounds.
  - unfold mean_rank, tiers. cbn [fold_right length].
    change (inject_Z (Z.of_nat 5)) with 5. change (inject_Z 5) with 5. field.
  - unfold mean_rank, tiers. cbn [fold_right length].
    change (inject_Z (Z.of_nat 5)) with 5.
    match goal with
    | |- _ <= ?s / 5 <= _ =>
        pose proof (Qmult_div_r s 5 ltac:(discriminate)) as Hq;
        set (q := s / 5) in *
    end.
    lra.
Qed.

Lemma overall_risk_is_rounded_mean_witness :
  let fd : gmap string Entry :=
    <["tired" := mkEntry (Some (Fin 9)) None (Some "CRITICAL")]>
    (<["energetic" := mkEntry (Some (Fin 5)) None (Some "MODERATE")]>
    (<["sick" := mkEntry (Some (Fin 7)) None (Some "HIGH")]>
    (<["hungry" := mkEntry (Some (Fin 8)) None (Some "HIGH")]>
    (<["adventurous" := mkEntry (Some (Fin 6)) None (Some "LOW")]> ∅)))) in
  exists t, rounded_mean_tier [CRITICAL; MODERATE; HIGH; HIGH; LOW] = Some t
            /\ getOverallRiskLevel (Some fd) = severity_name t
            /\ inject_Z (severity_value t) - (1 # 2)
               <= mean_rank [CRITICAL; MODERATE; HIGH; HIGH; LOW]
               < inject_Z (severity_value t) + (1 # 2).
Proof.
  intros fd.
  apply (overall_risk_is_rounded_mean fd CRITICAL MODERATE HIGH HIGH LOW);
    eexists; (split; [vm_compute; reflexivity | reflexivity]).
Defined.

(** ** Numbers produced by rounding *)

Lemma rnd_pow2 (e : Z) : (-1074 <= e)%Z -> Double.rnd (Double.pow2 e) == Double.pow2 e.
Proof.
  intros He. apply (rnd_exact _ 1 e); [reflexivity | exact He | ring].
Qed.

Lemma rnd_below_pow2 (q : Q) (e : Z) :
  (-1074 <= e)%Z -> Qabs q <= Double.pow2 e -> Qabs (Double.rnd q) <= Double.pow2 e.
Proof.
  intros He H. apply Qabs_Qle_condition in H. destruct H as [H1 H2].
  apply Qabs_Qle_condition. split.
  - rewrite <- (rnd_pow2 e He), <- rnd_opp. apply rnd_mono, H1.
  - rewrite <- (rnd_pow2 e He). apply rnd_mono, H2.
Qed.

Lemma of_Q_fin (q : Q) (e : Z) :
  (-1074 <= e < 1024)%Z -> Qabs q <= Double.pow2 e ->
  Double.of_Q q = Fin (Double.rnd q).
Proof.
  intros He H. pose proof (rnd_below_pow2 q e ltac:(lia) H) as Hr.
  apply Qabs_Qle_condition in Hr. destruct Hr as [H1 H2].
  pose proof (pow2_lt e 1024 ltac:(lia)) as Hlt.
  unfold Double.of_Q. cbv zeta.
  destruct (Qle_bool (Double.pow2 1024) (Double.rnd q)) eqn:E1.
  { apply Qle_bool_iff in E1. lra. }
  destruct (Qle_bool (Double.rnd q) (- Double.pow2 1024)) eqn:E2.
  { apply Qle_bool_iff in E2. lra. }
  reflexivity.
Qed.

(** ** getResponseRate *)

(** C5, as the specification words it, fails when more participants have
    responded than are counted as members: three responses for two members
    give 150, outside 0-100.  The value is also a rounded percentage, not
    the ratio: one response for three members gives 33. *)
Lemma response_rate_exceeds_bound :
  getResponseRate 2 3 = Fin 150
  /\ num_le (getResponseRate 2 3) (Fin 100) = false
  /\ getResponseRate 3 1 = Fin 33
  /\ strict_eq (VNum (getResponseRate 3 1)) (VNum (Fin (1 # 3))) = false.
Proof.
  repeat split; vm_compute; reflexivity.
Qed.

(** The quotient and the product are rounded before [Math.round] sees them:
    23 responses for 40 members are 57.5 percent, which would round to 58,
    but the computed product is just below 57.5 and the rate is 57. *)
Example response_rate_23_of_40 :
  getResponseRate 40 23 = Fin 57 /\ math_round (percentage 40 23) = 58%Z.
Proof. split; vm_compute; reflexivity. Qed.

Lemma count_ratio (c r : nat) :
  (0 < c)%nat -> countable r ->
  let q := inject_Z (Z.of_nat r) / inject_Z (Z.of_nat c) in
  0 <= q <= Double.pow2 53
  /\ ((r <= c)%nat -> q <= 1)
  /\ (countable c -> (0 < r)%nat -> Double.pow2 (-53) <= q).
Proof.
  intros Hc Hr q. unfold countable in *.
  assert (1 <= inject_Z (Z.of_nat c)) as HC
    by (change 1 with (inject_Z 1); rewrite <- Zle_Qle; lia).
  assert (0 <= inject_Z (Z.of_nat r)) as HR
    by (change 0 with (inject_Z 0); rewrite <- Zle_Qle; lia).
  assert (inject_Z (Z.of_nat r) <= Double.pow2 53) as HR53
    by (rewrite (pow2_Z 53) by lia; rewrite <- Zle_Qle; exact Hr).
  assert (E : q * inject_Z (Z.of_nat c) == inject_Z (Z.of_nat r))
    by (unfold q; field; lra).
  set (C := inject_Z (Z.of_nat c)) in *. set (R := inject_Z (Z.of_nat r)) in *.
  assert (Hq0 : 0 <= q) by (unfold q; apply Qle_shift_div_l; lra).
  split; [split; [exact Hq0|]|split].
  - unfold q. apply Qle_shift_div_r; [lra|].
    pose proof (pow2_pos 53). nra.
  - intros Hle. assert (R <= C) by (unfold R, C; rewrite <- Zle_Qle; lia).
    unfold q. apply Qle_shift_div_r; lra.
  - intros Hcc Hr0.
    assert (C <= Double.pow2 53) as HC53
      by (unfold C; rewrite (pow2_Z 53) by lia; rewrite <- Zle_Qle; exact Hcc).
    assert (1 <= R) by (unfold R; change 1 with (inject_Z 1); rewrite <- Zle_Qle; lia).
    unfold q. apply Qle_shift_div_l; [lra|].
    change (Double.pow2 53) with (inject_Z (2 ^ 53)) in HC53.
    change (Double.pow2 (-53)) with (1 # 9007199254740992).
    change (inject_Z (2 ^ 53)) with 9007199254740992 in HC53. lra.
Qed.

(** The rate as a rounded product, for a non-empty room. *)
Lemma getResponseRate_value (c r : nat) :
  (0 < c)%nat -> countable r ->
  getResponseRate c r
  = Fin (inject_Z
           (math_round
              (Double.rnd
                 (Double.rnd (inject_Z (Z.of_nat r) / inject_Z (Z.of_nat c)) * 100)))).
Proof.
  intros Hc Hr. destruct (count_ratio c r Hc Hr) as [[Hq0 Hq53] _].
  unfold getResponseRate. destruct c as [|c']; [lia|]. cbn [Nat.eqb].
  set (q := inject_Z (Z.of_nat r) / inject_Z (Z.of_nat (Datatypes.S c'))) in *.
  unfold Double.div, Double.mul, count. cbn [JsArith.num_div].
  assert (Qeq_bool (inject_Z (Z.of_nat (Datatypes.S c'))) 0 = false) as ->.
  { destruct (Qeq_bool _ 0) eqn:E; [|reflexivity].
    apply Qeq_bool_iff in E. unfold Qeq in E. simpl in E. lia. }
  fold q. cbn [Double.round_num].
  rewrite (of_Q_fin q 53) by (try lia; rewrite Qabs_pos; assumption).
  cbn [JsArith.num_mul Double.round_num].
  assert (Ha : 0 <= Double.rnd q <= Double.pow2 53).
  { split; [apply rnd_nonneg, Hq0|].
    rewrite <- (rnd_pow2 53) by lia. apply rnd_mono, Hq53. }
  rewrite (of_Q_fin (Double.rnd q * 100) 60).
  - reflexivity.
  - lia.
  - rewrite Qabs_pos by lra.
    replace 60%Z with (53 + 7)%Z by reflexivity. rewrite pow2_plus.
    change (Double.pow2 7) with 128. pose proof (pow2_pos 53). nra.
Qed.

(** C5 (amended): getResponseRate returns 0 when the member count is 0.
    Otherwise it returns a whole number of percent that is never negative,
    that lies within one half, plus the rounding error of the two double
    operations (at most the percentage times 2^-51), of the exact
    percentage 100 * responded / members, and that is at most 100 whenever
    the responded count does not exceed the member count. *)
Theorem response_rate_percentage (participantCount respondedParticipants : nat) :
  countable participantCount -> countable respondedParticipants ->
  let rate := getResponseRate participantCount respondedParticipants in
  let exact := percentage participantCount respondedParticipants in
  (participantCount = 0%nat -> rate = Fin 0)
  /\ (participantCount <> 0%nat ->
      exists z : Z,
        rate = Fin (inject_Z z)
        /\ (0 <= z)%Z
        /\ Qabs (inject_Z z - exact) <= (1 # 2) + exact * Double.pow2 (-51)
        /\ ((respondedParticipants <= participantCount)%nat -> (z <= 100)%Z)).
Proof.
  intros Hcc Hcr rate exact. subst rate exact. split.
  - intros ->. reflexivity.
  - intros Hc. assert (Hc' : (0 < participantCount)%nat) by lia.
    rewrite (getResponseRate_value _ _ Hc' Hcr).
    destruct (count_ratio participantCount respondedParticipants Hc' Hcr)
      as [[Hq0 Hq53] [Hq1 Hqlow]].
    unfold percentage.
    set (q := inject_Z (Z.of_nat respondedParticipants)
              / inject_Z (Z.of_nat participantCount)) in *.
    set (a := Double.rnd q). set (b := Double.rnd (a * 100)).
    assert (Ha0 : 0 <= a) by apply rnd_nonneg, Hq0.
    assert (Hb0 : 0 <= b) by (apply rnd_nonneg; lra).
    eexists. split; [reflexivity|].
    pose proof (math_round_bounds b) as [Hz1 Hz2].
    split; [|split].
    + rewrite <- (math_round_inject_Z 0). apply math_round_mono. exact Hb0.
    + destruct respondedParticipants as [|r'].
      * assert (Eq0 : q == 0) by (unfold q; simpl; field;
          intros E; unfold Qeq in E; simpl in E; lia).
        assert (Ea : a == 0) by (unfold a; rewrite Eq0; reflexivity).
        assert (Eb : b == 0).
        { unfold b. rewrite Ea.
          assert (E0 : 0 * 100 == 0) by ring. rewrite E0. reflexivity. }
        pose proof (pow2_pos (-51)).
        apply Qabs_Qle_condition. split; nra.
      * specialize (Hqlow Hcc ltac:(lia)).
        pose proof (pow2_le (-1022) (-53) ltac:(lia)) as Hnorm.
        assert (Halow : Double.pow2 (-53) <= a).
        { unfold a. rewrite <- (rnd_pow2 (-53)) by lia. apply rnd_mono, Hqlow. }
        pose proof (rnd_rel_err q) as Ea.
        rewrite (Qabs_pos q) in Ea by exact Hq0. specialize (Ea ltac:(lra)).
        fold a in Ea.
        pose proof (rnd_rel_err (a * 100)) as Eb.
        rewrite (Qabs_pos (a * 100)) in Eb by lra.
        pose proof (pow2_pos (-53)) as Hu.
        specialize (Eb ltac:(lra)). fold b in Eb.
        apply Qabs_Qle_condition in Ea. apply Qabs_Qle_condition in Eb.
        destruct Ea as [Ea1 Ea2]. destruct Eb as [Eb1 Eb2].
        change (Double.pow2 (-53)) with (1 # 9007199254740992) in *.
        change (Double.pow2 (-51)) with (1 # 2251799813685248).
        apply Qabs_Qle_condition. split; lra.
    + intros Hle. specialize (Hq1 Hle).
      rewrite <- (math_round_inject_Z 100). apply math_round_mono.
      assert (Ha1 : a <= 1).
      { assert (E1 : Double.rnd 1 == 1) by reflexivity.
        assert (Ha : a <= Double.rnd 1) by apply rnd_mono, Hq1. lra. }
      assert (E100 : Double.rnd 100 == 100) by reflexivity.
      assert (Hb : b <= Double.rnd 100) by (apply rnd_mono; lra).
      change (inject_Z 100) with 100. lra.
Qed.

Lemma response_rate_percentage_witness :
  countable 40 /\ countable 23
  /\ exists z : Z,
       getResponseRate 40 23 = Fin (inject_Z z)
       /\ (0 <= z)%Z
       /\ Qabs (inject_Z z - percentage 40 23)
          <= (1 # 2) + percentage 40 23 * Double.pow2 (-51)
       /\ ((23 <= 40)%nat -> (z <= 100)%Z).
Proof.
  assert (H40 : countable 40) by (unfold countable; simpl; lia).
  assert (H23 : countable 23) by (unfold countable; simpl; lia).
  split; [exact H40|]. split; [exact H23|].
  apply (proj2 (response_rate_percentage 40 23 H40 H23)). discriminate.
Defined.

(** ** calculateOptimalDuration *)

Lemma rnd_abs (x : Q) : Qabs (Double.rnd x) == Double.rnd (Qabs x).
Proof.
  destruct (Qlt_le_dec x 0) as [H|H].
  - pose proof (rnd_mono x 0 ltac:(lra)) as Hr. rewrite rnd_0 in Hr.
    rewrite (Qabs_neg x), (Qabs_neg (Double.rnd x)) by lra.
    symmetry. apply rnd_opp.
  - pose proof (rnd_nonneg x H).
    rewrite (Qabs_pos x), (Qabs_pos (Double.rnd x)) by lra. reflexivity.
Qed.

Lemma of_Q_fin_lt (x : Q) :
  Qabs (Double.rnd x) < Double.pow2 1024 -> Double.of_Q x = Fin (Double.rnd x).
Proof.
  intros H. unfold Double.of_Q. cbv zeta.
  assert (- Double.pow2 1024 < Double.rnd x < Double.pow2 1024) as [H1 H2].
  { destruct (Qlt_le_dec (Double.rnd x) 0) as [Hn|Hp].
    - rewrite Qabs_neg in H by lra. pose proof (pow2_pos 1024). lra.
    - rewrite Qabs_pos in H by lra. pose proof (pow2_pos 1024). lra. }
  destruct (Qle_bool (Double.pow2 1024) (Double.rnd x)) eqn:E1.
  { apply Qle_bool_iff in E1. lra. }
  destruct (Qle_bool (Double.rnd x) (- Double.pow2 1024)) eqn:E2.
  { apply Qle_bool_iff in E2. lra. }
  reflexivity.
Qed.

(** Scaling a double by a factor between 0 and 1 cannot overflow, and
    brings it no further from 0. *)
Lemma mul_fraction (q f : Q) :
  Double.representable q -> 0 <= f <= 1 ->
  Double.mul (Fin q) (Fin f) = Fin (Double.rnd (q * f))
  /\ (0 <= q -> Double.rnd (q * f) <= q)
  /\ (q <= 0 -> Double.rnd (q * f) <= 0).
Proof.
  intros [Hr Hlt] Hf.
  assert (Habs : Qabs (q * f) <= Qabs q).
  { rewrite Qabs_Qmult, (Qabs_pos f) by lra.
    pose proof (Qabs_nonneg q). nra. }
  split; [|split].
  - unfold Double.mul. cbn [JsArith.num_mul Double.round_num].
    apply of_Q_fin_lt. rewrite rnd_abs.
    eapply Qle_lt_trans; [apply rnd_mono, Habs|].
    rewrite <- rnd_abs, Hr. exact Hlt.
  - intros Hq. rewrite <- Hr at 2. apply rnd_mono. nra.
  - intros Hq. rewrite <- rnd_0. apply rnd_mono. nra.
Qed.

Lemma duration_step_tired (fd : gmap string Entry) (acc : Q * list string) :
  exists b : bool,
    duration_step fd acc "tired"
    = if b then (lower (fst acc) (2 # 10),
                 snd acc ++ ["High fatigue levels detected"%string])
      else acc.
Proof.
  destruct acc as [adj reason]. unfold duration_step.
  destruct (fd !! "tired") as [data|]; [|exists false; reflexivity].
  destruct (average data) as [value|]; [|exists false; reflexivity].
  destruct (truthy (VNum value)); [|exists false; reflexivity].
  cbn [String.eqb Ascii.eqb Bool.eqb andb].
  destruct (num_gt value (Fin 6)); [exists true | exists false]; reflexivity.
Qed.

Lemma duration_step_energetic (fd : gmap string Entry) (acc : Q * list string) :
  exists b : bool,
    duration_step fd acc "energetic"
    = if b then (lower (fst acc) (1 # 10), snd acc ++ ["Low energy detected"%string])
      else acc.
Proof.
  destruct acc as [adj reason]. unfold duration_step.
  destruct (fd !! "energetic") as [data|]; [|exists false; reflexivity].
  destruct (average data) as [value|]; [|exists false; reflexivity].
  destruct (truthy (VNum value)); [|exists false; reflexivity].
  cbn [String.eqb Ascii.eqb Bool.eqb andb].
  destruct (num_lt value (Fin 4)); [exists true | exists false]; reflexivity.
Qed.

Lemma duration_step_hungry (fd : gmap string Entry) (acc : Q * list string) :
  exists b : bool,
    duration_step fd acc "hungry"
    = if b then (lower (fst acc) (15 # 100),
                 snd acc ++ ["Hunger levels increasing"%string])
      else acc.
Proof.
  destruct acc as [adj reason]. unfold duration_step.
  destruct (fd !! "hungry") as [data|]; [|exists false; reflexivity].
  destruct (average data) as [value|]; [|exists false; reflexivity].
  destruct (truthy (VNum value)); [|exists false; reflexivity].
  cbn [String.eqb Ascii.eqb Bool.eqb andb].
  destruct (num_gt value (Fin 6)); [exists true | exists false]; reflexivity.
Qed.

(** The loop ends in one of eight accumulators. *)
Lemma duration_fold_cases (fd : gmap string Entry) :
  exists t e h : bool,
    fold_left (duration_step fd) ["tired"; "energetic"; "hungry"]%string (0, [])
    = duration_outcome t e h.
Proof.
  cbn [fold_left].
  destruct (duration_step_tired fd (0, [])) as [t ->].
  exists t. unfold duration_outcome.
  set (acc1 := if t then _ else _).
  destruct (duration_step_energetic fd acc1) as [e ->].
  exists e.
  set (acc2 := if e then _ else _).
  destruct (duration_step_hungry fd acc2) as [h ->].
  exists h. subst acc2 acc1.
  destruct t, e, h; reflexivity.
Qed.

(** What the eight accumulators give: the factor by which the base duration
    is multiplied lies in (0, 1], and the reported percentage, confidence
    and reasons are as follows. *)
Lemma duration_outcome_facts (t e h : bool) :
  let f := fst (duration_outcome t e h) in
  let s := Double.rnd (1 + f) in
  Double.add (Fin 1) (Fin f) = Fin s
  /\ 0 < s <= 1
  /\ f <= 0
  /\ (-45 <= math_round (Double.rnd (f * 100)) <= 0)%Z
  /\ 70 <= Qmin 100 (Double.rnd (70 + Double.rnd (Qabs f * 30))) <= (835 # 10)
  /\ (f == 0 -> s == 1).
Proof.
  cbv zeta.
  split; [destruct t, e, h; vm_compute; reflexivity|].
  split; [split; [apply Qlt_bool_iff | apply Qle_bool_iff];
          destruct t, e, h; vm_compute; reflexivity|].
  split; [apply Qle_bool_iff; destruct t, e, h; vm_compute; reflexivity|].
  split; [split; apply Z.leb_le; destruct t, e, h; vm_compute; reflexivity|].
  split; [split; apply Qle_bool_iff; destruct t, e, h; vm_compute; reflexivity|].
  intros H. apply Qeq_bool_iff in H. apply Qeq_bool_iff.
  destruct t, e, h; first [ vm_compute; reflexivity
                          | exfalso; revert H; vm_compute; discriminate ].
Qed.

Lemma max_with_15 (z : Z) :
  Double.max (Fin (inject_Z z)) (Fin 15) = Fin (inject_Z (Z.max z 15)).
Proof.
  unfold Double.max. cbn [num_lt].
  destruct (Qlt_bool (inject_Z z) 15) eqn:E.
  - apply Qlt_bool_iff in E. change 15 with (inject_Z 15) in E.
    rewrite <- Zlt_Qlt in E. rewrite Z.max_r by lia. reflexivity.
  - apply Qlt_bool_false in E. change 15 with (inject_Z 15) in E.
    rewrite <- Zle_Qle in E. rewrite Z.max_l by lia. reflexivity.
Qed.

(** C10 fails on the code at one base duration: when [baseDuration] is NaN
    the product is NaN, [Math.round] keeps it and [Math.max(NaN, 15)] is
    NaN, so the recommended duration is NaN whatever the snapshot, and the
    15-minute floor does not hold. *)
Theorem optimal_duration_nan (fd : gmap string Entry) :
  let d := calculateOptimalDuration fd NaN in
  recommended d = NaN /\ num_ge (recommended d) (Fin 15) = false.
Proof.
  intros d. subst d. unfold calculateOptimalDuration.
  destruct (fold_left _ _ _) as [adj reason].
  split; reflexivity.
Qed.

(** X30: for every snapshot and every base duration that is not NaN the
    recommended duration is at least 15 and at most
    max(round(baseDuration), 15); the adjustment factor is never positive,
    neither as accumulated nor as reported in percent. *)
Theorem optimal_duration_bounds (fd : gmap string Entry) (baseDuration : Num) :
  Double.is_double baseDuration -> baseDuration <> NaN ->
  let d := calculateOptimalDuration fd baseDuration in
  num_le (Fin 15) (recommended d) = true
  /\ num_le (recommended d) (Double.max (Double.round baseDuration) (Fin 15)) = true
  /\ duration_factor fd <= 0
  /\ (adjustmentFactor d <= 0)%Z.
Proof.
  intros Hd Hnan d. subst d. unfold calculateOptimalDuration, duration_factor.
  destruct (duration_fold_cases fd) as (t & e & h & ->).
  pose proof (duration_outcome_facts t e h) as (Hs & Hs01 & Hf & Hpct & _ & _).
  cbv zeta in Hs, Hs01, Hf, Hpct. set (s := Double.rnd (1 + fst (duration_outcome t e h))) in *.
  destruct (duration_outcome t e h) as [f reason]. cbn [fst] in *.
  cbn [recommended adjustmentFactor]. rewrite Hs.
  split; [|split; [|split; [exact Hf | lia]]].
  - destruct baseDuration as [q| | |]; [|contradiction| |].
    + destruct (mul_fraction q s Hd ltac:(lra)) as (-> & _ & _).
      cbn [Double.round]. rewrite max_with_15. cbn [num_le].
      apply Qle_bool_iff. change 15 with (inject_Z 15). rewrite <- Zle_Qle. lia.
    + unfold Double.mul. cbn [JsArith.num_mul]. unfold JsArith.scale_inf.
      destruct (Qeq_bool s 0) eqn:E0; [apply Qeq_bool_iff in E0; lra|].
      assert (Qlt_bool 0 s = true) as -> by (apply Qlt_bool_iff; lra).
      reflexivity.
    + unfold Double.mul. cbn [JsArith.num_mul]. unfold JsArith.scale_inf.
      destruct (Qeq_bool s 0) eqn:E0; [apply Qeq_bool_iff in E0; lra|].
      assert (Qlt_bool 0 s = true) as -> by (apply Qlt_bool_iff; lra).
      reflexivity.
  - destruct baseDuration as [q| | |]; [|contradiction| |].
    + destruct (mul_fraction q s Hd ltac:(lra)) as (-> & Hpos & Hneg).
      cbn [Double.round]. rewrite !max_with_15. cbn [num_le].
      apply Qle_bool_iff. rewrite <- Zle_Qle.
      destruct (Qlt_le_dec q 0) as [Hq|Hq].
      * specialize (Hneg ltac:(lra)). apply math_round_mono in Hneg.
        change (math_round 0) with 0%Z in Hneg. lia.
      * specialize (Hpos Hq). apply math_round_mono in Hpos. lia.
    + unfold Double.mul. cbn [JsArith.num_mul]. unfold JsArith.scale_inf.
      destruct (Qeq_bool s 0) eqn:E0; [apply Qeq_bool_iff in E0; lra|].
      assert (Qlt_bool 0 s = true) as -> by (apply Qlt_bool_iff; lra).
      reflexivity.
    + unfold Double.mul. cbn [JsArith.num_mul]. unfold JsArith.scale_inf.
      destruct (Qeq_bool s 0) eqn:E0; [apply Qeq_bool_iff in E0; lra|].
      assert (Qlt_bool 0 s = true) as -> by (apply Qlt_bool_iff; lra).
      reflexivity.
Qed.

Lemma optimal_duration_bounds_witness :
  let fd : gmap string Entry :=
    <["tired" := mkEntry (Some (Fin 9)) None None]>
    (<["energetic" := mkEntry (Some (Fin 2)) None None]>
    (<["hungry" := mkEntry (Some (Fin 8)) None None]> ∅)) in
  let d := calculateOptimalDuration fd (Fin 30) in
  recommended d = Fin 16
  /\ num_le (Fin 15) (recommended d) = true
  /\ num_le (recommended d) (Double.max (Double.round (Fin 30)) (Fin 15)) = true.
Proof.
  intros fd d.
  assert (Hd : Double.is_double (Fin 30)).
  { split; [reflexivity | reflexivity]. }
  pose proof (optimal_duration_bounds fd (Fin 30) Hd ltac:(discriminate))
    as (H1 & H2 & _).
  split; [vm_compute; reflexivity|]. split; assumption.
Defined.

(** ** handleMessage: participant_joined *)

Import UseWebSocket.

(** C6, as the specification words it, fails: when user 7 is already listed
    as "old" and a participant_joined message for user 7 arrives with the
    name "new", the list is returned as it was; it holds the old entry and
    nothing of the arriving one. *)
Lemma participant_joined_does_not_replace :
  let old := mkParticipant (VNum (Fin 7)) (VStr "old") true in
  let st := UseWebSocket.mkState None "connected" None [] [old] in
  let st' := handleMessage
               (participant_joined (VNum (Fin 7)) (VStr "new")) st in
  participants st' = [old]
  /\ ~ In (mkParticipant (VNum (Fin 7)) (VStr "new") true) (participants st').
Proof.
  split; [reflexivity|].
  intros [H | []]. discriminate H.
Qed.

Lemma find_existsb {A} (f : A -> bool) (l : list A) :
  List.find f l = None <-> existsb f l = false.
Proof.
  induction l as [|a l IH]; simpl; [tauto|].
  destruct (f a); simpl; [split; discriminate | exact IH].
Qed.

(** C6 (amended): a participant_joined message for a user id that is already
    in the list leaves the list exactly as it was (the first entry wins);
    for a user id that is not in the list it appends one entry with the
    message's id and name, marked connected. *)
Theorem participant_joined_keeps_existing (uid uname : Val)
    (st : UseWebSocket.State) :
  let st' := handleMessage (participant_joined uid uname) st in
  let listed := existsb (fun p => strict_eq (user_id p) uid) (participants st) in
  (listed = true -> participants st' = participants st)
  /\ (listed = false ->
      participants st' = participants st ++ [mkParticipant uid uname true]).
Proof.
  intros st' listed. subst st' listed. cbn [handleMessage participants].
  unfold join.
  destruct (List.find _ (participants st)) as [p|] eqn:E.
  - split; [reflexivity|]. intros H. apply find_existsb in H. congruence.
  - split; [|reflexivity]. intros H. apply find_existsb in E. congruence.
Qed.

Lemma participant_joined_keeps_existing_witness :
  let old := mkParticipant (VStr "u1") (VStr "Asha") true in
  let st := UseWebSocket.mkState None "connected" None [] [old] in
  participants (handleMessage (participant_joined (VStr "u1") (VStr "Ash")) st)
  = [old]
  /\ participants (handleMessage (participant_joined (VStr "u2") (VStr "Bo")) st)
     = [old; mkParticipant (VStr "u2") (VStr "Bo") true].
Proof.
  intros old st. split.
  - apply (proj1 (participant_joined_keeps_existing (VStr "u1") (VStr "Ash") st)).
    reflexivity.
  - apply (proj2 (participant_joined_keeps_existing (VStr "u2") (VStr "Bo") st)).
    reflexivity.
Defined.

(** ** Alerts of the monitor *)

Import RealTimeMonitoring.

(** C7, as the specification words it, fails: two snapshots in a row with an
    overall score of 80, and nothing clearing in between, leave two CRITICAL
    alerts in the list, one per analysis. *)
Lemma alert_raised_on_every_analysis :
  let fd := mkFeedback (Some (mkFatigue 80 "high"))
              (Some (mkScores (Fin 5) (Fin 1) (Fin 1))) in
  let alerts := monitor [(1%Z, Some fd); (2%Z, Some fd)] [] in
  List.map title alerts
  = ["CRITICAL: Group fatigue level is high (80.0%)";
     "CRITICAL: Group fatigue level is high (80.0%)"]%string
  /\ List.map id alerts = [2%Z; 1%Z]
  /\ length (risk_alerts alerts) = 2%nat.
Proof. repeat split; vm_compute; reflexivity. Qed.

Lemma category_alerts_keep_head (now : Z) (s : Scores) (a : Alert)
    (rest : list Alert) :
  In a (category_alerts now s (a :: rest)).
Proof.
  unfold category_alerts, addAlert.
  destruct (num_lt (sick s) (Fin 3)), (num_gt (hungry s) (Fin 4)),
    (num_gt (tired s) (Fin 4)); simpl; auto 10.
Qed.

(** C7 (amended): the alert is level-triggered.  Every analysis of a
    snapshot whose overall score exceeds 60 adds an alert for it, CRITICAL
    above 75 and HIGH otherwise, whatever alerts are already in the list;
    the code keeps no record of an alert being raised or cleared. *)
Theorem alert_is_level_triggered (now : Z) (fd : Feedback)
    (fa : FatigueAnalysis) (alerts : list Alert) :
  fatigue_analysis fd = Some fa -> 60 < overall_score fa ->
  exists a,
    overall_alert now fa alerts = a :: take 9 alerts
    /\ id a = now
    /\ title a = fatigue_title
                   (if Qlt_bool 75 (overall_score fa) then "CRITICAL" else "HIGH") fa
    /\ In a (fst (analyzeFeedbackForAlerts now (Some fd) alerts)).
Proof.
  intros Hfa Hscore. unfold analyzeFeedbackForAlerts. rewrite Hfa.
  unfold overall_alert.
  destruct (Qlt_bool 75 (overall_score fa)) eqn:E75.
  - eexists. split; [reflexivity|]. split; [reflexivity|]. split; [reflexivity|].
    destruct (average_scores fd); [apply category_alerts_keep_head | left; reflexivity].
  - apply Qlt_bool_iff in Hscore. rewrite Hscore.
    eexists. split; [reflexivity|]. split; [reflexivity|]. split; [reflexivity|].
    destruct (average_scores fd); [apply category_alerts_keep_head | left; reflexivity].
Qed.

Lemma alert_is_level_triggered_witness :
  let fa := mkFatigue 80 "high" in
  let fd := mkFeedback (Some fa) (Some (mkScores (Fin 5) (Fin 1) (Fin 1))) in
  let raised := overall_alert 1 fa [] in
  exists a, overall_alert 2 fa raised = a :: take 9 raised
            /\ id a = 2%Z
            /\ title a = fatigue_title
                 (if Qlt_bool 75 (overall_score fa) then "CRITICAL" else "HIGH") fa
            /\ In a (fst (analyzeFeedbackForAlerts 2 (Some fd) raised)).
Proof.
  intros fa fd raised.
  apply (alert_is_level_triggered 2 fd fa raised); reflexivity.
Defined.

(** ** retryWithBackoff *)

Section RetryProperties.

Context {S A E : Type}.
Variable fn : S -> (A + E) * S.
Variable random : nat -> Q.

Lemma attempts_length (n : nat) (s : S) : (length (attempts fn n s) <= n)%nat.
Proof.
  revert s. induction n as [|n IH]; intros s; simpl; [lia|].
  destruct (fn s) as [[a|e] s']; simpl; [lia|].
  specialize (IH s'). lia.
Qed.

(** Only the last attempt can be a success. *)
Lemma attempts_earlier_failed (n : nat) (s : S) (i : nat) (r : A + E) :
  attempts fn n s !! i = Some r ->
  (Datatypes.S i < length (attempts fn n s))%nat -> failed r.
Proof.
  revert s i. induction n as [|n IH]; intros s i; simpl; [discriminate|].
  destruct (fn s) as [[a|e] s']; simpl.
  - intros _ H. lia.
  - destruct i as [|i]; cbn.
    + intros H _. exists e. congruence.
    + intros Hi Hlen. apply (IH s' i); [exact Hi | lia].
Qed.

(** When no attempt succeeds, all [n] of them are made. *)
Lemma attempts_all_failed (n : nat) (s : S) :
  Forall failed (attempts fn n s) -> length (attempts fn n s) = n.
Proof.
  revert s. induction n as [|n IH]; intros s; simpl; [reflexivity|].
  destruct (fn s) as [[a|e] s']; simpl; intros H.
  - inversion H as [|? ? [e He] _]. discriminate He.
  - inversion H; subst. f_equal. apply IH. assumption.
Qed.

Lemma retry_loop_spec (maxRetries : nat) (baseDelay : Q)
    (remaining attempt : nat) (lastError : option E) (w : World S) :
  (attempt + remaining = Datatypes.S maxRetries)%nat ->
  let tr := attempts fn remaining (fn_state w) in
  let '(out, w') :=
    retry_loop fn random maxRetries baseDelay remaining attempt lastError w in
  out = match last tr with
        | Some (inl a) => Returned a
        | Some (inr e) => Threw (Some e)
        | None => Threw lastError
        end
  /\ calls w' = (calls w + length tr)%nat.
Proof.
  revert attempt lastError w.
  induction remaining as [|r IH]; intros attempt lastError w Hinv; simpl.
  - split; [reflexivity | lia].
  - unfold invoke. destruct (fn (fn_state w)) as [[a|e] s'] eqn:Efn; simpl.
    + split; [reflexivity | lia].
    + destruct (Nat.eqb_spec attempt maxRetries) as [Heq | Hne].
      * assert (r = 0%nat) as -> by lia. simpl. split; [reflexivity | lia].
      * specialize (IH (Datatypes.S attempt) (Some e)
                      (backoff random baseDelay attempt
                         (mkWorld s' (Datatypes.S (calls w)) (sleeps w) (draws w)))).
        simpl in IH.
        destruct (retry_loop _ _ _ _ _ _ _ _) as [out w'].
        destruct IH as [Hout Hcalls]; [lia|].
        split; [|lia]. rewrite Hout.
        destruct (attempts fn r s') as [|x tr']; [reflexivity|].
        change (last (inr e :: x :: tr')) with (last (x :: tr')).
        destruct (last (x :: tr')) as [[?|?]|] eqn:El; try reflexivity.
        apply last_None in El. discriminate El.
Qed.

(** C8: retryWithBackoff invokes fn once per attempt until an attempt
    returns, and at most maxRetries times.  It returns the value of the
    first attempt that returns without invoking fn again; when every one of
    the maxRetries attempts throws, it throws the error of the last one. *)
Theorem retryWithBackoff_outcome (maxRetries : nat) (baseDelay : Q) (w : World S) :
  let tr := attempts fn maxRetries (fn_state w) in
  let '(out, w') := retryWithBackoff fn random maxRetries baseDelay w in
  out = verdict tr
  /\ calls w' = (calls w + length tr)%nat
  /\ (length tr <= maxRetries)%nat
  /\ (forall i r, tr !! i = Some r -> (Datatypes.S i < length tr)%nat -> failed r)
  /\ (Forall failed tr -> length tr = maxRetries).
Proof.
  intros tr. unfold retryWithBackoff.
  pose proof (retry_loop_spec maxRetries baseDelay maxRetries 1 None w) as H.
  simpl in H. destruct (retry_loop _ _ _ _ _ _ _ _) as [out w'].
  destruct H as [Hout Hcalls]; [lia|].
  split; [exact Hout|]. split; [exact Hcalls|].
  split; [apply attempts_length|].
  split; [apply attempts_earlier_failed | apply attempts_all_failed].
Qed.

End RetryProperties.

(** A thunk that throws twice and then returns: three invocations, the value
    of the third, two delays. *)
Example retry_third_attempt :
  let fn (s : nat) : (string + string) * nat :=
    (if (s <? 2)%nat then inr "down"%string else inl "up"%string, Datatypes.S s) in
  let '(out, w) := retryWithBackoff fn (fun _ => 0) 3 1000 (mkWorld 0%nat 0%nat [] 0%nat) in
  out = Returned "up"%string /\ calls w = 3%nat /\ length (sleeps w) = 2%nat.
Proof. vm_compute. repeat split; reflexivity. Qed.

(** A thunk that always throws: three invocations, then the third error. *)
Example retry_exhausted :
  let fn (s : nat) : (string + nat) * nat := (inr s, Datatypes.S s) in
  let '(out, w) := retryWithBackoff fn (fun _ => 0) 3 1000 (mkWorld 0%nat 0%nat [] 0%nat) in
  out = Threw (Some 2%nat) /\ calls w = 3%nat.
Proof. vm_compute. repeat split; reflexivity. Qed.

Lemma retryWithBackoff_outcome_witness :
  let fn (s : nat) : (string + string) * nat :=
    (if (s <? 1)%nat then inr "down"%string else inl "up"%string, Datatypes.S s) in
  let w := mkWorld 0%nat 0%nat [] 0%nat in
  fst (retryWithBackoff fn (fun _ => 0) 3 1000 w) = verdict (attempts fn 3 0%nat)
  /\ calls (snd (retryWithBackoff fn (fun _ => 0) 3 1000 w)) = 2%nat.
Proof.
  intros fn w.
  pose proof (retryWithBackoff_outcome fn (fun _ => 0) 3 1000 w) as H.
  cbv zeta in H.
  destruct (retryWithBackoff fn (fun _ => 0) 3 1000 w) as [out w'].
  destruct H as (Hout & Hcalls & _). split; [exact Hout | exact Hcalls].
Defined.

(** ** submitFeedbackData: resubmission *)

Import UseFeedback.







(** The second of two submissions leaves nothing of the first in the slot:
    the first one's hungry value is gone and the stored sample is the second
    one's. *)
Example second_submission_only :
  let first := mkExchange {[ "hungry"%string := VNum (Fin 8) ]} 10 11
                 (Responded {[ "id"%string := VNum (Fin 1) ]})
                 (FetchOk (mkServerData ∅ None)) in
  let second := mkExchange {[ "tired"%string := VNum (Fin 3) ]} 20 21
                  (Responded {[ "id"%string := VNum (Fin 2) ]})
                  (FetchOk (mkServerData ∅ None)) in
  let st' := run (VStr "t1") (VStr "a1") [first; second]
               (mkHookState None None false None) in
  (userFeedback st' ≫= (.!! "hungry")) = None
  /\ (userFeedback st' ≫= (.!! "tired")) = Some (VNum (Fin 3))
  /\ (userFeedback st' ≫= (.!! "id")) = Some (VNum (Fin 2)).
Proof. vm_compute. repeat split; reflexivity. Qed.

(** * Further properties of the modelled code *)

(** ** The posted body *)

Lemma json_field_lookup (k k' : string) (v : Val) (body : gmap string Val) :
  json_field k v body !! k'
  = if decide (k = k') then
      match json_value v with Some w => Some w | None => body !! k' end
    else body !! k'.
Proof.
  unfold json_field. destruct (json_value v) as [w|].
  - rewrite lookup_insert. destruct (decide (k = k')); reflexivity.
  - destruct (decide (k = k')); reflexivity.
Qed.

Lemma submit_body_category (fd : gmap string Val) (c : string) :
  In c categories ->
  submit_body fd !! c
  = match json_value (prop fd c) with Some w => Some w | None => None end.
Proof.
  unfold categories, submit_body.
  intros [<- | [<- | [<- | [<- | [<- | []]]]]];
    rewrite !json_field_lookup; simpl;
    destruct (json_value (prop fd _)); reflexivity.
Qed.

Lemma submit_body_activity_id (fd : gmap string Val) :
  submit_body fd !! "activity_id"
  = json_value (js_or (prop fd "activityId") (prop fd "activity_id")).
Proof.
  unfold submit_body. rewrite json_field_lookup. simpl.
  destruct (json_value (js_or _ _)); [reflexivity|].
  rewrite !json_field_lookup. simpl. reflexivity.
Qed.

Lemma accepted_value (fd : gmap string Val) (c : string) :
  isValid (validateFeedbackData fd) = true -> In c categories ->
  rejected_value (prop fd c) = false.
Proof.
  rewrite validateFeedbackData_isValid. intros H Hc.
  apply andb_prop in H as [_ H]. rewrite forallb_forall in H.
  specialize (H c Hc). apply Bool.negb_true_iff in H. exact H.
Qed.

Lemma truthy_json_value (v : Val) : truthy v = true -> is_Some (json_value v).
Proof. destruct v as [| | |[]| |]; simpl; intros H; try discriminate; eauto. Qed.

(** X1: a submission that validateFeedbackData accepts and that holds no
    NaN is posted with each of its five category values unchanged and with
    an activity id. *)
Theorem accepted_submission_posted_unchanged (fd : gmap string Val) :
  isValid (validateFeedbackData fd) = true ->
  (forall c, In c categories -> prop fd c <> VNum NaN) ->
  (forall c, In c categories -> submit_body fd !! c = Some (prop fd c))
  /\ is_Some (submit_body fd !! "activity_id").
Proof.
  intros Hvalid Hnan. split.
  - intros c Hc. rewrite (submit_body_category fd c Hc).
    pose proof (accepted_value fd c Hvalid Hc) as Hacc.
    apply rejected_value_spec in Hacc as [(q & Hq & _) | Hq].
    + rewrite Hq. reflexivity.
    + destruct (Hnan c Hc Hq).
  - rewrite submit_body_activity_id. apply truthy_json_value.
    rewrite validateFeedbackData_isValid in Hvalid.
    apply andb_prop in Hvalid as [Hid _]. unfold missing_activity_id in Hid.
    unfold js_or. destruct (truthy (prop fd "activityId")) eqn:E; [exact E|].
    simpl in Hid. apply Bool.negb_true_iff in Hid.
    apply Bool.negb_false_iff in Hid. exact Hid.
Qed.

Lemma accepted_submission_posted_unchanged_witness :
  let fd : gmap string Val :=
    <["activityId" := VStr "a1"]> (<["tired" := VNum (Fin 8)]>
      ActivityFeedback.default_feedback) in
  (forall c, In c categories -> submit_body fd !! c = Some (prop fd c))
  /\ is_Some (submit_body fd !! "activity_id").
Proof.
  intros fd. apply (accepted_submission_posted_unchanged fd).
  - vm_compute. reflexivity.
  - intros c [<- | [<- | [<- | [<- | [<- | []]]]]]; vm_compute; discriminate.
Defined.

(** ** handleSubmit and the activity id *)

Lemma prop_union_other (m : gmap string Val) (k k' : string) (v : Val) :
  k <> k' -> prop (m ∪ {[ k := v ]}) k' = prop m k'.
Proof.
  intros Hne. unfold prop. rewrite lookup_union, lookup_singleton_ne by exact Hne.
  destruct (m !! k'); reflexivity.
Qed.

Lemma prop_union_fresh (m : gmap string Val) (k : string) (v : Val) :
  m !! k = None -> prop (m ∪ {[ k := v ]}) k = v.
Proof.
  intros Hk. unfold prop. rewrite lookup_union, Hk, lookup_singleton_eq.
  reflexivity.
Qed.

Lemma form_values_ok_union (m : gmap string Val) (v : Val) :
  form_values_ok (m ∪ {[ "activityId"%string := v ]}) = form_values_ok m.
Proof.
  unfold form_values_ok, categories. simpl.
  rewrite !prop_union_other by discriminate. reflexivity.
Qed.

Lemma placeholder_truthy (activityId : Val) (now : Z) :
  truthy (js_or activityId (VStr ("activity-" ++ pretty now))) = true.
Proof.
  unfold js_or. destruct (truthy activityId) eqn:E; [exact E | reflexivity].
Qed.

(** The validation inside handleSubmit looks at the five values only: the
    copy it validates always has an activity id. *)
Lemma form_validation (activityId : Val) (now : Z) (feedback : gmap string Val) :
  feedback !! "activityId" = None ->
  isValid (validateFeedbackData
             (feedback
              ∪ {[ "activityId"%string :=
                     js_or activityId (VStr ("activity-" ++ pretty now)) ]}))
  = form_values_ok feedback.
Proof.
  intros Hk. rewrite validateFeedbackData_isValid.
  unfold missing_activity_id. rewrite (prop_union_fresh _ _ _ Hk).
  rewrite placeholder_truthy. simpl.
  apply form_values_ok_union.
Qed.

(** X2: handleSubmit never rejects for a missing activity id.  With the
    five values in range and no activity id given, it still posts, and the
    body it posts has no activity_id. *)
Theorem handleSubmit_posts_without_activity_id (activityId : Val)
    (onSuccess : bool) (now : Z) (t : Transport) (st : ActivityFeedback.State) :
  ActivityFeedback.feedback st !! "activityId" = None ->
  ActivityFeedback.feedback st !! "activity_id" = None ->
  form_values_ok (ActivityFeedback.feedback st) = true ->
  truthy activityId = false ->
  exists body,
    ActivityFeedback.sent
      (snd (ActivityFeedback.handleSubmit activityId onSuccess now t st)) = [body]
    /\ body !! "activity_id" = None.
Proof.
  intros Hk Hk' Hok Hid. unfold ActivityFeedback.handleSubmit.
  rewrite (form_validation activityId now _ Hk), Hok. simpl.
  eexists. split.
  - destruct (success (submitFeedback t)); reflexivity.
  - rewrite submit_body_activity_id, (prop_union_fresh _ _ _ Hk).
    unfold js_or. rewrite Hid.
    rewrite (prop_union_other _ "activityId" "activity_id") by discriminate.
    unfold prop. rewrite Hk'. reflexivity.
Qed.

Lemma handleSubmit_posts_without_activity_id_witness :
  let st := ActivityFeedback.mkState ActivityFeedback.default_feedback ∅ false None in
  exists body,
    ActivityFeedback.sent
      (snd (ActivityFeedback.handleSubmit VUndefined true 0 (Responded ∅) st)) = [body]
    /\ body !! "activity_id" = None.
Proof.
  intros st.
  apply (handleSubmit_posts_without_activity_id VUndefined true 0 (Responded ∅) st);
    vm_compute; reflexivity.
Defined.

Lemma handleValidationError_texts (texts : list string) :
  handleValidationError (ErrorText <$> texts) = ∅.
Proof.
  unfold handleValidationError.
  generalize (∅ : gmap string string).
  induction texts as [|t texts IH]; intros acc; simpl; [reflexivity | apply IH].
Qed.

(** X3: a validation failure in handleSubmit never yields a field-level
    error.  The messages of validateFeedbackData are plain strings, which
    handleValidationError maps to nothing: whatever field errors were shown
    are replaced by the empty set, and only the general message is set. *)
Theorem handleSubmit_invalid_shows_no_field_error (activityId : Val)
    (onSuccess : bool) (now : Z) (t : Transport) (st : ActivityFeedback.State) :
  ActivityFeedback.feedback st !! "activityId" = None ->
  form_values_ok (ActivityFeedback.feedback st) = false ->
  let st' := fst (ActivityFeedback.handleSubmit activityId onSuccess now t st) in
  ActivityFeedback.errors st' = ∅
  /\ ActivityFeedback.submitMessage st'
     = Some (ActivityFeedback.mkSubmitMessage "error"
               "Please fix the errors below and try again." None).
Proof.
  intros Hk Hbad. unfold ActivityFeedback.handleSubmit.
  rewrite (form_validation activityId now _ Hk), Hbad. simpl.
  split; [apply handleValidationError_texts | reflexivity].
Qed.

Lemma handleSubmit_invalid_shows_no_field_error_witness :
  let st := ActivityFeedback.mkState
              (<["sick" := VNum (Fin 11)]> ActivityFeedback.default_feedback)
              {[ "sick"%string := "old error"%string ]} false None in
  ActivityFeedback.errors
    (fst (ActivityFeedback.handleSubmit (VStr "a1") true 0 (Responded ∅) st)) = ∅.
Proof.
  intros st.
  apply (handleSubmit_invalid_shows_no_field_error (VStr "a1") true 0 (Responded ∅) st);
    vm_compute; reflexivity.
Defined.

(** ** The status line of VotingInterface *)

Lemma rate_full (c : nat) :
  (0 < c)%nat -> countable c -> getResponseRate c c = Fin 100.
Proof.
  intros Hc Hcc. rewrite (getResponseRate_value c c Hc Hcc).
  assert (Eq : inject_Z (Z.of_nat c) / inject_Z (Z.of_nat c) == 1).
  { field. intros E. unfold Qeq in E. simpl in E. lia. }
  assert (Eb : Double.rnd
                 (Double.rnd (inject_Z (Z.of_nat c) / inject_Z (Z.of_nat c)) * 100)
               == 100).
  { rewrite Eq. reflexivity. }
  rewrite (math_round_unique 100); [reflexivity | |];
    rewrite Eb; change (inject_Z 100) with 100; lra.
Qed.

Lemma rate_short (c r : nat) :
  (0 < c < 200)%nat -> (r < c)%nat ->
  exists z : Z, getResponseRate c r = Fin (inject_Z z) /\ (z <= 99)%Z.
Proof.
  intros Hc Hr.
  assert (Hcr : countable r) by (unfold countable; lia).
  rewrite (getResponseRate_value c r ltac:(lia) Hcr).
  eexists. split; [reflexivity|].
  set (q := inject_Z (Z.of_nat r) / inject_Z (Z.of_nat c)).
  assert (Hq : q <= 198 # 199).
  { unfold q. apply Qle_shift_div_r.
    - change 0 with (inject_Z 0). rewrite <- Zlt_Qlt. lia.
    - unfold Qle. simpl. lia. }
  assert (Hq0 : 0 <= q).
  { unfold q. apply Qle_shift_div_l.
    - change 0 with (inject_Z 0). rewrite <- Zlt_Qlt. lia.
    - unfold Qle. simpl. lia. }
  pose proof (rnd_mono _ _ Hq) as Ha.
  pose proof (rnd_nonneg _ Hq0) as Ha0.
  assert (Hb : Double.rnd (Double.rnd q * 100)
               <= Double.rnd (Double.rnd (198 # 199) * 100))
    by (apply rnd_mono; lra).
  apply math_round_mono in Hb.
  assert (E : math_round (Double.rnd (Double.rnd (198 # 199) * 100)) = 99%Z)
    by (vm_compute; reflexivity).
  lia.
Qed.

(** X4: while fewer than 200 participants are counted, the status line
    announces that all participants have responded exactly when the
    responded count equals the participant count.  The bound is sharp: with
    199 of 200 the rounded rate is already 100 and the same announcement is
    made. *)
Theorem complete_iff_all_responded (participantCount respondedParticipants : nat) :
  (0 < participantCount < 200)%nat ->
  (respondedParticipants <= participantCount)%nat ->
  (VotingStatus.getStatusMessage false participantCount respondedParticipants
   = VotingStatus.complete
   <-> respondedParticipants = participantCount)
  /\ VotingStatus.getStatusMessage false 200 199 = VotingStatus.complete.
Proof.
  intros [Hpos Hlt] Hle. split; [|vm_compute; reflexivity].
  unfold VotingStatus.getStatusMessage.
  destruct (Nat.eq_dec respondedParticipants participantCount) as [E | E].
  - subst respondedParticipants.
    rewrite rate_full by (unfold countable; lia).
    split; reflexivity.
  - destruct (rate_short participantCount respondedParticipants) as (z & -> & Hz);
      [lia | lia |].
    split; [|intros H; contradiction].
    cbn [strict_eq].
    destruct (Qeq_bool (inject_Z z) 100) eqn:E100.
    + apply Qeq_bool_iff in E100. unfold Qeq in E100. simpl in E100. lia.
    + destruct (num_gt _ _); discriminate.
Qed.

Lemma complete_iff_all_responded_witness :
  VotingStatus.getStatusMessage false 4 4 = VotingStatus.complete <-> 4%nat = 4%nat.
Proof.
  apply (proj1 (complete_iff_all_responded 4 4 ltac:(lia) ltac:(lia))).
Defined.

(** ** The feedback modal inside VotingInterface *)




(** ** Severity tiers and the form's levels *)

Lemma calculateSeverity_normal (q : Q) (k : string) (c : Category) :
  1 <= q <= 10 -> FEEDBACK_CATEGORIES !! k = Some c -> inverseScale c = false ->
  calculateSeverity (VNum (Fin q)) k = normal_scale_tier (Fin q).
Proof.
  intros Hq Hk Hinv. unfold calculateSeverity.
  rewrite (in_scale_guard q Hq), (get_own _ _ _ Hk), Hinv. reflexivity.
Qed.

(** X6: within the 1-10 scale a higher value never gets a less severe tier
    on a higher-is-worse category, and never a more severe tier on a
    lower-is-worse category. *)
Theorem calculateSeverity_monotone (p q : Q) (k : string) (c : Category) :
  1 <= p -> p <= q -> q <= 10 ->
  FEEDBACK_CATEGORIES !! k = Some c ->
  let sp := severity_value (calculateSeverity (VNum (Fin p)) k) in
  let sq := severity_value (calculateSeverity (VNum (Fin q)) k) in
  if inverseScale c then (sq <= sp)%Z else (sp <= sq)%Z.
Proof.
  intros Hp Hpq Hq Hk sp sq. subst sp sq.
  destruct (inverseScale c) eqn:Hinv.
  - rewrite (calculateSeverity_inverse p k c), (calculateSeverity_inverse q k c)
      by (try split; try assumption; lra).
    unfold inverse_scale_tier, num_le. qtest; simpl; try lia; exfalso; lra.
  - rewrite (calculateSeverity_normal p k c), (calculateSeverity_normal q k c)
      by (try split; try assumption; lra).
    unfold normal_scale_tier, num_ge, num_le. qtest; simpl; try lia; exfalso; lra.
Qed.

Lemma calculateSeverity_monotone_witness :
  (severity_value (calculateSeverity (VNum (Fin 4)) "hungry")
   <= severity_value (calculateSeverity (VNum (Fin 8)) "hungry"))%Z.
Proof.
  apply (calculateSeverity_monotone 4 8 "hungry" (mkCategory "hungry" "Hungry" false 7));
    try (vm_compute; discriminate).
  vm_compute. reflexivity.
Defined.

(** ** More on the overall risk level *)

Lemma risk_chain_not_unknown (avgRisk : Num) :
  (if num_ge avgRisk (Fin (45 # 10)) then "CRITICAL"
   else if num_ge avgRisk (Fin (35 # 10)) then "HIGH"
   else if num_ge avgRisk (Fin (25 # 10)) then "MODERATE"
   else if num_ge avgRisk (Fin (15 # 10)) then "LOW"
   else "EXCELLENT")%string <> "UNKNOWN"%string.
Proof.
  destruct (num_ge avgRisk (Fin (45 # 10))); [discriminate|].
  destruct (num_ge avgRisk (Fin (35 # 10))); [discriminate|].
  destruct (num_ge avgRisk (Fin (25 # 10))); [discriminate|].
  destruct (num_ge avgRisk (Fin (15 # 10))); discriminate.
Qed.

(** X7: getOverallRiskLevel answers UNKNOWN exactly when there is no
    feedback data or none of the five categories has a non-empty severity;
    as soon as one category has one, a risk level is reported from the
    categories that have. *)
Theorem unknown_iff_no_severity (feedbackData : option (gmap string Entry)) :
  RiskLevel.getOverallRiskLevel feedbackData = "UNKNOWN"%string
  <-> match feedbackData with
      | None => True
      | Some fd => forall cat, In cat categories -> severity_of fd cat = None
      end.
Proof.
  destruct feedbackData as [fd|]; [|split; [trivial | reflexivity]].
  unfold RiskLevel.getOverallRiskLevel. cbn [omap list_omap].
  unfold categories. split.
  - intros H cat Hcat.
    destruct (severity_of fd "tired") eqn:E1;
      [exfalso; revert H; cbn [length Nat.eqb]; apply risk_chain_not_unknown|].
    destruct (severity_of fd "energetic") eqn:E2;
      [exfalso; revert H; cbn [length Nat.eqb]; apply risk_chain_not_unknown|].
    destruct (severity_of fd "sick") eqn:E3;
      [exfalso; revert H; cbn [length Nat.eqb]; apply risk_chain_not_unknown|].
    destruct (severity_of fd "hungry") eqn:E4;
      [exfalso; revert H; cbn [length Nat.eqb]; apply risk_chain_not_unknown|].
    destruct (severity_of fd "adventurous") eqn:E5;
      [exfalso; revert H; cbn [length Nat.eqb]; apply risk_chain_not_unknown|].
    simpl in Hcat.
    destruct Hcat as [<- | [<- | [<- | [<- | [<- | []]]]]]; assumption.
  - intros H.
    rewrite (H "tired"), (H "energetic"), (H "sick"), (H "hungry"),
      (H "adventurous") by (simpl; tauto).
    reflexivity.
Qed.

Lemma severity_of_has (fd : gmap string Entry) (cat s : string) :
  has_severity fd cat s -> severity_of fd cat = Some s.
Proof.
  intros (data & Hd & Hs & Hne). unfold severity_of. rewrite Hd, Hs.
  simpl. destruct (String.eqb_spec s ""); [contradiction | reflexivity].
Qed.

(** X8: on a snapshot in which every category has a non-empty severity, the
    dashboard's getOverallRiskLevel and the hook's report the same level. *)
Theorem dashboard_agrees_with_hook (fd : gmap string Entry)
    (s1 s2 s3 s4 s5 : string) :
  has_severity fd "tired" s1 -> has_severity fd "energetic" s2 ->
  has_severity fd "sick" s3 -> has_severity fd "hungry" s4 ->
  has_severity fd "adventurous" s5 ->
  FeedbackDashboard.getOverallRiskLevel fd
  = Some (RiskLevel.getOverallRiskLevel (Some fd)).
Proof.
  intros H1 H2 H3 H4 H5.
  unfold RiskLevel.getOverallRiskLevel. cbn [omap list_omap].
  rewrite (severity_of_has _ _ _ H1), (severity_of_has _ _ _ H2),
    (severity_of_has _ _ _ H3), (severity_of_has _ _ _ H4),
    (severity_of_has _ _ _ H5).
  destruct H1 as (d1 & L1 & V1 & _), H2 as (d2 & L2 & V2 & _),
    H3 as (d3 & L3 & V3 & _), H4 as (d4 & L4 & V4 & _),
    H5 as (d5 & L5 & V5 & _).
  unfold FeedbackDashboard.getOverallRiskLevel. cbn [mapM].
  rewrite L1, L2, L3, L4, L5. cbn [mbind option_bind mret option_ret fmap list_fmap].
  rewrite V1, V2, V3, V4, V5.
  cbn [length Nat.eqb fold_left FeedbackDashboard.weight_of_severity].
  unfold add_weight. reflexivity.
Qed.

Lemma dashboard_agrees_with_hook_witness :
  let fd : gmap string Entry :=
    <["tired" := mkEntry (Some (Fin 9)) None (Some "CRITICAL")]>
    (<["energetic" := mkEntry (Some (Fin 5)) None (Some "MODERATE")]>
    (<["sick" := mkEntry (Some (Fin 7)) None (Some "unwell")]>
    (<["hungry" := mkEntry (Some (Fin 8)) None (Some "HIGH")]>
    (<["adventurous" := mkEntry (Some (Fin 6)) None (Some "LOW")]> ∅)))) in
  FeedbackDashboard.getOverallRiskLevel fd
  = Some (RiskLevel.getOverallRiskLevel (Some fd)).
Proof.
  intros fd.
  apply (dashboard_agrees_with_hook fd "CRITICAL" "MODERATE" "unwell" "HIGH" "LOW");
    eexists; (split; [vm_compute; reflexivity | split; [reflexivity | discriminate]]).
Defined.

Lemma overall_risk_five (fd : gmap string Entry) (t1 t2 t3 t4 t5 : Severity) :
  carries fd "tired" t1 -> carries fd "energetic" t2 ->
  carries fd "sick" t3 -> carries fd "hungry" t4 ->
  carries fd "adventurous" t5 ->
  RiskLevel.getOverallRiskLevel (Some fd)
  = risk_chain
      ((0 + inject_Z (severity_value t1) + inject_Z (severity_value t2)
        + inject_Z (severity_value t3) + inject_Z (severity_value t4)
        + inject_Z (severity_value t5)) / 5).
Proof.
  intros H1 H2 H3 H4 H5.
  unfold RiskLevel.getOverallRiskLevel. cbn [omap list_omap].
  rewrite (severity_of_carries _ _ _ H1), (severity_of_carries _ _ _ H2),
    (severity_of_carries _ _ _ H3), (severity_of_carries _ _ _ H4),
    (severity_of_carries _ _ _ H5).
  cbn [length Nat.eqb fold_left]. unfold add_weight.
  rewrite !weight_of_tier. reflexivity.
Qed.

Lemma risk_chain_critical (q : Q) :
  risk_chain q = "CRITICAL"%string -> (45 # 10) <= q.
Proof.
  unfold risk_chain. qtest; try discriminate. intros _. assumption.
Qed.

Lemma tier_critical_or_below (t : Severity) :
  (severity_value t = 5 /\ (severity_value t =? 5) = true)%Z
  \/ (1 <= severity_value t <= 4 /\ (severity_value t =? 5) = false)%Z.
Proof. destruct t; simpl; lia. Qed.

(** X9: when all five categories carry a tier, the overall risk level is
    CRITICAL only if at least three of them are CRITICAL; one or two
    critical categories never make the overall level critical. *)
Theorem overall_critical_needs_three (fd : gmap string Entry)
    (t1 t2 t3 t4 t5 : Severity) :
  carries fd "tired" t1 -> carries fd "energetic" t2 ->
  carries fd "sick" t3 -> carries fd "hungry" t4 ->
  carries fd "adventurous" t5 ->
  RiskLevel.getOverallRiskLevel (Some fd) = "CRITICAL"%string ->
  (3 <= critical_count [t1; t2; t3; t4; t5])%nat.
Proof.
  intros H1 H2 H3 H4 H5 Hcrit.
  rewrite (overall_risk_five fd t1 t2 t3 t4 t5 H1 H2 H3 H4 H5) in Hcrit.
  apply risk_chain_critical in Hcrit.
  match type of Hcrit with
  | _ <= ?s / 5 =>
      pose proof (Qmult_div_r s 5 ltac:(discriminate)) as Hq;
      set (q := s / 5) in *
  end.
  assert ((45 # 2) <= inject_Z (severity_value t1 + severity_value t2
                                + severity_value t3 + severity_value t4
                                + severity_value t5)) as Hsum
    by (rewrite !inject_Z_plus; lra).
  assert (23 <= severity_value t1 + severity_value t2 + severity_value t3
                + severity_value t4 + severity_value t5)%Z as HZ.
  { unfold Qle in Hsum. simpl in Hsum. lia. }
  unfold critical_count. cbn [List.filter].
  destruct (tier_critical_or_below t1) as [[? ->] | [? ->]],
    (tier_critical_or_below t2) as [[? ->] | [? ->]],
    (tier_critical_or_below t3) as [[? ->] | [? ->]],
    (tier_critical_or_below t4) as [[? ->] | [? ->]],
    (tier_critical_or_below t5) as [[? ->] | [? ->]];
    cbn [length]; lia.
Qed.

Lemma overall_critical_needs_three_witness :
  let fd : gmap string Entry :=
    <["tired" := mkEntry None None (Some "CRITICAL")]>
    (<["energetic" := mkEntry None None (Some "CRITICAL")]>
    (<["sick" := mkEntry None None (Some "CRITICAL")]>
    (<["hungry" := mkEntry None None (Some "HIGH")]>
    (<["adventurous" := mkEntry None None (Some "HIGH")]> ∅)))) in
  (3 <= critical_count [CRITICAL; CRITICAL; CRITICAL; HIGH; HIGH])%nat.
Proof.
  intros fd.
  apply (overall_critical_needs_three fd CRITICAL CRITICAL CRITICAL HIGH HIGH);
    [eexists; (split; [vm_compute; reflexivity | reflexivity]) ..
    | vm_compute; reflexivity].
Defined.

(** X10: the overall risk level is monotone in the category tiers: if every
    category of one snapshot is at least as severe as in another, its
    overall level is at least as severe too. *)
Theorem overall_risk_monotone (fd fd' : gmap string Entry)
    (t1 t2 t3 t4 t5 u1 u2 u3 u4 u5 : Severity) :
  carries fd "tired" t1 -> carries fd "energetic" t2 ->
  carries fd "sick" t3 -> carries fd "hungry" t4 ->
  carries fd "adventurous" t5 ->
  carries fd' "tired" u1 -> carries fd' "energetic" u2 ->
  carries fd' "sick" u3 -> carries fd' "hungry" u4 ->
  carries fd' "adventurous" u5 ->
  (severity_value t1 <= severity_value u1)%Z ->
  (severity_value t2 <= severity_value u2)%Z ->
  (severity_value t3 <= severity_value u3)%Z ->
  (severity_value t4 <= severity_value u4)%Z ->
  (severity_value t5 <= severity_value u5)%Z ->
  exists t u,
    RiskLevel.getOverallRiskLevel (Some fd) = severity_name t
    /\ RiskLevel.getOverallRiskLevel (Some fd') = severity_name u
    /\ (severity_value t <= severity_value u)%Z.
Proof.
  intros H1 H2 H3 H4 H5 K1 K2 K3 K4 K5 L1 L2 L3 L4 L5.
  rewrite (overall_risk_five fd t1 t2 t3 t4 t5 H1 H2 H3 H4 H5).
  rewrite (overall_risk_five fd' u1 u2 u3 u4 u5 K1 K2 K3 K4 K5).
  rewrite Zle_Qle in L1, L2, L3, L4, L5.
  pose proof (severity_value_range t1). pose proof (severity_value_range t2).
  pose proof (severity_value_range t3). pose proof (severity_value_range t4).
  pose proof (severity_value_range t5). pose proof (severity_value_range u1).
  pose proof (severity_value_range u2). pose proof (severity_value_range u3).
  pose proof (severity_value_range u4). pose proof (severity_value_range u5).
  match goal with
  | |- context [risk_chain (?s / 5)] =>
      pose proof (Qmult_div_r s 5 ltac:(discriminate)) as Hm;
      set (m := s / 5) in *
  end.
  match goal with
  | |- context [risk_chain (?s / 5)] =>
      pose proof (Qmult_div_r s 5 ltac:(discriminate)) as Hm';
      set (m' := s / 5) in *
  end.
  destruct (risk_chain_rounds m m) as (t & _ & Ht & Hlo & Hhi);
    [reflexivity | lra |].
  destruct (risk_chain_rounds m' m') as (u & _ & Hu & Hlo' & Hhi');
    [reflexivity | lra |].
  exists t, u. split; [exact Ht|]. split; [exact Hu|].
  assert (inject_Z (severity_value t) < inject_Z (severity_value u + 1)) as Hlt
    by (rewrite inject_Z_plus; change (inject_Z 1) with 1; lra).
  rewrite <- Zlt_Qlt in Hlt. lia.
Qed.

Lemma overall_risk_monotone_witness :
  let fd : gmap string Entry :=
    <["tired" := mkEntry None None (Some "LOW")]>
    (<["energetic" := mkEntry None None (Some "LOW")]>
    (<["sick" := mkEntry None None (Some "LOW")]>
    (<["hungry" := mkEntry None None (Some "HIGH")]>
    (<["adventurous" := mkEntry None None (Some "HIGH")]> ∅)))) in
  let fd' : gmap string Entry := <["tired" := mkEntry None None (Some "CRITICAL")]> fd in
  exists t u,
    RiskLevel.getOverallRiskLevel (Some fd) = severity_name t
    /\ RiskLevel.getOverallRiskLevel (Some fd') = severity_name u
    /\ (severity_value t <= severity_value u)%Z.
Proof.
  intros fd fd'.
  apply (overall_risk_monotone fd fd' LOW LOW LOW HIGH HIGH CRITICAL LOW LOW HIGH HIGH);
    first [ eexists; (split; [vm_compute; reflexivity | reflexivity])
          | vm_compute; discriminate ].
Defined.

(** ** Error classes *)

(** X11: an error made from an HTTP response is reported retriable exactly
    when the status is 500 or above, and is kept from notification exactly
    when the status is 401; defaultErrorHandler hands such an error back
    unchanged. *)
Theorem response_error_classes (status : Z) (statusText : string)
    (responseMessage : option string) :
  let e := ErrorClasses.createErrorFromResponse status statusText responseMessage in
  exists h,
    ErrorClasses.defaultErrorHandler (ErrorClasses.IsAppError e) = Some h
    /\ ErrorClasses.error h = e
    /\ (ErrorClasses.isRetriable h = true <-> (500 <= status)%Z)
    /\ (ErrorClasses.shouldShowNotification e = false <-> status = 401%Z).
Proof.
  intros e. subst e. eexists. split; [reflexivity|].
  unfold ErrorClasses.createErrorFromResponse.
  split; [reflexivity|].
  destruct (Z.eqb_spec status 401) as [-> | H401]; simpl;
    [split; split; intros Hx;
       first [reflexivity | discriminate Hx | lia]|].
  destruct (Z.eqb_spec status 403) as [-> | H403]; simpl;
    [split; split; intros Hx;
       first [reflexivity | discriminate Hx | lia]|].
  destruct (Z.leb_spec 400 status), (Z.ltb_spec status 500); simpl;
    try (destruct (Z.leb_spec 500 status); simpl);
    split; split; intros Hx;
    first [reflexivity | discriminate Hx | lia
          | apply Z.leb_le; lia | apply Z.leb_le in Hx; lia].
Qed.


(** ** The delays of retryWithBackoff *)

Section RetryDelays.

Context {S A E : Type}.
Variable fn : S -> (A + E) * S.
Variable random : nat -> Q.



(** The upper end is reached: a draw just below 1 gives, with a base delay
    of 1000 ms, a first delay of exactly 2000 ms. *)
Example delay_reaches_upper_end :
  backoff_delay (fun _ => 1 - (1 # 9007199254740992)) 1000 1 0 == 2000.
Proof. vm_compute. reflexivity. Qed.

End RetryDelays.

Section RetryFraction.

Context {S A E : Type}.
Variable fn : S -> (A + E) * S.
Variable random : nat -> Q.

Lemma retry_loop_unreached (maxRetries : nat) (baseDelay : Q)
    (remaining attempt : nat) (lastError : option E) (w : World S) :
  (attempt + remaining <= maxRetries)%nat ->
  let tr := attempts fn remaining (fn_state w) in
  let '(out, w') := retry_loop fn random maxRetries baseDelay remaining attempt
                      lastError w in
  calls w' = (calls w + length tr)%nat
  /\ (Forall failed tr ->
      length (sleeps w') = (length (sleeps w) + length tr)%nat
      /\ out = Threw (match last tr with
                      | Some (inr e) => Some e
                      | _ => lastError
                      end)).
Proof.
  revert attempt lastError w.
  induction remaining as [|r IH]; intros attempt lastError w Hinv; simpl.
  - split; [lia|]. intros _. split; [lia | reflexivity].
  - unfold invoke. destruct (fn (fn_state w)) as [[a|e] s'] eqn:Efn; simpl.
    + split; [lia|]. intros Hall. inversion Hall as [|x l [e' He'] Hl]; discriminate He'.
    + destruct (Nat.eqb_spec attempt maxRetries) as [Heq | Hne]; [lia|].
      specialize (IH (Datatypes.S attempt) (Some e)
                    (backoff random baseDelay attempt
                       (mkWorld s' (Datatypes.S (calls w)) (sleeps w) (draws w)))
                    ltac:(lia)).
      simpl in IH.
      destruct (retry_loop _ _ _ _ _ _ _ _) as [out w'].
      destruct IH as [Hcalls Hrest]. split; [lia|].
      intros Hall. inversion Hall as [|x l _ Hl]; subst.
      destruct (Hrest Hl) as [Hs Hout]. rewrite length_app in Hs. simpl in Hs.
      split; [lia|]. rewrite Hout. f_equal.
      destruct (attempts fn r s') as [|x tr']; [reflexivity|].
      change (last (inr e :: x :: tr')) with (last (x :: tr')).
      destruct (last (x :: tr')) as [[?|?]|] eqn:El; try reflexivity.
      * apply last_Some in El as [l' El].
        rewrite El in Hl. apply Forall_app in Hl as [_ Hl].
        inversion Hl as [|y l0 [e' He'] _]; discriminate He'.
      * apply last_None in El. discriminate El.
Qed.

(** X31: with a [maxRetries] that is a finite number but not a whole one,
    the attempts are those up to its integer part, and when every one of
    them throws there is a delay after each, the last included, before the
    last error is thrown: the test that skips the final delay never
    succeeds. *)
Theorem fractional_retries_sleep_after_last (maxRetries baseDelay : Q) (w : World S) :
  ~ inject_Z (Qfloor maxRetries) == maxRetries ->
  let tr := attempts fn (Z.to_nat (Qfloor maxRetries)) (fn_state w) in
  let '(out, w') := retryWithBackoff_number fn random maxRetries baseDelay w in
  calls w' = (calls w + length tr)%nat
  /\ (length tr <= Z.to_nat (Qfloor maxRetries))%nat
  /\ (Forall failed tr ->
      length tr = Z.to_nat (Qfloor maxRetries)
      /\ length (sleeps w') = (length (sleeps w) + length tr)%nat
      /\ out = Threw (match last tr with Some (inr e) => Some e | _ => None end)).
Proof.
  intros Hfrac tr. unfold retryWithBackoff_number.
  destruct (Qeq_bool (inject_Z (Qfloor maxRetries)) maxRetries) eqn:Eq.
  { apply Qeq_bool_iff in Eq. contradiction. }
  set (k := Z.to_nat (Qfloor maxRetries)) in *.
  pose proof (retry_loop_unreached (Datatypes.S k) baseDelay k 1 None w ltac:(lia))
    as H.
  cbv zeta in H. fold tr in H.
  destruct (retry_loop _ _ _ _ _ _ _ _) as [out w'].
  destruct H as [Hcalls Hrest].
  split; [exact Hcalls|]. split; [apply attempts_length|].
  intros Hall. split; [apply attempts_all_failed; exact Hall|].
  apply Hrest, Hall.
Qed.

End RetryFraction.

Lemma fractional_retries_sleep_after_last_witness :
  let fn (s : nat) : (string + string) * nat := (inr "down"%string, Datatypes.S s) in
  let '(out, w') :=
    retryWithBackoff_number fn (fun _ => 1 # 2) (5 # 2) 1000
      (mkWorld 0%nat 0%nat [] 0%nat) in
  calls w' = 2%nat /\ length (sleeps w') = 2%nat /\ out = Threw (Some "down"%string).
Proof.
  intros fn.
  pose proof (fractional_retries_sleep_after_last fn (fun _ => 1 # 2) (5 # 2) 1000
                (mkWorld 0%nat 0%nat [] 0%nat) ltac:(vm_compute; congruence)) as H.
  cbv zeta in H.
  destruct (retryWithBackoff_number _ _ _ _ _) as [out w'].
  destruct H as (Hc & _ & Hall).
  destruct Hall as (_ & Hs & Ho); [repeat constructor; eexists; reflexivity|].
  repeat split; assumption.
Defined.


(** ** The participant list *)

Lemma distinct_ids_app (l : list Participant) (p : Participant) :
  Room.distinct_ids l = true -> Room.listed (user_id p) l = false ->
  Room.distinct_ids (l ++ [p]) = true.
Proof.
  induction l as [|a l IH]; simpl; [reflexivity|].
  intros Hd Hl. apply andb_prop in Hd as [Ha Hd].
  apply Bool.orb_false_iff in Hl as [Hap Hl].
  rewrite forallb_app, Ha, (IH Hd Hl). simpl. rewrite Hap. reflexivity.
Qed.

Lemma distinct_ids_filter (f : Participant -> bool) (l : list Participant) :
  Room.distinct_ids l = true -> Room.distinct_ids (List.filter f l) = true.
Proof.
  induction l as [|a l IH]; simpl; [reflexivity|].
  intros Hd. apply andb_prop in Hd as [Ha Hd].
  destruct (f a); simpl; [|apply IH; exact Hd].
  rewrite (IH Hd), Bool.andb_true_r.
  rewrite forallb_forall in *. intros q Hq.
  apply Ha. apply filter_In in Hq. tauto.
Qed.

(** X14: no message other than initial_data can make the participant list
    hold two entries with the same user id: if the ids were distinct before
    the message, they are distinct after it. *)
Theorem handleMessage_keeps_ids_distinct (m : Message) (st : UseWebSocket.State) :
  Room.is_initial_data m = false ->
  Room.distinct_ids (participants st) = true ->
  Room.distinct_ids (participants (handleMessage m st)) = true.
Proof.
  intros Hm Hd. destruct m; try discriminate Hm; simpl; try exact Hd.
  - unfold join. destruct (List.find _ (participants st)) eqn:E; [exact Hd|].
    apply distinct_ids_app; [exact Hd|]. apply find_existsb in E. exact E.
  - apply distinct_ids_filter. exact Hd.
  - destruct (truthy preview); exact Hd.
  - destruct (strict_eq _ _); exact Hd.
Qed.

Lemma handleMessage_keeps_ids_distinct_witness :
  let st := UseWebSocket.mkState None "connected" None []
              [mkParticipant (VStr "u1") (VStr "Asha") true] in
  Room.distinct_ids
    (participants (handleMessage (participant_joined (VStr "u1") (VStr "Ash")) st))
  = true.
Proof.
  intros st.
  apply (handleMessage_keeps_ids_distinct (participant_joined (VStr "u1") (VStr "Ash")) st);
    reflexivity.
Defined.

Lemma filter_unlisted (uid : Val) (l : list Participant) :
  Room.listed uid l = false ->
  List.filter (fun p => negb (strict_eq (user_id p) uid)) l = l.
Proof.
  induction l as [|a l IH]; simpl; [reflexivity|].
  intros H. apply Bool.orb_false_iff in H as [Ha Hl].
  rewrite Ha. simpl. f_equal. apply IH. exact Hl.
Qed.

Lemma filter_removes (uid : Val) (l : list Participant) :
  Room.listed uid (List.filter (fun p => negb (strict_eq (user_id p) uid)) l)
  = false.
Proof.
  induction l as [|a l IH]; simpl; [reflexivity|].
  destruct (strict_eq (user_id a) uid) eqn:E; simpl; [exact IH|].
  rewrite E. exact IH.
Qed.

(** X15: participant_left undoes participant_joined.  For a user id that
    equals itself (any string or number but NaN) and is not in the list,
    joining and then leaving gives back the list as it was; and after a
    participant_left message no entry with that id remains, whatever the
    list held. *)
Theorem join_then_leave (uid uname : Val) (st : UseWebSocket.State) :
  strict_eq uid uid = true ->
  Room.listed uid (participants st) = false ->
  participants (handleMessage (participant_left uid)
                  (handleMessage (participant_joined uid uname) st))
  = participants st
  /\ forall st0, Room.listed uid
                   (participants (handleMessage (participant_left uid) st0))
                 = false.
Proof.
  intros Hrefl Habsent. split.
  - simpl. unfold join.
    destruct (List.find _ (participants st)) eqn:E.
    + apply filter_unlisted. exact Habsent.
    + rewrite List.filter_app, (filter_unlisted uid _ Habsent). simpl.
      rewrite Hrefl. simpl. apply app_nil_r.
  - intros st0. simpl. apply filter_removes.
Qed.

Lemma join_then_leave_witness :
  let st := UseWebSocket.mkState None "connected" None []
              [mkParticipant (VStr "u1") (VStr "Asha") true] in
  participants (handleMessage (participant_left (VStr "u2"))
                  (handleMessage (participant_joined (VStr "u2") (VStr "Bo")) st))
  = participants st.
Proof.
  intros st.
  apply (proj1 (join_then_leave (VStr "u2") (VStr "Bo") st
                  ltac:(reflexivity) ltac:(reflexivity))).
Defined.

(** X16: the recent-feedback list is capped at ten.  A feedback message
    with a preview leaves at most ten items whatever the list held, and no
    message other than initial_data makes a list of at most ten longer than
    ten. *)
Theorem recentFeedback_capped (m : Message) (st : UseWebSocket.State) :
  Room.is_initial_data m = false ->
  (forall uid preview ts, m = feedback_received uid preview ts ->
     truthy preview = true ->
     (length (recentFeedback (handleMessage m st)) <= 10)%nat)
  /\ ((length (recentFeedback st) <= 10)%nat ->
      (length (recentFeedback (handleMessage m st)) <= 10)%nat).
Proof.
  intros Hm. split.
  - intros uid preview ts -> Hp. simpl. rewrite Hp. simpl.
    rewrite length_take. lia.
  - intros Hlen. destruct m; try discriminate Hm; simpl; try exact Hlen.
    + destruct (truthy preview); simpl; [rewrite length_take; lia | exact Hlen].
    + destruct (strict_eq _ _); exact Hlen.
Qed.

Lemma recentFeedback_capped_witness :
  let st := UseWebSocket.mkState None "connected" None [] [] in
  (length (recentFeedback
             (handleMessage (feedback_received (VStr "u1") (VStr "tired") VNull) st))
   <= 10)%nat.
Proof.
  intros st.
  apply (proj2 (recentFeedback_capped
                  (feedback_received (VStr "u1") (VStr "tired") VNull) st
                  ltac:(reflexivity))).
  simpl. lia.
Defined.

(** ** Reconnection *)

Lemma scheduleReconnect_within (c : Reconnect.Conn) :
  Reconnect.within_limits c -> Reconnect.within_limits (Reconnect.scheduleReconnect c).
Proof.
  intros [Hn Hs]. unfold Reconnect.scheduleReconnect, Reconnect.within_limits in *.
  unfold Reconnect.MAX_RECONNECT_ATTEMPTS, Reconnect.RECONNECT_DELAY in *.
  destruct (Nat.leb_spec 5 (Reconnect.reconnectAttempts c)); simpl.
  - split; assumption.
  - split; [lia|]. apply Forall_app. split; [exact Hs|].
    constructor; [lia | constructor].
Qed.

Lemma step_within (c : Reconnect.Conn) (e : Reconnect.Event) :
  Reconnect.within_limits c -> Reconnect.within_limits (Reconnect.step c e).
Proof.
  intros H. destruct e; simpl.
  - exact H.
  - apply scheduleReconnect_within. exact H.
  - destruct H as [_ Hs]. split; [unfold Reconnect.MAX_RECONNECT_ATTEMPTS; simpl; lia | exact Hs].
  - destruct (negb (code =? 1000)%Z && _);
      [apply scheduleReconnect_within|]; exact H.
  - exact H.
Qed.

(** X17: whatever sequence of socket events occurs, the reconnect counter
    never exceeds five and every reconnect is scheduled between 2000 and
    10000 milliseconds out. *)
Theorem reconnect_within_limits (events : list Reconnect.Event) :
  Reconnect.within_limits (Reconnect.run events Reconnect.initial).
Proof.
  assert (forall c, Reconnect.within_limits c ->
                    Reconnect.within_limits (Reconnect.run events c)) as H.
  { induction events as [|e events IH]; intros c Hc; simpl; [exact Hc|].
    apply IH, step_within, Hc. }
  apply H. split; [unfold Reconnect.MAX_RECONNECT_ATTEMPTS; simpl; lia | constructor].
Qed.

(** X18: a close event never sets the status to failed.  An abnormal close
    while attempts remain schedules the next reconnect 2000 ms times the new
    attempt number out; a normal close, or a close once the five attempts
    are used, schedules nothing and leaves the status at disconnected. *)
Theorem close_never_fails (code : Z) (c : Reconnect.Conn) :
  let c' := Reconnect.step c (Reconnect.closed code) in
  Reconnect.connectionStatus c' <> "failed"%string
  /\ (code <> 1000%Z -> (Reconnect.reconnectAttempts c < 5)%nat ->
      Reconnect.scheduled c'
      = Reconnect.scheduled c
        ++ [(2000 * Z.of_nat (Datatypes.S (Reconnect.reconnectAttempts c)))%Z]
      /\ Reconnect.reconnectAttempts c'
         = Datatypes.S (Reconnect.reconnectAttempts c))
  /\ (code = 1000%Z \/ (5 <= Reconnect.reconnectAttempts c)%nat ->
      Reconnect.scheduled c' = Reconnect.scheduled c
      /\ Reconnect.connectionStatus c' = "disconnected"%string).
Proof.
  intros c'. subst c'.
  unfold Reconnect.step, Reconnect.scheduleReconnect,
    Reconnect.MAX_RECONNECT_ATTEMPTS, Reconnect.RECONNECT_DELAY.
  cbn -[Nat.leb Nat.ltb Z.mul Z.of_nat pretty String.append].
  destruct (Z.eqb_spec code 1000) as [Hc | Hc];
    destruct (Nat.ltb_spec (Reconnect.reconnectAttempts c) 5) as [Hlt | Hge];
    destruct (Nat.leb_spec 5 (Reconnect.reconnectAttempts c)) as [Hle | Hgt];
    try lia; cbn -[Z.mul Z.of_nat pretty];
    (split; [discriminate|]); (split; [intros; first [contradiction | lia | auto] |]);
    intros [H' | H']; first [contradiction | lia | auto].
Qed.

(** Six abnormal closes in a row: five reconnects scheduled, 2 to 10
    seconds out, and the status ends at disconnected. *)
Example six_abnormal_closes :
  let c := Reconnect.run (repeat (Reconnect.closed 1006) 6) Reconnect.initial in
  Reconnect.scheduled c = [2000; 4000; 6000; 8000; 10000]%Z
  /\ Reconnect.connectionStatus c = "disconnected"%string
  /\ Reconnect.reconnectAttempts c = 5%nat.
Proof. vm_compute. repeat split; reflexivity. Qed.

(** ** generateRecommendations *)

Lemma critical_recommendation_per_category (k : string) :
  Forall Recommendations.per_category (Recommendations.critical_recommendation k).
Proof.
  unfold Recommendations.critical_recommendation.
  destruct (String.eqb k "tired"); [repeat constructor; discriminate|].
  destruct (String.eqb k "hungry"); [repeat constructor; discriminate|].
  destruct (String.eqb k "sick"); [repeat constructor; discriminate|].
  destruct (_ || _); repeat constructor; discriminate.
Qed.

Lemma recommend_fold (fd : gmap string Entry) (keys : list string)
    (recs : list Recommendations.Recommendation)
    (issues : list Recommendations.Issue) :
  Forall Recommendations.per_category recs ->
  Forall (fun i => Recommendations.issue_priority i = "critical"%string) issues ->
  let '(recs', issues') :=
    fold_left (Recommendations.recommend_step fd) keys (recs, issues) in
  Forall Recommendations.per_category recs'
  /\ Forall (fun i => Recommendations.issue_priority i = "critical"%string) issues'
  /\ Recommendations.issue_category <$> issues'
     = (Recommendations.issue_category <$> issues)
       ++ List.filter (Recommendations.is_critical fd) keys.
Proof.
  revert recs issues.
  induction keys as [|k keys IH]; intros recs issues Hr Hi.
  - simpl. rewrite app_nil_r. auto.
  - cbn [fold_left List.filter].
    assert (exists recs1 issues1,
              Recommendations.recommend_step fd (recs, issues) k = (recs1, issues1)
              /\ Forall Recommendations.per_category recs1
              /\ Forall (fun i => Recommendations.issue_priority i = "critical"%string)
                   issues1
              /\ Recommendations.issue_category <$> issues1
                 = (Recommendations.issue_category <$> issues)
                   ++ (if Recommendations.is_critical fd k then [k] else []))
      as (recs1 & issues1 & -> & Hr1 & Hi1 & Hc1).
    { unfold Recommendations.recommend_step, Recommendations.is_critical, severity_of.
      destruct (fd !! k) as [data|];
        [|do 2 eexists; rewrite app_nil_r; auto].
      destruct (severity data) as [sev|];
        [|do 2 eexists; rewrite app_nil_r; auto].
      destruct (truthy (VStr sev));
        [|do 2 eexists; rewrite app_nil_r; auto].
      destruct (String.eqb sev "CRITICAL").
      - do 2 eexists. split; [reflexivity|]. split; [|split].
        + apply Forall_app. split; [exact Hr|].
          apply critical_recommendation_per_category.
        + apply Forall_app. split; [exact Hi | repeat constructor].
        + rewrite fmap_app. reflexivity.
      - destruct (String.eqb sev "HIGH"); do 2 eexists;
          (split; [reflexivity|]); rewrite app_nil_r;
          (split; [|split; [exact Hi | reflexivity]]); [|exact Hr].
        apply Forall_app. split; [exact Hr|].
        repeat constructor; discriminate. }
    specialize (IH recs1 issues1 Hr1 Hi1).
    destruct (fold_left _ _ _) as [recs' issues'].
    destruct IH as (Hr' & Hi' & Hc'). split; [exact Hr'|]. split; [exact Hi'|].
    rewrite Hc', Hc1, <- app_assoc. f_equal.
    destruct (Recommendations.is_critical fd k); reflexivity.
Qed.

Lemma count_all_critical (issues : list Recommendations.Issue) :
  Forall (fun i => Recommendations.issue_priority i = "critical"%string) issues ->
  Recommendations.count_priority "critical" issues = length issues
  /\ Recommendations.count_priority "high" issues = 0%nat
  /\ existsb (fun i => String.eqb (Recommendations.issue_priority i) "critical"
                       || String.eqb (Recommendations.issue_priority i) "high")
       issues
     = (0 <? length issues)%nat.
Proof.
  unfold Recommendations.count_priority.
  induction 1 as [|i issues Hi _ IH]; simpl; [auto|].
  rewrite Hi. simpl. destruct IH as (-> & -> & _). auto.
Qed.

(** X22: generateRecommendations reports that attention is required exactly
    when some category's severity is CRITICAL; a HIGH severity alone never
    does.  Every issue it lists is a critical one, one per critical
    category in category order, so the high-issue count is always 0 and the
    intervention recommendation is never produced. *)
Theorem attention_iff_critical (fd : gmap string Entry) (participantCount : nat) :
  let r := Recommendations.generateRecommendations fd participantCount in
  let s := Recommendations.summary r in
  Recommendations.issue_category <$> Recommendations.issues r
  = Recommendations.critical_categories fd
  /\ Recommendations.criticalIssues s = Recommendations.totalIssues s
  /\ Recommendations.highIssues s = 0%nat
  /\ (Recommendations.requiresAttention s = true
      <-> Recommendations.critical_categories fd <> [])
  /\ Forall (fun x => Recommendations.type x <> "intervention"%string)
       (Recommendations.recommendations r).
Proof.
  intros r s. subst s r. unfold Recommendations.generateRecommendations.
  pose proof (recommend_fold fd
                ["tired"; "energetic"; "sick"; "hungry"; "adventurous"]%string
                [] [] ltac:(constructor) ltac:(constructor)) as H.
  destruct (fold_left _ _ _) as [recs issues].
  destruct H as (Hr & Hi & Hc).
  change (Recommendations.issue_category <$> issues
          = Recommendations.critical_categories fd) in Hc.
  destruct (count_all_critical issues Hi) as (Hcrit & Hhigh & Hatt).
  cbn [Recommendations.issues Recommendations.summary
       Recommendations.recommendations Recommendations.criticalIssues
       Recommendations.totalIssues Recommendations.highIssues
       Recommendations.requiresAttention].
  split; [exact Hc|]. split; [exact Hcrit|]. split; [exact Hhigh|]. split.
  - rewrite Hatt, <- Hc.
    destruct issues; simpl; split; intros H; try discriminate; try congruence.
    reflexivity.
  - assert (Forall (fun x => Recommendations.type x <> "intervention"%string) recs)
      as Hrecs by (eapply Forall_impl; [exact Hr|]; intros x [_ Hx]; exact Hx).
    destruct (0 <? participantCount)%nat; [|exact Hrecs].
    rewrite Hcrit, Hhigh.
    destruct (0 <? length issues)%nat; [|exact Hrecs].
    constructor; [discriminate | exact Hrecs].
Qed.

(** X23: with participants counted and at least one CRITICAL category, the
    first recommendation is the emergency one and its message gives the
    number of critical categories; with a participant count of 0 (the
    default) no emergency recommendation is made however many categories
    are critical. *)
Theorem emergency_first (fd : gmap string Entry) (participantCount : nat) :
  let r := Recommendations.generateRecommendations fd participantCount in
  let n := length (Recommendations.critical_categories fd) in
  ((0 < participantCount)%nat -> (0 < n)%nat ->
   exists rest,
     Recommendations.recommendations r
     = Recommendations.mkRecommendation "emergency" "critical"
         ("Address " ++ pretty n ++ " critical issue"
          ++ Recommendations.plural n ++ " immediately")
         "immediate_action"
       :: rest
     /\ Forall Recommendations.per_category rest)
  /\ (participantCount = 0%nat ->
      Forall Recommendations.per_category (Recommendations.recommendations r)).
Proof.
  intros r n. subst r n. unfold Recommendations.generateRecommendations.
  pose proof (recommend_fold fd
                ["tired"; "energetic"; "sick"; "hungry"; "adventurous"]%string
                [] [] ltac:(constructor) ltac:(constructor)) as H.
  destruct (fold_left _ _ _) as [recs issues].
  destruct H as (Hr & Hi & Hc).
  change (Recommendations.issue_category <$> issues
          = Recommendations.critical_categories fd) in Hc.
  destruct (count_all_critical issues Hi) as (Hcrit & Hhigh & _).
  assert (length (Recommendations.critical_categories fd) = length issues) as Hlen.
  { rewrite <- Hc, length_fmap. reflexivity. }
  rewrite Hlen. cbn [Recommendations.recommendations]. split.
  - intros Hp Hn. apply Nat.ltb_lt in Hp, Hn. rewrite Hp, Hcrit, Hn.
    exists recs. split; [reflexivity | exact Hr].
  - intros ->. exact Hr.
Qed.

Lemma emergency_first_witness :
  let fd : gmap string Entry :=
    <["sick" := mkEntry (Some (Fin 9)) None (Some "CRITICAL")]>
    (<["tired" := mkEntry (Some (Fin 7)) None (Some "HIGH")]> ∅) in
  exists rest,
    Recommendations.recommendations (Recommendations.generateRecommendations fd 4)
    = Recommendations.mkRecommendation "emergency" "critical"
        "Address 1 critical issue immediately" "immediate_action"
      :: rest
    /\ Forall Recommendations.per_category rest.
Proof.
  intros fd.
  apply (proj1 (emergency_first fd 4)); vm_compute; lia.
Defined.

(** ** The two validators *)

Lemma check_fold (data : gmap string Val) (keys : list string)
    (errors warnings : list Integrity.Problem) :
  let '(errors', warnings') :=
    fold_left (Integrity.check_category data) keys (errors, warnings) in
  length errors'
  = (length errors
     + length (List.filter (fun c => negb (is_number (prop data c))) keys))%nat
  /\ (length warnings' <= length warnings + length keys)%nat.
Proof.
  revert errors warnings.
  induction keys as [|k keys IH]; intros errors warnings; [simpl; lia|].
  cbn [fold_left List.filter].
  assert (exists e w,
            Integrity.check_category data (errors, warnings) k = (e, w)
            /\ length e = (length errors
                           + if negb (is_number (prop data k)) then 1 else 0)%nat
            /\ (length w <= Datatypes.S (length warnings))%nat)
    as (e & w & -> & He & Hw).
  { unfold Integrity.check_category.
    destruct (prop data k) as [| | |n| |]; simpl;
      try (do 2 eexists; split; [reflexivity|]; rewrite ?length_app; simpl; lia).
    destruct (_ || _); do 2 eexists; (split; [reflexivity|]);
      rewrite ?length_app; simpl; lia. }
  specialize (IH e w). destruct (fold_left _ _ _) as [errors' warnings'].
  destruct IH as [-> IH]. rewrite He.
  destruct (negb (is_number (prop data k))); simpl; lia.
Qed.

Lemma no_filter_iff {A} (f : A -> bool) (l : list A) :
  length (List.filter f l) = 0%nat <-> forall x, In x l -> f x = false.
Proof.
  induction l as [|a l IH]; simpl; [tauto|].
  destruct (f a) eqn:E; simpl.
  - split; [discriminate|]. intros H. specialize (H a (or_introl eq_refl)). congruence.
  - rewrite IH. split.
    + intros H x [<- | Hx]; auto.
    + intros H x Hx. apply H. auto.
Qed.

(** X24: the integrity check of feedbackUtils accepts exactly the data whose
    five category values are all of type number, whatever their range, so
    it accepts everything the validator of feedbackApi accepts, and more:
    out-of-range numbers only earn a warning. *)
Theorem integrity_check_is_weaker (data : gmap string Val) :
  (Integrity.isValid (Integrity.validateFeedbackData (Some data)) = true
   <-> forall c, In c Integrity.categories -> is_number (prop data c) = true)
  /\ (FeedbackApi.isValid (FeedbackApi.validateFeedbackData data) = true ->
      Integrity.isValid (Integrity.validateFeedbackData (Some data)) = true).
Proof.
  assert (Integrity.isValid (Integrity.validateFeedbackData (Some data)) = true
          <-> forall c, In c Integrity.categories -> is_number (prop data c) = true)
    as Hiff.
  { unfold Integrity.validateFeedbackData.
    pose proof (check_fold data Integrity.categories [] []) as H.
    destruct (fold_left _ _ _) as [errors warnings]. destruct H as [Hlen _].
    cbn [Integrity.isValid]. rewrite Nat.eqb_eq, Hlen. simpl length at 1.
    rewrite Nat.add_0_l, no_filter_iff. split; intros H c Hc.
    - apply Bool.negb_false_iff. apply H. exact Hc.
    - apply Bool.negb_false_iff. apply H. exact Hc. }
  split; [exact Hiff|].
  intros Hapi. apply Hiff. intros c Hc.
  pose proof (accepted_value data c Hapi Hc) as Hacc.
  destruct (prop data c); try discriminate Hacc. reflexivity.
Qed.

(** X25: the two scores of the integrity check are percentages: both lie
    between 0 and 100, completeness is 100 exactly when the data is valid,
    and consistency is 100 exactly when there is no warning. *)
Theorem integrity_scores (data : gmap string Val) :
  exists s,
    Integrity.score (Integrity.validateFeedbackData (Some data)) = Some s
    /\ 0 <= Integrity.completeness s <= 100
    /\ 0 <= Integrity.consistency s <= 100
    /\ (Integrity.completeness s == 100
        <-> Integrity.isValid (Integrity.validateFeedbackData (Some data)) = true)
    /\ (Integrity.consistency s == 100
        <-> Integrity.warnings (Integrity.validateFeedbackData (Some data)) = []).
Proof.
  unfold Integrity.validateFeedbackData.
  pose proof (check_fold data Integrity.categories [] []) as H.
  destruct (fold_left _ _ _) as [errors warnings0]. destruct H as [Hlen _].
  assert (length errors <= 5)%nat as He.
  { rewrite Hlen. simpl length at 1.
    pose proof (List.filter_length_le
                  (fun c => negb (is_number (prop data c))) Integrity.categories).
    simpl in *. lia. }
  set (warnings :=
         if (length (List.filter _ Integrity.categories) =? _)%nat
         then _ else _).
  eexists. split; [reflexivity|].
  cbn [Integrity.completeness Integrity.consistency Integrity.isValid
       Integrity.warnings].
  change (length Integrity.categories) with 5%nat.
  change (inject_Z (Z.of_nat 5)) with 5.
  generalize dependent (length errors). intros n Hlen He.
  assert (inject_Z (Z.of_nat 5 - Z.of_nat n) == 5 - inject_Z (Z.of_nat n)) as Hn
    by (unfold Zminus; rewrite inject_Z_plus, inject_Z_opp; reflexivity).
  assert (0 <= inject_Z (Z.of_nat n) <= 5) as Hr.
  { split; [change 0 with (inject_Z 0) | change 5 with (inject_Z 5)];
      rewrite <- Zle_Qle; lia. }
  assert (inject_Z (Z.of_nat 5 - Z.of_nat n) / 5 * 100
          == (5 - inject_Z (Z.of_nat n)) * 20) as Hc
    by (rewrite Hn; field).
  split; [rewrite Hc; split; lra|]. split; [|split].
  - destruct (Nat.eqb_spec (length warnings) 0); [lra|].
    split; [apply Q.le_max_l|].
    apply Q.max_lub; [lra|].
    assert (0 <= inject_Z (Z.of_nat (length warnings)))
      by (change 0 with (inject_Z 0); rewrite <- Zle_Qle; lia).
    lra.
  - rewrite Hc, Nat.eqb_eq. split.
    + intros H. assert (inject_Z (Z.of_nat n) == 0) as H0 by (clear - H; lra).
      unfold Qeq in H0. simpl in H0. lia.
    + intros Hz. rewrite Hz. change (inject_Z (Z.of_nat 0)) with 0. lra.
  - destruct (Nat.eqb_spec (length warnings) 0) as [E | E].
    + split; [intros _; destruct warnings; [reflexivity | discriminate E] | reflexivity].
    + split; [|intros Hw; rewrite Hw in E; contradiction].
      intros H. exfalso.
      assert (1 <= inject_Z (Z.of_nat (length warnings)))
        by (change 1 with (inject_Z 1); rewrite <- Zle_Qle; lia).
      destruct (Q.max_spec 0 (100 - inject_Z (Z.of_nat (length warnings)) * 25))
        as [[_ Hm] | [_ Hm]]; rewrite Hm in H; lra.
Qed.

(** ** The form's levels against the tiers *)

(** X26: on the integer steps of the slider and a higher-is-worse category,
    the five levels the form shows and the five tiers of calculateSeverity
    cut the scale at the same places: two values get the same level exactly
    when they get the same tier. *)
Theorem form_levels_match_tiers (a b : Z) (k : string) (c : Category) :
  (1 <= a <= 10)%Z -> (1 <= b <= 10)%Z ->
  FEEDBACK_CATEGORIES !! k = Some c -> inverseScale c = false ->
  (FeedbackForm.getSeverityLevel (Fin (inject_Z a))
   = FeedbackForm.getSeverityLevel (Fin (inject_Z b))
   <-> calculateSeverity (VNum (Fin (inject_Z a))) k
       = calculateSeverity (VNum (Fin (inject_Z b))) k).
Proof.
  intros Ha Hb Hk Hinv.
  rewrite (calculateSeverity_normal (inject_Z a) k c),
    (calculateSeverity_normal (inject_Z b) k c); try assumption.
  - assert (a = 1 \/ a = 2 \/ a = 3 \/ a = 4 \/ a = 5 \/ a = 6 \/ a = 7
            \/ a = 8 \/ a = 9 \/ a = 10)%Z as Ha' by lia.
    assert (b = 1 \/ b = 2 \/ b = 3 \/ b = 4 \/ b = 5 \/ b = 6 \/ b = 7
            \/ b = 8 \/ b = 9 \/ b = 10)%Z as Hb' by lia.
    repeat destruct Ha' as [-> | Ha']; try subst a;
      repeat destruct Hb' as [-> | Hb']; try subst b;
      vm_compute; split; intros H; first [reflexivity | discriminate H].
  - split; [change 1 with (inject_Z 1) | change 10 with (inject_Z 10)];
      rewrite <- Zle_Qle; lia.
  - split; [change 1 with (inject_Z 1) | change 10 with (inject_Z 10)];
      rewrite <- Zle_Qle; lia.
Qed.

Lemma form_levels_match_tiers_witness :
  FeedbackForm.getSeverityLevel (Fin (inject_Z 7))
  = FeedbackForm.getSeverityLevel (Fin (inject_Z 8))
  <-> calculateSeverity (VNum (Fin (inject_Z 7))) "tired"
      = calculateSeverity (VNum (Fin (inject_Z 8))) "tired".
Proof.
  apply (form_levels_match_tiers 7 8 "tired" (mkCategory "tired" "Tired" false 7));
    first [lia | vm_compute; reflexivity].
Defined.

(** ** Alerts kept by the monitor *)

Lemma addAlert_length (now : Z) (title type : string) (message : option string)
    (prev : list Alert) :
  length (addAlert now title type message prev) = Datatypes.S (min 9 (length prev)).
Proof. unfold addAlert. simpl. rewrite length_take. reflexivity. Qed.

Lemma analyze_capped (now : Z) (fd : option Feedback) (alerts : list Alert) :
  (length alerts <= 10)%nat ->
  (length (fst (analyzeFeedbackForAlerts now fd alerts)) <= 10)%nat.
Proof.
  intros H. unfold analyzeFeedbackForAlerts.
  destruct fd as [fd|]; [|exact H].
  destruct (fatigue_analysis fd) as [fa|]; [|exact H].
  assert (length (overall_alert now fa alerts) <= 10)%nat as H1.
  { unfold overall_alert.
    destruct (Qlt_bool 75 _); [rewrite addAlert_length; lia|].
    destruct (Qlt_bool 60 _); [rewrite addAlert_length; lia | exact H]. }
  destruct (average_scores fd) as [s|]; [|exact H1].
  simpl. unfold category_alerts.
  destruct (num_lt _ _), (num_gt (hungry s) _), (num_gt (tired s) _);
    rewrite ?addAlert_length; lia.
Qed.

(** X27: the monitor never holds more than ten alerts: starting from at
    most ten, any sequence of fetched snapshots leaves at most ten, since
    every alert added pushes out all but nine of the earlier ones. *)
Theorem monitor_keeps_ten (fetched : list (Z * option Feedback))
    (alerts : list Alert) :
  (length alerts <= 10)%nat -> (length (monitor fetched alerts) <= 10)%nat.
Proof.
  revert alerts. unfold monitor.
  induction fetched as [|[now fd] fetched IH]; intros alerts H; simpl; [exact H|].
  apply IH, analyze_capped, H.
Qed.

Lemma monitor_keeps_ten_witness :
  let fd := mkFeedback (Some (mkFatigue 80 "high"))
              (Some (mkScores (Fin 1) (Fin 9) (Fin 9))) in
  (length (monitor [(1%Z, Some fd); (2%Z, Some fd); (3%Z, Some fd)] []) <= 10)%nat.
Proof.
  intros fd. apply (monitor_keeps_ten _ []). simpl. lia.
Defined.

(** ** More on calculateOptimalDuration *)

Lemma round_of_Q_comp (x y : Q) :
  x == y -> Double.round (Double.of_Q x) = Double.round (Double.of_Q y).
Proof.
  intros E. unfold Double.of_Q. cbv zeta.
  pose proof (rnd_comp x y E) as Er.
  destruct (Qle_bool (Double.pow2 1024) (Double.rnd x)) eqn:E1;
  destruct (Qle_bool (Double.pow2 1024) (Double.rnd y)) eqn:E2;
    try (apply Qle_bool_iff in E1); try (apply Qle_bool_iff in E2);
    try (apply Qle_bool_false in E1); try (apply Qle_bool_false in E2);
    try reflexivity; try lra.
  destruct (Qle_bool (Double.rnd x) (- Double.pow2 1024)) eqn:E3;
  destruct (Qle_bool (Double.rnd y) (- Double.pow2 1024)) eqn:E4;
    try (apply Qle_bool_iff in E3); try (apply Qle_bool_iff in E4);
    try (apply Qle_bool_false in E3); try (apply Qle_bool_false in E4);
    try reflexivity; try lra.
  cbn [Double.round]. do 2 f_equal. unfold math_round. apply Qfloor_comp.
  rewrite Er. reflexivity.
Qed.

(** X28: the adjustment calculateOptimalDuration reports is between -45 and
    0 percent, its confidence is between 70 and 83.5 (the cap at 100 is
    never reached), a reason is always given, and when the factor is 0 the
    recommendation is the rounded base duration, or 15 if that is less. *)
Theorem optimal_duration_report (fd : gmap string Entry) (baseDuration : Num) :
  let d := calculateOptimalDuration fd baseDuration in
  (-45 <= adjustmentFactor d <= 0)%Z
  /\ 70 <= confidence d <= (835 # 10)
  /\ reason d <> []
  /\ (duration_factor fd == 0 ->
      recommended d
      = Double.max (Double.round (Double.round_num baseDuration)) (Fin 15))
  /\ (forall q, baseDuration = Fin q -> Double.representable q ->
      duration_factor fd == 0 ->
      recommended d = Fin (inject_Z (Z.max (math_round q) 15))).
Proof.
  intros d. subst d. unfold calculateOptimalDuration, duration_factor.
  destruct (duration_fold_cases fd) as (t & e & h & ->).
  pose proof (duration_outcome_facts t e h) as (Hs & Hs01 & Hf & Hpct & Hconf & H0).
  cbv zeta in Hs, Hs01, Hf, Hpct, Hconf, H0.
  set (s := Double.rnd (1 + fst (duration_outcome t e h))) in *.
  assert (Hreason : snd (duration_outcome t e h) <> []
                    \/ snd (duration_outcome t e h) = [])
    by (destruct t, e, h; (left; discriminate) || (right; reflexivity)).
  destruct (duration_outcome t e h) as [f reason]. cbn [fst snd] in *.
  cbn [recommended adjustmentFactor confidence FeedbackUtils.reason]. rewrite Hs.
  assert (Hrec : f == 0 ->
                 Double.max (Double.round (Double.mul baseDuration (Fin s))) (Fin 15)
                 = Double.max (Double.round (Double.round_num baseDuration)) (Fin 15)).
  { intros Hf0. specialize (H0 Hf0). f_equal.
    destruct baseDuration as [q| | |].
    - unfold Double.mul. cbn [JsArith.num_mul Double.round_num].
      apply round_of_Q_comp. rewrite H0. ring.
    - reflexivity.
    - unfold Double.mul. cbn [JsArith.num_mul]. unfold JsArith.scale_inf.
      destruct (Qeq_bool s 0) eqn:E0; [apply Qeq_bool_iff in E0; lra|].
      assert (Qlt_bool 0 s = true) as -> by (apply Qlt_bool_iff; lra).
      reflexivity.
    - unfold Double.mul. cbn [JsArith.num_mul]. unfold JsArith.scale_inf.
      destruct (Qeq_bool s 0) eqn:E0; [apply Qeq_bool_iff in E0; lra|].
      assert (Qlt_bool 0 s = true) as -> by (apply Qlt_bool_iff; lra).
      reflexivity. }
  split; [exact Hpct|]. split; [exact Hconf|]. split; [|split].
  - destruct reason as [|r0 reason']; [discriminate|].
    cbn [length Nat.ltb Nat.leb]. discriminate.
  - exact Hrec.
  - intros q -> [Hq Hlt] Hf0. rewrite (Hrec Hf0). cbn [Double.round_num].
    rewrite of_Q_fin_lt by (rewrite Hq; exact Hlt).
    cbn [Double.round]. rewrite max_with_15. do 3 f_equal.
    unfold math_round. apply Qfloor_comp. rewrite Hq. reflexivity.
Qed.

(** ** The trend of a steadily changing series *)

Lemma fold_add_fin (g : nat -> Q) (f : nat -> Num) (l : list nat) (s0 : Q) :
  (forall i, In i l -> f i = Fin (g i)) ->
  fold_left (fun acc i => JsArith.num_add acc (f i)) l (Fin s0)
  = Fin (fold_left (fun acc i => acc + g i) l s0).
Proof.
  revert s0. induction l as [|i l IH]; intros s0 H; simpl; [reflexivity|].
  rewrite (H i) by (left; reflexivity). simpl. apply IH.
  intros j Hj. apply H. right. exact Hj.
Qed.

Lemma fold_add_fmap (f : nat -> Num) (l : list nat) (acc : Num) :
  fold_left (fun a b => JsArith.num_add a b) (f <$> l) acc
  = fold_left (fun a i => JsArith.num_add a (f i)) l acc.
Proof.
  revert acc. induction l as [|i l IH]; intros acc; simpl; [reflexivity | apply IH].
Qed.

Lemma sum_to_S (g : nat -> Q) (n : nat) :
  Trends.sum_to g (Datatypes.S n) = Trends.sum_to g n + g n.
Proof.
  unfold Trends.sum_to. rewrite seq_S, fold_left_app. reflexivity.
Qed.

Lemma inject_S (n : nat) :
  inject_Z (Z.of_nat (Datatypes.S n)) == inject_Z (Z.of_nat n) + 1.
Proof. rewrite Nat2Z.inj_succ. unfold Z.succ. rewrite inject_Z_plus. reflexivity. Qed.

Lemma sum_positions (n : nat) :
  2 * Trends.sum_to (fun i => inject_Z (Z.of_nat i)) n
  == inject_Z (Z.of_nat n) * (inject_Z (Z.of_nat n) - 1).
Proof.
  induction n as [|n IH]; [reflexivity|].
  rewrite sum_to_S, inject_S.
  assert (E : 2 * (Trends.sum_to (fun i => inject_Z (Z.of_nat i)) n
                   + inject_Z (Z.of_nat n))
              == 2 * Trends.sum_to (fun i => inject_Z (Z.of_nat i)) n
                 + 2 * inject_Z (Z.of_nat n)) by ring.
  rewrite E, IH. ring.
Qed.

Lemma sum_squares (n : nat) :
  6 * Trends.sum_to (fun i => inject_Z (Z.of_nat i) * inject_Z (Z.of_nat i)) n
  == (inject_Z (Z.of_nat n) - 1) * inject_Z (Z.of_nat n)
     * (2 * inject_Z (Z.of_nat n) - 1).
Proof.
  induction n as [|n IH]; [reflexivity|].
  rewrite sum_to_S, inject_S.
  assert (E :
    6 * (Trends.sum_to (fun i => inject_Z (Z.of_nat i) * inject_Z (Z.of_nat i)) n
          + inject_Z (Z.of_nat n) * inject_Z (Z.of_nat n))
    == 6 * Trends.sum_to (fun i => inject_Z (Z.of_nat i) * inject_Z (Z.of_nat i)) n
       + 6 * (inject_Z (Z.of_nat n) * inject_Z (Z.of_nat n))) by ring.
  rewrite E, IH. ring.
Qed.

Lemma sum_values (a b : Q) (n : nat) :
  Trends.sum_to (fun i => a + b * inject_Z (Z.of_nat i)) n
  == inject_Z (Z.of_nat n) * a
     + b * Trends.sum_to (fun i => inject_Z (Z.of_nat i)) n.
Proof.
  induction n as [|n IH]; [simpl; unfold Trends.sum_to; simpl; ring|].
  rewrite !sum_to_S, inject_S, IH. ring.
Qed.

Lemma sum_products (a b : Q) (n : nat) :
  Trends.sum_to
    (fun i => inject_Z (Z.of_nat i) * (a + b * inject_Z (Z.of_nat i))) n
  == a * Trends.sum_to (fun i => inject_Z (Z.of_nat i)) n
     + b * Trends.sum_to (fun i => inject_Z (Z.of_nat i) * inject_Z (Z.of_nat i)) n.
Proof.
  induction n as [|n IH]; [unfold Trends.sum_to; simpl; ring|].
  rewrite !sum_to_S, IH. ring.
Qed.


Lemma steady_length (a b : Q) (n : nat) : length (Trends.steady a b n) = n.
Proof. unfold Trends.steady. rewrite length_fmap. apply length_seq. Qed.

Lemma steady_at (a b : Q) (n i : nat) :
  (i < n)%nat ->
  Trends.at_index (Trends.steady a b n) i
  = Fin (a + b * inject_Z (Z.of_nat i)).
Proof.
  intros Hi. unfold Trends.at_index, Trends.steady.
  rewrite list_lookup_fmap, lookup_seq_lt by exact Hi. reflexivity.
Qed.

(** The slope of a steady series is its step: the regression recovers [b]
    from [a + b * i], whatever the start [a]. *)
Lemma steady_slope (a b : Q) (n : nat) :
  (2 <= n)%nat ->
  exists s, Trends.regression_slope (Trends.steady a b n) = Fin s /\ s == b.
Proof.
  intros Hn. unfold Trends.regression_slope. rewrite steady_length. cbv zeta.
  set (N := fun i : nat => inject_Z (Z.of_nat i)).
  assert (HX : fold_left (fun a0 b0 => JsArith.num_add a0 (Trends.of_nat b0))
                 (seq 0 n) (Fin 0) = Fin (Trends.sum_to N n)).
  { apply (fold_add_fin N Trends.of_nat). reflexivity. }
  assert (HXX : fold_left
                  (fun sum xi => JsArith.num_add sum
                     (JsArith.num_mul (Trends.of_nat xi) (Trends.of_nat xi)))
                  (seq 0 n) (Fin 0)
                = Fin (Trends.sum_to (fun i => N i * N i) n)).
  { apply (fold_add_fin (fun i => N i * N i)
             (fun xi => JsArith.num_mul (Trends.of_nat xi) (Trends.of_nat xi))).
    reflexivity. }
  assert (HY : fold_left (fun a0 b0 => JsArith.num_add a0 b0)
                 (Trends.steady a b n) (Fin 0)
               = Fin (Trends.sum_to (fun i => a + b * N i) n)).
  { unfold Trends.steady. rewrite fold_add_fmap.
    apply (fold_add_fin (fun i => a + b * N i)
             (fun i => Fin (a + b * inject_Z (Z.of_nat i)))).
    reflexivity. }
  assert (HXY : fold_left
                  (fun sum xi => JsArith.num_add sum
                     (JsArith.num_mul (Trends.of_nat xi)
                        (Trends.at_index (Trends.steady a b n) xi)))
                  (seq 0 n) (Fin 0)
                = Fin (Trends.sum_to (fun i => N i * (a + b * N i)) n)).
  { apply (fold_add_fin (fun i => N i * (a + b * N i))
             (fun xi => JsArith.num_mul (Trends.of_nat xi)
                          (Trends.at_index (Trends.steady a b n) xi))).
    intros i Hi. apply in_seq in Hi. rewrite steady_at by lia. reflexivity. }
  rewrite HX, HXX, HY, HXY. clear HX HXX HY HXY.
  pose proof (sum_positions n) as EX. pose proof (sum_squares n) as EXX.
  pose proof (sum_values a b n) as EY. pose proof (sum_products a b n) as EXY.
  fold N in EX, EXX, EY, EXY.
  change (inject_Z (Z.of_nat n)) with (N n) in EX, EXX, EY, EXY.
  change (fun i : nat => inject_Z (Z.of_nat i) * inject_Z (Z.of_nat i))
    with (fun i => N i * N i) in *.
  change (fun i : nat => a + b * inject_Z (Z.of_nat i))
    with (fun i => a + b * N i) in *.
  change (fun i : nat => inject_Z (Z.of_nat i) * (a + b * inject_Z (Z.of_nat i)))
    with (fun i => N i * (a + b * N i)) in *.
  set (X := Trends.sum_to N n) in *.
  set (XX := Trends.sum_to (fun i => N i * N i) n) in *.
  set (Y := Trends.sum_to (fun i => a + b * N i) n) in *.
  set (XY := Trends.sum_to (fun i => N i * (a + b * N i)) n) in *.
  assert (HN : 2 <= N n).
  { unfold N. change 2 with (inject_Z 2). rewrite <- Zle_Qle. lia. }
  set (D := N n * XX + - (X * X)).
  assert (HD : 12 * D == (N n * N n) * ((N n - 1) * (N n + 1))).
  { assert (E : 12 * D == 2 * N n * (6 * XX) - 3 * ((2 * X) * (2 * X)))
      by (unfold D; ring).
    rewrite E, EXX, EX. ring. }
  assert (Hpos : 0 < D).
  { assert (H1 : 0 < N n * N n) by (apply Qmult_lt_0_compat; lra).
    assert (H2 : 0 < (N n - 1) * (N n + 1)) by (apply Qmult_lt_0_compat; lra).
    pose proof (Qmult_lt_0_compat _ _ H1 H2) as H3. rewrite <- HD in H3. lra. }
  assert (Hnum : N n * XY + - (X * Y) == b * D).
  { rewrite EXY, EY. unfold D. ring. }
  unfold Trends.of_nat. fold (N n).
  cbn [JsArith.num_div JsArith.num_sub JsArith.num_mul JsArith.num_add
       JsArith.num_neg].
  fold D.
  destruct (Qeq_bool D 0) eqn:E0.
  { apply Qeq_bool_iff in E0. rewrite E0 in Hpos. lra. }
  eexists. split; [reflexivity|].
  rewrite Hnum. field. intros HD0. rewrite HD0 in Hpos. lra.
Qed.

Lemma trend_label (s : Q) (b : Z) :
  s == inject_Z b ->
  (if num_gt (Trends.num_abs (Fin s)) (Fin (1 # 10))
   then (if num_gt (Fin s) (Fin 0) then "improving" else "declining")
   else "stable")
  = (if (0 <? b)%Z then "improving"
     else if (b <? 0)%Z then "declining" else "stable").
Proof.
  intros Hs. unfold num_gt. cbn [Trends.num_abs num_lt].
  destruct (Z.ltb_spec 0 b) as [Hb|Hb].
  - assert (H1 : 1 <= s).
    { rewrite Hs. change 1 with (inject_Z 1). rewrite <- Zle_Qle. lia. }
    destruct (Qlt_bool (1 # 10) (Qabs s)) eqn:E1.
    + destruct (Qlt_bool 0 s) eqn:E2;
        [reflexivity | apply Qlt_bool_false in E2; lra].
    + apply Qlt_bool_false in E1. rewrite Qabs_pos in E1 by lra. lra.
  - destruct (Z.ltb_spec b 0) as [Hb'|Hb'].
    + assert (H1 : s <= -(1)).
      { rewrite Hs. change (-(1)) with (inject_Z (-1)). rewrite <- Zle_Qle. lia. }
      destruct (Qlt_bool (1 # 10) (Qabs s)) eqn:E1.
      * destruct (Qlt_bool 0 s) eqn:E2;
          [apply Qlt_bool_iff in E2; lra | reflexivity].
      * apply Qlt_bool_false in E1. rewrite Qabs_neg in E1 by lra. lra.
    + assert (H0 : s == 0).
      { rewrite Hs. assert (b = 0%Z) as -> by lia. reflexivity. }
      destruct (Qlt_bool (1 # 10) (Qabs s)) eqn:E1; [|reflexivity].
      apply Qlt_bool_iff in E1. rewrite Qabs_pos in E1 by lra. lra.
Qed.



(** ** The trend in double arithmetic *)

Lemma of_Q_int (q : Q) (z : Z) :
  q == inject_Z z -> (Z.abs z <= 2 ^ 53)%Z -> Trends.is_int (Double.of_Q q) z.
Proof.
  intros Hq Hz. exists (Double.rnd q). split.
  - apply (of_Q_fin q 53); [lia|].
    rewrite Hq, (pow2_Z 53) by lia.
    apply Qabs_Qle_condition. rewrite <- inject_Z_opp, <- !Zle_Qle. lia.
  - rewrite Hq. apply rnd_Z, Hz.
Qed.

Lemma add_int (a b : Num) (x y : Z) :
  Trends.is_int a x -> Trends.is_int b y -> (Z.abs (x + y) <= 2 ^ 53)%Z ->
  Trends.is_int (Double.add a b) (x + y).
Proof.
  intros (p & -> & Hp) (q & -> & Hq) H. unfold Double.add.
  cbn [JsArith.num_add Double.round_num]. apply of_Q_int; [|exact H].
  rewrite Hp, Hq, inject_Z_plus. reflexivity.
Qed.

Lemma sub_int (a b : Num) (x y : Z) :
  Trends.is_int a x -> Trends.is_int b y -> (Z.abs (x - y) <= 2 ^ 53)%Z ->
  Trends.is_int (Double.sub a b) (x - y).
Proof.
  intros (p & -> & Hp) (q & -> & Hq) H. unfold Double.sub, JsArith.num_sub.
  cbn [JsArith.num_neg JsArith.num_add Double.round_num]. apply of_Q_int; [|exact H].
  rewrite Hp, Hq. unfold Z.sub. rewrite inject_Z_plus, inject_Z_opp. reflexivity.
Qed.

Lemma mul_int (a b : Num) (x y : Z) :
  Trends.is_int a x -> Trends.is_int b y -> (Z.abs (x * y) <= 2 ^ 53)%Z ->
  Trends.is_int (Double.mul a b) (x * y).
Proof.
  intros (p & -> & Hp) (q & -> & Hq) H. unfold Double.mul.
  cbn [JsArith.num_mul Double.round_num]. apply of_Q_int; [|exact H].
  rewrite Hp, Hq, inject_Z_mult. reflexivity.
Qed.

Lemma div_int (a b : Num) (k d : Z) :
  Trends.is_int a (k * d) -> Trends.is_int b d -> d <> 0%Z ->
  (Z.abs k <= 2 ^ 53)%Z ->
  Trends.is_int (Double.div a b) k.
Proof.
  intros (p & -> & Hp) (q & -> & Hq) Hd H. unfold Double.div.
  cbn [JsArith.num_div].
  assert (Hq0 : ~ q == 0).
  { rewrite Hq. intros E. unfold Qeq in E. simpl in E. lia. }
  destruct (Qeq_bool q 0) eqn:E0; [apply Qeq_bool_iff in E0; contradiction|].
  cbn [Double.round_num]. apply of_Q_int; [|exact H].
  rewrite Hp, inject_Z_mult, <- Hq. field. exact Hq0.
Qed.

Lemma of_nat_int (i : nat) : Trends.is_int (Trends.of_nat i) (Z.of_nat i).
Proof. eexists. split; reflexivity. Qed.

Lemma fold_fmap_left {X Y : Type} (op : Y -> X -> Y) (f : nat -> X)
    (l : list nat) (acc : Y) :
  fold_left op (f <$> l) acc = fold_left (fun a i => op a (f i)) l acc.
Proof.
  revert acc. induction l as [|i l IH]; intros acc; simpl; [reflexivity | apply IH].
Qed.

Lemma zsum_bound (g : nat -> Z) (G : Z) (n : nat) :
  (forall i, (i < n)%nat -> (Z.abs (g i) <= G)%Z) ->
  (Z.abs (Trends.zsum_to g n) <= Z.of_nat n * G)%Z.
Proof.
  induction n as [|n IH]; intros H; simpl Trends.zsum_to; [lia|].
  specialize (IH ltac:(intros i Hi; apply H; lia)).
  specialize (H n ltac:(lia)). lia.
Qed.

(** A sum of whole numbers added up in doubles is exact while every partial
    sum stays within 2^53. *)
Lemma fold_sum_int (f : nat -> Num) (g : nat -> Z) (G : Z) (n : nat) :
  (forall i, (i < n)%nat -> Trends.is_int (f i) (g i) /\ (Z.abs (g i) <= G)%Z) ->
  (Z.of_nat n * G <= 2 ^ 53)%Z ->
  Trends.is_int
    (fold_left (fun acc i => Double.add acc (f i)) (seq 0 n) (Fin 0))
    (Trends.zsum_to g n).
Proof.
  induction n as [|n IH]; intros H HG.
  - simpl. eexists. split; reflexivity.
  - assert (HG0 : (0 <= G)%Z) by (destruct (H 0%nat ltac:(lia)) as [_ H0]; lia).
    rewrite seq_S, fold_left_app. cbn [fold_left Nat.add Trends.zsum_to].
    apply add_int.
    + apply IH; [intros i Hi; apply H; lia | lia].
    + apply H. lia.
    + pose proof (zsum_bound g G (Datatypes.S n) ltac:(intros i Hi; apply H; lia)) as Hb.
      simpl Trends.zsum_to in Hb. lia.
Qed.

Lemma zsum_positions (n : nat) :
  (2 * Trends.zsum_to Z.of_nat n = Z.of_nat n * (Z.of_nat n - 1))%Z.
Proof. induction n as [|n IH]; [reflexivity|]. simpl Trends.zsum_to. nia. Qed.

Lemma zsum_squares (n : nat) :
  (6 * Trends.zsum_to (fun i => Z.of_nat i * Z.of_nat i) n
   = (Z.of_nat n - 1) * Z.of_nat n * (2 * Z.of_nat n - 1))%Z.
Proof. induction n as [|n IH]; [reflexivity|]. simpl Trends.zsum_to. nia. Qed.

Lemma zsum_values (a b : Z) (n : nat) :
  (Trends.zsum_to (fun i => a + b * Z.of_nat i) n
   = Z.of_nat n * a + b * Trends.zsum_to Z.of_nat n)%Z.
Proof. induction n as [|n IH]; [simpl; lia|]. simpl Trends.zsum_to. nia. Qed.

Lemma zsum_products (a b : Z) (n : nat) :
  (Trends.zsum_to (fun i => Z.of_nat i * (a + b * Z.of_nat i)) n
   = a * Trends.zsum_to Z.of_nat n
     + b * Trends.zsum_to (fun i => Z.of_nat i * Z.of_nat i) n)%Z.
Proof. induction n as [|n IH]; [simpl; lia|]. simpl Trends.zsum_to. nia. Qed.

Lemma abs_mul_le (x y X Y : Z) :
  (Z.abs x <= X)%Z -> (Z.abs y <= Y)%Z -> (Z.abs (x * y) <= X * Y)%Z.
Proof.
  intros Hx Hy. rewrite Z.abs_mul.
  apply Z.mul_le_mono_nonneg; [apply Z.abs_nonneg | exact Hx | apply Z.abs_nonneg | exact Hy].
Qed.

Lemma steady_int (a b : Z) (n i : nat) :
  (i < n)%nat ->
  Trends.is_int (Trends.at_index (Trends.steady (inject_Z a) (inject_Z b) n) i)
    (a + b * Z.of_nat i).
Proof.
  intros Hi. rewrite steady_at by exact Hi. eexists. split; [reflexivity|].
  rewrite inject_Z_plus, inject_Z_mult. reflexivity.
Qed.

(** On a steady series of whole numbers of moderate size every step of the
    regression is exact in doubles, and the quotient is the step [b]. *)
Lemma steady_slope_double (a b : Z) (n : nat) :
  (2 <= n <= 1000)%nat -> (Z.abs a <= 1000)%Z -> (Z.abs b <= 1000)%Z ->
  Trends.is_int
    (Trends.regression_slope_double (Trends.steady (inject_Z a) (inject_Z b) n)) b.
Proof.
  intros Hn Ha Hb. unfold Trends.regression_slope_double.
  rewrite steady_length. cbv zeta.
  set (y := Trends.steady (inject_Z a) (inject_Z b) n).
  set (N := Z.of_nat n).
  assert (HN : (2 <= N <= 1000)%Z) by (unfold N; lia).
  set (SX := Trends.zsum_to Z.of_nat n).
  set (SXX := Trends.zsum_to (fun i => Z.of_nat i * Z.of_nat i)%Z n).
  set (SY := Trends.zsum_to (fun i => a + b * Z.of_nat i)%Z n).
  set (SXY := Trends.zsum_to (fun i => Z.of_nat i * (a + b * Z.of_nat i))%Z n).
  assert (Hi : forall i, (i < n)%nat -> (Z.abs (Z.of_nat i) <= 1000)%Z) by (intros; lia).
  assert (Hv : forall i, (i < n)%nat -> (Z.abs (a + b * Z.of_nat i) <= 1001000)%Z).
  { intros i Hlt. pose proof (abs_mul_le b (Z.of_nat i) 1000 1000 Hb (Hi i Hlt)). lia. }
  assert (Hii : forall i, (i < n)%nat ->
                          (Z.abs (Z.of_nat i * Z.of_nat i) <= 1000000)%Z).
  { intros i Hlt. pose proof (abs_mul_le _ _ 1000 1000 (Hi i Hlt) (Hi i Hlt)). lia. }
  assert (Hiv : forall i, (i < n)%nat ->
                          (Z.abs (Z.of_nat i * (a + b * Z.of_nat i)) <= 1001000000)%Z).
  { intros i Hlt. pose proof (abs_mul_le _ _ 1000 1001000 (Hi i Hlt) (Hv i Hlt)). lia. }
  assert (BX : (Z.abs SX <= 1000000)%Z).
  { pose proof (zsum_bound Z.of_nat 1000 n Hi). fold SX N in H. lia. }
  assert (BXX : (Z.abs SXX <= 1000000000)%Z).
  { pose proof (zsum_bound _ 1000000 n Hii). fold SXX N in H. lia. }
  assert (BY : (Z.abs SY <= 1001000000)%Z).
  { pose proof (zsum_bound _ 1001000 n Hv). fold SY N in H. lia. }
  assert (BXY : (Z.abs SXY <= 1001000000000)%Z).
  { pose proof (zsum_bound _ 1001000000 n Hiv). fold SXY N in H. lia. }
  assert (IX : Trends.is_int
                 (fold_left (fun a0 b0 => Double.add a0 (Trends.of_nat b0))
                    (seq 0 n) (Fin 0)) SX).
  { apply (fold_sum_int Trends.of_nat Z.of_nat 1000).
    - intros i Hlt. split; [apply of_nat_int | apply Hi, Hlt].
    - lia. }
  assert (IXX : Trends.is_int
                  (fold_left
                     (fun sum xi => Double.add sum
                        (Double.mul (Trends.of_nat xi) (Trends.of_nat xi)))
                     (seq 0 n) (Fin 0)) SXX).
  { apply (fold_sum_int
             (fun xi => Double.mul (Trends.of_nat xi) (Trends.of_nat xi))
             (fun i => Z.of_nat i * Z.of_nat i)%Z 1000000).
    - intros i Hlt. split; [|apply Hii, Hlt].
      apply mul_int; [apply of_nat_int | apply of_nat_int |].
      specialize (Hii i Hlt). lia.
    - lia. }
  assert (IY : Trends.is_int
                 (fold_left (fun a0 b0 => Double.add a0 b0) y (Fin 0)) SY).
  { unfold y, Trends.steady. rewrite fold_fmap_left.
    apply (fold_sum_int
             (fun i => Fin (inject_Z a + inject_Z b * inject_Z (Z.of_nat i)))
             (fun i => a + b * Z.of_nat i)%Z 1001000).
    - intros i Hlt. split; [|apply Hv, Hlt].
      eexists. split; [reflexivity|].
      rewrite inject_Z_plus, inject_Z_mult. reflexivity.
    - lia. }
  assert (IXY : Trends.is_int
                  (fold_left
                     (fun sum xi => Double.add sum
                        (Double.mul (Trends.of_nat xi) (Trends.at_index y xi)))
                     (seq 0 n) (Fin 0)) SXY).
  { apply (fold_sum_int
             (fun xi => Double.mul (Trends.of_nat xi) (Trends.at_index y xi))
             (fun i => Z.of_nat i * (a + b * Z.of_nat i))%Z 1001000000).
    - intros i Hlt. split; [|apply Hiv, Hlt].
      apply mul_int; [apply of_nat_int | apply steady_int, Hlt |].
      specialize (Hiv i Hlt). lia.
    - lia. }
  pose proof (abs_mul_le N SXY 1000 1001000000000 ltac:(lia) BXY) as P1.
  pose proof (abs_mul_le SX SY 1000000 1001000000 BX BY) as P2.
  pose proof (abs_mul_le N SXX 1000 1000000000 ltac:(lia) BXX) as P3.
  pose proof (abs_mul_le SX SX 1000000 1000000 BX BX) as P4.
  assert (INum : Trends.is_int
                   (Double.sub (Double.mul (Trends.of_nat n) _) (Double.mul _ _))
                   (N * SXY - SX * SY))
    by (apply sub_int;
          [apply mul_int; [apply of_nat_int | exact IXY | lia]
          | apply mul_int; [exact IX | exact IY | lia]
          | lia]).
  assert (IDen : Trends.is_int
                   (Double.sub (Double.mul (Trends.of_nat n) _) (Double.mul _ _))
                   (N * SXX - SX * SX))
    by (apply sub_int;
          [apply mul_int; [apply of_nat_int | exact IXX | lia]
          | apply mul_int; [exact IX | exact IX | lia]
          | lia]).
  pose proof (zsum_positions n) as EX. pose proof (zsum_squares n) as EXX.
  pose proof (zsum_values a b n) as EY. pose proof (zsum_products a b n) as EXY.
  fold SX SXX SY SXY N in EX, EXX, EY, EXY.
  assert (ED : (12 * (N * SXX - SX * SX) = N * N * ((N - 1) * (N + 1)))%Z).
  { replace (12 * (N * SXX - SX * SX))%Z
      with (2 * N * (6 * SXX) - 3 * ((2 * SX) * (2 * SX)))%Z by ring.
    rewrite EXX, EX. ring. }
  assert (HD : (N * SXX - SX * SX <> 0)%Z).
  { assert (Hpos : (0 < N * N * ((N - 1) * (N + 1)))%Z) by
      (apply Z.mul_pos_pos; apply Z.mul_pos_pos; lia).
    clear - ED Hpos. intros E0. rewrite E0 in ED. lia. }
  assert (ENum : (N * SXY - SX * SY = b * (N * SXX - SX * SX))%Z).
  { rewrite EXY, EY. ring. }
  rewrite ENum in INum.
  apply (div_int _ _ b (N * SXX - SX * SX)); [exact INum | exact IDen | exact HD | lia].
Qed.

(** X32 (analyzeFeedbackTrends): in double arithmetic, as the code runs it,
    a category whose whole-number ratings start at [a] and change by [b]
    from each entry to the next, over 2 to 1000 entries and with [a] and [b]
    at most 1000 in size, gets slope [b] and change [b], and the trend
    "improving" when [b] is positive, "declining" when it is negative and
    "stable" when the ratings do not change: on such series the rounded
    computation and the exact regression agree. *)
Theorem steady_series_trend_double (a b : Z) (n : nat) :
  (2 <= n <= 1000)%nat -> (Z.abs a <= 1000)%Z -> (Z.abs b <= 1000)%Z ->
  exists t s c,
    Trends.category_trend_double (Trends.steady (inject_Z a) (inject_Z b) n) = Some t
    /\ Trends.slope t = Fin s /\ s == inject_Z b
    /\ Trends.change t = Fin c /\ c == inject_Z b
    /\ Trends.dataPoints t = n
    /\ Trends.trend t
       = (if (0 <? b)%Z then "improving"
          else if (b <? 0)%Z then "declining" else "stable")
    /\ exists t', Trends.category_trend (Trends.steady (inject_Z a) (inject_Z b) n)
                  = Some t'
                  /\ Trends.trend t' = Trends.trend t.
Proof.
  intros Hn Ha Hb. unfold Trends.category_trend_double. rewrite steady_length.
  destruct (Nat.leb_spec 2 n) as [_|Hlt]; [|lia]. cbv zeta.
  destruct (steady_slope_double a b n Hn Ha Hb) as (s & Hs & Hsb).
  assert (Hc : Trends.is_int
                 (Double.sub
                    (Trends.at_index (Trends.steady (inject_Z a) (inject_Z b) n) (n - 1))
                    (Trends.at_index (Trends.steady (inject_Z a) (inject_Z b) n) (n - 2)))
                 ((a + b * Z.of_nat (n - 1)) - (a + b * Z.of_nat (n - 2)))).
  { apply sub_int; [apply steady_int; lia | apply steady_int; lia |].
    replace (a + b * Z.of_nat (n - 1) - (a + b * Z.of_nat (n - 2)))%Z with b
      by (replace (Z.of_nat (n - 1)) with (Z.of_nat (n - 2) + 1)%Z by lia; ring).
    lia. }
  destruct Hc as (c & Hc & Hcb).
  rewrite Hs, Hc.
  eexists. exists s, c.
  split; [reflexivity|].
  cbn [Trends.slope Trends.change Trends.dataPoints Trends.trend].
  split; [reflexivity|]. split; [exact Hsb|].
  split; [reflexivity|]. split.
  { rewrite Hcb.
    replace (a + b * Z.of_nat (n - 1) - (a + b * Z.of_nat (n - 2)))%Z with b
      by (replace (Z.of_nat (n - 1)) with (Z.of_nat (n - 2) + 1)%Z by lia; ring).
    reflexivity. }
  split; [reflexivity|]. split; [apply trend_label; exact Hsb|].
  unfold Trends.category_trend. rewrite steady_length.
  destruct (Nat.leb_spec 2 n) as [_|Hlt]; [|lia]. cbv zeta.
  destruct (steady_slope (inject_Z a) (inject_Z b) n ltac:(lia)) as (s' & Hs' & Hsb').
  rewrite Hs'. eexists. split; [reflexivity|].
  cbn [Trends.trend]. rewrite (trend_label s b Hsb), (trend_label s' b Hsb').
  reflexivity.
Qed.

Lemma steady_series_trend_double_witness :
  exists t s c,
    Trends.category_trend_double (Trends.steady (inject_Z 3) (inject_Z 2) 4) = Some t
    /\ Trends.slope t = Fin s /\ s == inject_Z 2
    /\ Trends.change t = Fin c /\ c == inject_Z 2
    /\ Trends.dataPoints t = 4%nat
    /\ Trends.trend t = "improving"
    /\ exists t', Trends.category_trend (Trends.steady (inject_Z 3) (inject_Z 2) 4)
                  = Some t'
                  /\ Trends.trend t' = Trends.trend t.
Proof.
  apply (steady_series_trend_double 3 2 4); lia.
Defined.

(** Off the whole numbers the two part: on the ratings 1, 1.1, 1.2 the exact
    slope is 0.1 and the trend "stable", while the doubles give a slope just
    above 0.1 and the trend "improving". *)
Example rounded_trend_differs :
  let values := [Double.of_Q 1; Double.of_Q (11 # 10); Double.of_Q (12 # 10)] in
  (Trends.trend <$> Trends.category_trend_double values) = Some "improving"%string
  /\ (Trends.trend <$> Trends.category_trend [Fin 1; Fin (11 # 10); Fin (12 # 10)])
     = Some "stable"%string.
Proof. split; vm_compute; reflexivity. Qed.
